(** * 3D car racing game: track streaming, recentering and persistence

    A shallow embedding of [main.py]: the [CarRacingGame] methods that
    generate the track ([create_track], [generate_track_segment],
    [generate_more_terrain]), drive the per-frame [update], and save and load
    the game ([save_game], [load_game], [start_game]), followed by the
    properties of the world generator, the bounds tracker, the recentering
    step and the save/load cycle.

    Besides these, [Car.update], the [Leaderboard] class and [toggle_pause]
    are embedded, with properties of a whole session of frames, of starting
    a game, of the leaderboard and of the cars.

    Conventions of the embedding.
    - Python floats are exact rationals ([Q]).  The engine keeps positions
      in single precision: the [z] that recentering writes back to an entity
      is rounded to the nearest float32 ([f32]); other rounding is not
      modelled.
    - A method is a function of the game state that either returns or raises
      ([M]); a raised exception keeps the mutations made before it.
    - An attribute that a method tests with [hasattr], or that may be missing
      when it is read, is an [option]; reading [None] raises [AttributeError].
    - [json.load] gives back the record a complete [json.dump] wrote, and
      rejects a file that is not JSON.  [json.dump] raises [TypeError] at an
      engine vector: [save_game] hands it the [position] of each live coin.
    - The engine is a collaborator: what [destroy] leaves of an entity, the
      intersection tests and the forward vector are parameters.  The user
      interface is left out: the dashboard texts that [update],
      [collect_coin] and [level_up] write are taken to exist.
    - [random] is a seeded stream: [mt s k] is the [k]-th value that
      [random.random()] returns after [random.seed(s)].
    - [list.sort] is stable, also with [reverse=True]; a leaderboard file
      that parses holds score entries. *)

From Stdlib Require Import ZArith QArith Qabs Qround Qpower Qreals Reals.
From Stdlib Require Import List String Bool Lia Psatz RelationClasses.
From Stdlib Require Import Sorting.Sorted Sorting.Permutation.
Import ListNotations.

Open Scope Q_scope.

(** ** Data model *)

Record Vec3 := mkVec3 { vx : Q; vy : Q; vz : Q }.

(** An engine [Entity] as the game uses it: a position and the [enabled]
    flag that [update] and [save_game] test. *)
Record Entity := mkEntity { position : Vec3; enabled : bool }.

(** [class Car(Entity)]. *)
Record Car := mkCar {
  car_position : Vec3;
  car_rotation : Vec3;
  speed : Q;
  max_speed : Q;
  rotation_speed : Q;
  is_player : bool;
  car_enabled : bool
}.

Inductive GameState := Title | Playing | Paused.

(** The state of the [random] module: the seed last set and the number of
    values drawn since. *)
Record RNG := mkRNG { rng_seed : Z; rng_pos : nat }.

(** The document [save_game] writes. *)
Record PlayerData := mkPlayerData {
  pd_position : Vec3;
  pd_rotation : Vec3;
  pd_speed : Q;
  pd_max_speed : Q;
  pd_rotation_speed : Q
}.

Record CarData := mkCarData {
  cd_position : Vec3;
  cd_rotation : Vec3;
  cd_speed : Q;
  cd_max_speed : Q
}.

Record ProgressData := mkProgressData {
  gs_score : Z;
  gs_level : Z;
  gs_coins : Z;
  gs_total_coins : Z;
  gs_difficulty : string
}.

Record SaveRecord := mkSaveRecord {
  sv_world_seed : Z;
  sv_min_generated_z : Q;
  sv_max_generated_z : Q;
  sv_player : PlayerData;
  sv_coins : list Vec3;
  sv_ai_cars : list CarData;
  sv_game_state : ProgressData
}.

(** What [savegame.json] holds: a document [json.load] parses into a save
    record, or text it rejects. *)
Inductive FileContent :=
| Json (r : SaveRecord)
| Garbage (text : string).

Inductive Exn :=
| AttributeError (attr : string)
| TypeError (what : string)
| JSONDecodeError.

(** A line on standard output. *)
Inductive Log :=
| Printed (msg : string)
| PrintedExn (msg : string) (e : Exn).

(** The [CarRacingGame] object, with the process state its methods reach:
    the [random] module, the save file and standard output. *)
Record Game := mkGame {
  game_state : GameState;
  difficulty : string;
  ai_speed_factor : option Q;
  coins : Z;
  level : Z;
  total_coins : Z;
  score : Z;
  auto_save_timer : option Q;
  textures : option Z;
  world_seed : Z;
  min_generated_z : Q;
  max_generated_z : Q;
  walls : option (list Entity);
  obstacles : option (list Entity);
  coin_entities : option (list Entity);
  ai_cars : option (list Car);
  player : option Car;
  rng : RNG;
  savegame : option FileContent;
  console : list Log
}.

(** Attribute assignment. *)
Definition with_game_state (v : GameState) (g : Game) : Game :=
  {| game_state := v; difficulty := difficulty g;
     ai_speed_factor := ai_speed_factor g; coins := coins g;
     level := level g; total_coins := total_coins g; score := score g;
     auto_save_timer := auto_save_timer g; textures := textures g;
     world_seed := world_seed g; min_generated_z := min_generated_z g;
     max_generated_z := max_generated_z g; walls := walls g;
     obstacles := obstacles g; coin_entities := coin_entities g;
     ai_cars := ai_cars g; player := player g; rng := rng g;
     savegame := savegame g; console := console g |}.

Definition with_difficulty (v : string) (g : Game) : Game :=
  {| game_state := game_state g; difficulty := v;
     ai_speed_factor := ai_speed_factor g; coins := coins g;
     level := level g; total_coins := total_coins g; score := score g;
     auto_save_timer := auto_save_timer g; textures := textures g;
     world_seed := world_seed g; min_generated_z := min_generated_z g;
     max_generated_z := max_generated_z g; walls := walls g;
     obstacles := obstacles g; coin_entities := coin_entities g;
     ai_cars := ai_cars g; player := player g; rng := rng g;
     savegame := savegame g; console := console g |}.

Definition with_ai_speed_factor (v : option Q) (g : Game) : Game :=
  {| game_state := game_state g; difficulty := difficulty g;
     ai_speed_factor := v; coins := coins g; level := level g;
     total_coins := total_coins g; score := score g;
     auto_save_timer := auto_save_timer g; textures := textures g;
     world_seed := world_seed g; min_generated_z := min_generated_z g;
     max_generated_z := max_generated_z g; walls := walls g;
     obstacles := obstacles g; coin_entities := coin_entities g;
     ai_cars := ai_cars g; player := player g; rng := rng g;
     savegame := savegame g; console := console g |}.

Definition with_coins (v : Z) (g : Game) : Game :=
  {| game_state := game_state g; difficulty := difficulty g;
     ai_speed_factor := ai_speed_factor g; coins := v; level := level g;
     total_coins := total_coins g; score := score g;
     auto_save_timer := auto_save_timer g; textures := textures g;
     world_seed := world_seed g; min_generated_z := min_generated_z g;
     max_generated_z := max_generated_z g; walls := walls g;
     obstacles := obstacles g; coin_entities := coin_entities g;
     ai_cars := ai_cars g; player := player g; rng := rng g;
     savegame := savegame g; console := console g |}.

Definition with_level (v : Z) (g : Game) : Game :=
  {| game_state := game_state g; difficulty := difficulty g;
     ai_speed_factor := ai_speed_factor g; coins := coins g; level := v;
     total_coins := total_coins g; score := score g;
     auto_save_timer := auto_save_timer g; textures := textures g;
     world_seed := world_seed g; min_generated_z := min_generated_z g;
     max_generated_z := max_generated_z g; walls := walls g;
     obstacles := obstacles g; coin_entities := coin_entities g;
     ai_cars := ai_cars g; player := player g; rng := rng g;
     savegame := savegame g; console := console g |}.

Definition with_total_coins (v : Z) (g : Game) : Game :=
  {| game_state := game_state g; difficulty := difficulty g;
     ai_speed_factor := ai_speed_factor g; coins := coins g;
     level := level g; total_coins := v; score := score g;
     auto_save_timer := auto_save_timer g; textures := textures g;
     world_seed := world_seed g; min_generated_z := min_generated_z g;
     max_generated_z := max_generated_z g; walls := walls g;
     obstacles := obstacles g; coin_entities := coin_entities g;
     ai_cars := ai_cars g; player := player g; rng := rng g;
     savegame := savegame g; console := console g |}.

Definition with_score (v : Z) (g : Game) : Game :=
  {| game_state := game_state g; difficulty := difficulty g;
     ai_speed_factor := ai_speed_factor g; coins := coins g;
     level := level g; total_coins := total_coins g; score := v;
     auto_save_timer := auto_save_timer g; textures := textures g;
     world_seed := world_seed g; min_generated_z := min_generated_z g;
     max_generated_z := max_generated_z g; walls := walls g;
     obstacles := obstacles g; coin_entities := coin_entities g;
     ai_cars := ai_cars g; player := player g; rng := rng g;
     savegame := savegame g; console := console g |}.

Definition with_auto_save_timer (v : option Q) (g : Game) : Game :=
  {| game_state := game_state g; difficulty := difficulty g;
     ai_speed_factor := ai_speed_factor g; coins := coins g;
     level := level g; total_coins := total_coins g; score := score g;
     auto_save_timer := v; textures := textures g;
     world_seed := world_seed g; min_generated_z := min_generated_z g;
     max_generated_z := max_generated_z g; walls := walls g;
     obstacles := obstacles g; coin_entities := coin_entities g;
     ai_cars := ai_cars g; player := player g; rng := rng g;
     savegame := savegame g; console := console g |}.

Definition with_textures (v : option Z) (g : Game) : Game :=
  {| game_state := game_state g; difficulty := difficulty g;
     ai_speed_factor := ai_speed_factor g; coins := coins g;
     level := level g; total_coins := total_coins g; score := score g;
     auto_save_timer := auto_save_timer g; textures := v;
     world_seed := world_seed g; min_generated_z := min_generated_z g;
     max_generated_z := max_generated_z g; walls := walls g;
     obstacles := obstacles g; coin_entities := coin_entities g;
     ai_cars := ai_cars g; player := player g; rng := rng g;
     savegame := savegame g; console := console g |}.

Definition with_world_seed (v : Z) (g : Game) : Game :=
  {| game_state := game_state g; difficulty := difficulty g;
     ai_speed_factor := ai_speed_factor g; coins := coins g;
     level := level g; total_coins := total_coins g; score := score g;
     auto_save_timer := auto_save_timer g; textures := textures g;
     world_seed := v; min_generated_z := min_generated_z g;
     max_generated_z := max_generated_z g; walls := walls g;
     obstacles := obstacles g; coin_entities := coin_entities g;
     ai_cars := ai_cars g; player := player g; rng := rng g;
     savegame := savegame g; console := console g |}.

Definition with_min_generated_z (v : Q) (g : Game) : Game :=
  {| game_state := game_state g; difficulty := difficulty g;
     ai_speed_factor := ai_speed_factor g; coins := coins g;
     level := level g; total_coins := total_coins g; score := score g;
     auto_save_timer := auto_save_timer g; textures := textures g;
     world_seed := world_seed g; min_generated_z := v;
     max_generated_z := max_generated_z g; walls := walls g;
     obstacles := obstacles g; coin_entities := coin_entities g;
     ai_cars := ai_cars g; player := player g; rng := rng g;
     savegame := savegame g; console := console g |}.

Definition with_max_generated_z (v : Q) (g : Game) : Game :=
  {| game_state := game_state g; difficulty := difficulty g;
     ai_speed_factor := ai_speed_factor g; coins := coins g;
     level := level g; total_coins := total_coins g; score := score g;
     auto_save_timer := auto_save_timer g; textures := textures g;
     world_seed := world_seed g; min_generated_z := min_generated_z g;
     max_generated_z := v; walls := walls g; obstacles := obstacles g;
     coin_entities := coin_entities g; ai_cars := ai_cars g;
     player := player g; rng := rng g; savegame := savegame g;
     console := console g |}.

Definition with_walls (v : option (list Entity)) (g : Game) : Game :=
  {| game_state := game_state g; difficulty := difficulty g;
     ai_speed_factor := ai_speed_factor g; coins := coins g;
     level := level g; total_coins := total_coins g; score := score g;
     auto_save_timer := auto_save_timer g; textures := textures g;
     world_seed := world_seed g; min_generated_z := min_generated_z g;
     max_generated_z := max_generated_z g; walls := v;
     obstacles := obstacles g; coin_entities := coin_entities g;
     ai_cars := ai_cars g; player := player g; rng := rng g;
     savegame := savegame g; console := console g |}.

Definition with_obstacles (v : option (list Entity)) (g : Game) : Game :=
  {| game_state := game_state g; difficulty := difficulty g;
     ai_speed_factor := ai_speed_factor g; coins := coins g;
     level := level g; total_coins := total_coins g; score := score g;
     auto_save_timer := auto_save_timer g; textures := textures g;
     world_seed := world_seed g; min_generated_z := min_generated_z g;
     max_generated_z := max_generated_z g; walls := walls g; obstacles := v;
     coin_entities := coin_entities g; ai_cars := ai_cars g;
     player := player g; rng := rng g; savegame := savegame g;
     console := console g |}.

Definition with_coin_entities (v : option (list Entity)) (g : Game) : Game :=
  {| game_state := game_state g; difficulty := difficulty g;
     ai_speed_factor := ai_speed_factor g; coins := coins g;
     level := level g; total_coins := total_coins g; score := score g;
     auto_save_timer := auto_save_timer g; textures := textures g;
     world_seed := world_seed g; min_generated_z := min_generated_z g;
     max_generated_z := max_generated_z g; walls := walls g;
     obstacles := obstacles g; coin_entities := v; ai_cars := ai_cars g;
     player := player g; rng := rng g; savegame := savegame g;
     console := console g |}.

Definition with_ai_cars (v : option (list Car)) (g : Game) : Game :=
  {| game_state := game_state g; difficulty := difficulty g;
     ai_speed_factor := ai_speed_factor g; coins := coins g;
     level := level g; total_coins := total_coins g; score := score g;
     auto_save_timer := auto_save_timer g; textures := textures g;
     world_seed := world_seed g; min_generated_z := min_generated_z g;
     max_generated_z := max_generated_z g; walls := walls g;
     obstacles := obstacles g; coin_entities := coin_entities g;
     ai_cars := v; player := player g; rng := rng g; savegame := savegame g;
     console := console g |}.

Definition with_player (v : option Car) (g : Game) : Game :=
  {| game_state := game_state g; difficulty := difficulty g;
     ai_speed_factor := ai_speed_factor g; coins := coins g;
     level := level g; total_coins := total_coins g; score := score g;
     auto_save_timer := auto_save_timer g; textures := textures g;
     world_seed := world_seed g; min_generated_z := min_generated_z g;
     max_generated_z := max_generated_z g; walls := walls g;
     obstacles := obstacles g; coin_entities := coin_entities g;
     ai_cars := ai_cars g; player := v; rng := rng g; savegame := savegame g;
     console := console g |}.

Definition with_rng (v : RNG) (g : Game) : Game :=
  {| game_state := game_state g; difficulty := difficulty g;
     ai_speed_factor := ai_speed_factor g; coins := coins g;
     level := level g; total_coins := total_coins g; score := score g;
     auto_save_timer := auto_save_timer g; textures := textures g;
     world_seed := world_seed g; min_generated_z := min_generated_z g;
     max_generated_z := max_generated_z g; walls := walls g;
     obstacles := obstacles g; coin_entities := coin_entities g;
     ai_cars := ai_cars g; player := player g; rng := v;
     savegame := savegame g; console := console g |}.

Definition with_savegame (v : option FileContent) (g : Game) : Game :=
  {| game_state := game_state g; difficulty := difficulty g;
     ai_speed_factor := ai_speed_factor g; coins := coins g;
     level := level g; total_coins := total_coins g; score := score g;
     auto_save_timer := auto_save_timer g; textures := textures g;
     world_seed := world_seed g; min_generated_z := min_generated_z g;
     max_generated_z := max_generated_z g; walls := walls g;
     obstacles := obstacles g; coin_entities := coin_entities g;
     ai_cars := ai_cars g; player := player g; rng := rng g; savegame := v;
     console := console g |}.

Definition with_console (v : list Log) (g : Game) : Game :=
  {| game_state := game_state g; difficulty := difficulty g;
     ai_speed_factor := ai_speed_factor g; coins := coins g;
     level := level g; total_coins := total_coins g; score := score g;
     auto_save_timer := auto_save_timer g; textures := textures g;
     world_seed := world_seed g; min_generated_z := min_generated_z g;
     max_generated_z := max_generated_z g; walls := walls g;
     obstacles := obstacles g; coin_entities := coin_entities g;
     ai_cars := ai_cars g; player := player g; rng := rng g;
     savegame := savegame g; console := v |}.

(** ** Methods as state transformers that may raise *)

Inductive Res (A : Type) :=
| Ret (a : A) (g : Game)
| Exc (e : Exn) (g : Game).
Arguments Ret {A} a g.
Arguments Exc {A} e g.

Definition M (A : Type) : Type := Game -> Res A.

Definition ret {A} (a : A) : M A := fun g => Ret a g.

Definition bind {A B} (c : M A) (k : A -> M B) : M B :=
  fun g => match c g with
           | Ret a g' => k a g'
           | Exc e g' => Exc e g'
           end.

Definition raise {A} (e : Exn) : M A := fun g => Exc e g.

Definition get : M Game := fun g => Ret g g.

Definition modify (f : Game -> Game) : M unit := fun g => Ret tt (f g).

(** [try: c except Exception as e: h e]. *)
Definition try_except {A} (c : M A) (h : Exn -> M A) : M A :=
  fun g => match c g with
           | Ret a g' => Ret a g'
           | Exc e g' => h e g'
           end.

Declare Scope m_scope.
Delimit Scope m_scope with m.
Notation "x <- c ;; k" := (bind c (fun x => k))
  (at level 100, c at next level, right associativity) : m_scope.
Notation "c ;; k" := (bind c (fun _ => k))
  (at level 100, right associativity) : m_scope.
Open Scope m_scope.

(** The state a call leaves behind, however it ends. *)
Definition final {A} (r : Res A) : Game :=
  match r with Ret _ g => g | Exc _ g => g end.

Definition returned {A} (r : Res A) : bool :=
  match r with Ret _ _ => true | Exc _ _ => false end.

(** [self.attr] for an attribute that may be missing. *)
Definition attr {A} (name : string) (field : Game -> option A) : M A :=
  fun g => match field g with
           | Some a => Ret a g
           | None => Exc (AttributeError name) g
           end.

(** [self.textures[key]]; [self.textures] is [None] until a game starts. *)
Definition texture (key : string) : M Z :=
  fun g => match textures g with
           | Some t => Ret t g
           | None => Exc (TypeError "NoneType is not subscriptable") g
           end.

Definition print (l : Log) : M unit :=
  modify (fun g => with_console (console g ++ [l]) g).

(** [for _ in range(n): body]. *)
Fixpoint repeat_m (n : nat) (body : M unit) : M unit :=
  match n with
  | O => ret tt
  | S n' => body ;; repeat_m n' body
  end.

(** [for x in xs: body x]. *)
Fixpoint for_each {A} (xs : list A) (body : A -> M unit) : M unit :=
  match xs with
  | [] => ret tt
  | x :: xs' => body x ;; for_each xs' body
  end.

Definition Qlt_bool (a b : Q) : bool := negb (Qle_bool b a).

(** Python's [int(x)] on a float: truncation towards zero. *)
Definition py_int (q : Q) : Z := Z.quot (Qnum q) (Zpos (Qden q)).

(** [floor(log2(abs(x)))] for [x <> 0]. *)
Definition ilog2 (x : Q) : Z :=
  let k := (Z.log2 (Z.abs (Qnum x)) - Z.log2 (Zpos (Qden x)))%Z in
  if Qle_bool (2 ^ k) (Qabs x) then k else (k - 1)%Z.

(** The nearest integer, a tie going to the even one. *)
Definition round_even (y : Q) : Z :=
  let f := Qfloor y in
  let r := y - inject_Z f in
  if Qlt_bool r (1#2) then f
  else if Qlt_bool (1#2) r then (f + 1)%Z
  else if Z.even f then f else (f + 1)%Z.

(** The float32 nearest to [x], as the engine stores a coordinate: 24
    significant bits, the exponent not below [-126]; overflow is left
    out. *)
Definition f32 (x : Q) : Q :=
  if Qeq_bool x 0 then 0
  else
    let q := 2 ^ (Z.max (ilog2 x) (-126) - 23) in
    inject_Z (round_even (x / q)) * q.

Definition z_of (e : Entity) : Q := vz (position e).
Definition x_of (e : Entity) : Q := vx (position e).

Definition with_z (z : Q) (v : Vec3) : Vec3 :=
  {| vx := vx v; vy := vy v; vz := z |}.

(** [e.z -= offset]: the difference is stored in single precision. *)
Definition shift_entity (offset : Q) (e : Entity) : Entity :=
  {| position := with_z (f32 (z_of e - offset)) (position e);
     enabled := enabled e |}.

Definition with_car_position (p : Vec3) (c : Car) : Car :=
  {| car_position := p; car_rotation := car_rotation c;
     speed := speed c; max_speed := max_speed c;
     rotation_speed := rotation_speed c; is_player := is_player c;
     car_enabled := car_enabled c |}.

Definition with_speed (s : Q) (c : Car) : Car :=
  {| car_position := car_position c; car_rotation := car_rotation c;
     speed := s; max_speed := max_speed c;
     rotation_speed := rotation_speed c; is_player := is_player c;
     car_enabled := car_enabled c |}.

Definition with_max_speed (s : Q) (c : Car) : Car :=
  {| car_position := car_position c; car_rotation := car_rotation c;
     speed := speed c; max_speed := s;
     rotation_speed := rotation_speed c; is_player := is_player c;
     car_enabled := car_enabled c |}.

Definition car_z (c : Car) : Q := vz (car_position c).

Definition shift_car (offset : Q) (c : Car) : Car :=
  with_car_position (with_z (f32 (car_z c - offset)) (car_position c)) c.

(** [Car(position, is_player)]: the constructor's defaults. *)
Definition new_car (p : Vec3) (is_pl : bool) : Car :=
  {| car_position := p; car_rotation := mkVec3 0 0 0; speed := 0;
     max_speed := 20; rotation_speed := 60; is_player := is_pl;
     car_enabled := true |}.

(** The stream of [random.random()] per seed. *)
Class Random := { mt : Z -> nat -> Q }.

(** The engine's part: [coin.intersects(player).hit],
    [player.intersects(entity).hit], [car.intersects(player).hit],
    [car.forward], and what [destroy] leaves of an entity or a car. *)
Class Engine := {
  coin_intersects : Entity -> Car -> bool;
  intersects : Car -> Entity -> bool;
  car_intersects : Car -> Car -> bool;
  forward : Car -> Vec3;
  destroy : Entity -> Entity;
  destroy_car : Car -> Car
}.

Section Program.

Context {prng : Random} {engine : Engine}.

Definition seed (s : Z) : M unit :=
  modify (with_rng {| rng_seed := s; rng_pos := 0 |}).

Definition random : M Q :=
  fun g => Ret (mt (rng_seed (rng g)) (rng_pos (rng g)))
               (with_rng {| rng_seed := rng_seed (rng g);
                            rng_pos := S (rng_pos (rng g)) |} g).

(** [random.uniform(a, b)] is [a + (b - a) * random()]. *)
Definition uniform (a b : Q) : M Q :=
  r <- random ;; ret (a + (b - a) * r).

(** ** TrackSegmentGenerator *)

Definition wall_left (z : Q) : Entity := mkEntity (mkVec3 15 (1#2) z) true.
Definition wall_right (z : Q) : Entity := mkEntity (mkVec3 (-15) (1#2) z) true.

(** [abs(wall.z - z) < 0.1]. *)
Definition near (z : Q) (wall : Entity) : bool :=
  Qlt_bool (Qabs (z_of wall - z)) (1#10).

Definition append_wall (e : Entity) : M unit :=
  ws <- attr "walls" walls ;; modify (with_walls (Some (ws ++ [e]))).

(** The body of the [while] loop of [generate_track_segment]. *)
Definition place_walls (z : Q) : M unit :=
  ws <- attr "walls" walls ;;
  if existsb (near z) ws then ret tt
  else
    (texture "wall" ;; append_wall (wall_left z) ;;
     texture "wall" ;; append_wall (wall_right z)).

(** [z = start_z; while z <= end_z: ...; z += step], run for at most [n]
    rounds; [wall_rounds] gives a number of rounds after which the loop
    condition fails. *)
Fixpoint wall_loop (n : nat) (z end_z : Q) : M unit :=
  match n with
  | O => ret tt
  | S n' =>
      if Qle_bool z end_z
      then place_walls z ;; wall_loop n' (z + 2) end_z
      else ret tt
  end.

Definition wall_rounds (start_z end_z : Q) : nat :=
  Z.to_nat (Qfloor ((end_z - start_z) / 2) + 1).

Definition num_obstacles (start_z end_z : Q) : Z :=
  Z.max 5 (py_int ((end_z - start_z) / 10)).

Definition num_coins (start_z end_z : Q) : Z :=
  Z.max 10 (py_int ((end_z - start_z) / 5)).

Definition place_obstacle (start_z end_z : Q) : M unit :=
  x <- uniform (-12) 12 ;;
  z <- uniform start_z end_z ;;
  texture "wall" ;;
  os <- attr "obstacles" obstacles ;;
  modify (with_obstacles (Some (os ++ [mkEntity (mkVec3 x 1 z) true]))).

Definition place_coin (start_z end_z : Q) : M unit :=
  x <- uniform (-12) 12 ;;
  z <- uniform start_z end_z ;;
  texture "coin" ;;
  cs <- attr "coin_entities" coin_entities ;;
  modify (with_coin_entities (Some (cs ++ [mkEntity (mkVec3 x 1 z) true]))) ;;
  modify (fun g => with_total_coins (total_coins g + 1)%Z g).

Definition generate_walls (start_z end_z : Q) : M unit :=
  try_except
    (wall_loop (wall_rounds start_z end_z) start_z end_z)
    (fun e => print (PrintedExn "Error generating track segment" e)).

Definition generate_track_segment (start_z end_z : Q) : M unit :=
  generate_walls start_z end_z ;;
  repeat_m (Z.to_nat (num_obstacles start_z end_z))
           (place_obstacle start_z end_z) ;;
  repeat_m (Z.to_nat (num_coins start_z end_z))
           (place_coin start_z end_z).

Definition create_track : M unit :=
  texture "ground" ;;
  modify (with_walls (Some [])) ;;
  modify (with_obstacles (Some [])) ;;
  modify (with_min_generated_z (-50)) ;;
  modify (with_max_generated_z 50) ;;
  g <- get ;;
  generate_track_segment (min_generated_z g) (max_generated_z g).

(** ** Vectors and lists *)

Definition vscale (v : Vec3) (k : Q) : Vec3 :=
  mkVec3 (vx v * k) (vy v * k) (vz v * k).

Definition vsub (a b : Vec3) : Vec3 :=
  mkVec3 (vx a - vx b) (vy a - vy b) (vz a - vz b).

Fixpoint update_nth {A} (i : nat) (f : A -> A) (xs : list A) : list A :=
  match xs, i with
  | [], _ => []
  | x :: xs', O => f x :: xs'
  | x :: xs', S i' => x :: update_nth i' f xs'
  end.

(** ** Progression *)

Definition level_up : M unit :=
  try_except
    (modify (fun g => with_level (level g + 1)%Z g) ;;
     modify (fun g => with_score (score g + 1000 * level g)%Z g) ;;
     modify (with_coins 0%Z) ;;
     cars <- attr "ai_cars" ai_cars ;;
     modify (with_ai_cars
               (Some (map (fun c => with_max_speed (max_speed c * (11#10)) c)
                          cars))))
    (fun e => print (PrintedExn "Fehler beim Level-Aufstieg" e)).

(** [collect_coin(coin)] for the coin at index [i] of [coin_entities]. *)
Definition collect_coin (i : nat) : M unit :=
  cs <- attr "coin_entities" coin_entities ;;
  modify (with_coin_entities (Some (update_nth i destroy cs))) ;;
  modify (fun g => with_coins (coins g + 1)%Z g) ;;
  modify (fun g => with_score (score g + 100 * level g)%Z g) ;;
  g <- get ;;
  if (total_coins g <=? coins g)%Z then level_up else ret tt.

(** ** PersistenceManager *)

Definition player_data (p : Car) : PlayerData :=
  {| pd_position := car_position p; pd_rotation := car_rotation p;
     pd_speed := speed p; pd_max_speed := max_speed p;
     pd_rotation_speed := rotation_speed p |}.

Definition car_data (c : Car) : CarData :=
  {| cd_position := car_position c; cd_rotation := car_rotation c;
     cd_speed := speed c; cd_max_speed := max_speed c |}.

Definition progress_data (g : Game) : ProgressData :=
  {| gs_score := score g; gs_level := level g; gs_coins := coins g;
     gs_total_coins := total_coins g; gs_difficulty := difficulty g |}.

(** [with open("savegame.json", "w") as f: json.dump(save_data, f)].  The
    file is opened for writing and [json.dump] writes the record piece by
    piece: at the first coin position, an engine vector, it raises
    [TypeError], and the file is left with the text written so far, which
    does not parse. *)
Definition write_save (save_data : SaveRecord) : M unit :=
  match sv_coins save_data with
  | [] => modify (with_savegame (Some (Json save_data)))
  | _ :: _ =>
      modify (with_savegame (Some (Garbage "{"))) ;;
      raise (TypeError "Object of type Vec3 is not JSON serializable")
  end.

(** [save_game].  The record is built first, so a missing attribute raises
    before the file is touched. *)
Definition save_game : M unit :=
  g <- get ;;
  p <- attr "player" player ;;
  cs <- attr "coin_entities" coin_entities ;;
  cars <- attr "ai_cars" ai_cars ;;
  let save_data :=
    {| sv_world_seed := world_seed g;
       sv_min_generated_z := min_generated_z g;
       sv_max_generated_z := max_generated_z g;
       sv_player := player_data p;
       sv_coins := map position (filter enabled cs);
       sv_ai_cars := map car_data cars;
       sv_game_state := progress_data g |} in
  write_save save_data ;;
  print (Printed "Spiel gespeichert!").

(** The three [generate_*_texture(self.world_seed)] calls: each reseeds
    [random] with the seed it is given. *)
Definition generate_textures : M unit :=
  g <- get ;;
  seed (world_seed g) ;; seed (world_seed g) ;; seed (world_seed g) ;;
  modify (with_textures (Some (world_seed g))).

(** [generate_car_texture(color, seed)]. *)
Definition generate_car_texture (s : Z) : M unit := seed s.

(** The clearing loops of [load_game], each guarded by [hasattr]. *)
Definition destroy_coins (g : Game) : Game :=
  match coin_entities g with
  | Some cs => with_coin_entities (Some (map destroy cs)) g
  | None => g
  end.

Definition destroy_cars (g : Game) : Game :=
  match ai_cars g with
  | Some cars => with_ai_cars (Some (map destroy_car cars)) g
  | None => g
  end.

Definition destroy_walls (g : Game) : Game :=
  match walls g with
  | Some ws => with_walls (Some (map destroy ws)) g
  | None => g
  end.

Definition destroy_obstacles (g : Game) : Game :=
  match obstacles g with
  | Some os => with_obstacles (Some (map destroy os)) g
  | None => g
  end.

Definition destroy_player (g : Game) : Game :=
  match player g with
  | Some p => with_player (Some (destroy_car p)) g
  | None => g
  end.

Definition destroy_all : M unit :=
  modify destroy_coins ;;
  modify destroy_cars ;;
  modify destroy_walls ;;
  modify destroy_obstacles ;;
  modify destroy_player.

Definition load_coin (coin_pos : Vec3) : M unit :=
  texture "coin" ;;
  cs <- attr "coin_entities" coin_entities ;;
  modify (with_coin_entities (Some (cs ++ [mkEntity coin_pos true]))) ;;
  modify (fun g => with_total_coins (total_coins g + 1)%Z g).

Definition load_ai_car (i : nat) (d : CarData) : M unit :=
  g <- get ;;
  generate_car_texture (world_seed g + Z.of_nat i)%Z ;;
  let car :=
    {| car_position := cd_position d; car_rotation := cd_rotation d;
       speed := cd_speed d; max_speed := cd_max_speed d;
       rotation_speed := 60; is_player := false; car_enabled := true |} in
  cars <- attr "ai_cars" ai_cars ;;
  modify (with_ai_cars (Some (cars ++ [car]))).

Fixpoint load_ai_cars (i : nat) (ds : list CarData) : M unit :=
  match ds with
  | [] => ret tt
  | d :: ds' => load_ai_car i d ;; load_ai_cars (S i) ds'
  end.

Definition load_player (d : PlayerData) : M unit :=
  g <- get ;;
  generate_car_texture (world_seed g) ;;
  modify (with_player
            (Some {| car_position := pd_position d;
                     car_rotation := pd_rotation d;
                     speed := pd_speed d; max_speed := pd_max_speed d;
                     rotation_speed := pd_rotation_speed d;
                     is_player := true; car_enabled := true |})).

(** [load_game] once [savegame.json] has been parsed into [save_data]. *)
Definition load_record (save_data : SaveRecord) : M unit :=
  destroy_all ;;
  modify (with_world_seed (sv_world_seed save_data)) ;;
  seed (sv_world_seed save_data) ;;
  generate_textures ;;
  modify (with_min_generated_z (sv_min_generated_z save_data)) ;;
  modify (with_max_generated_z (sv_max_generated_z save_data)) ;;
  create_track ;;
  modify (with_coin_entities (Some [])) ;;
  modify (with_total_coins 0%Z) ;;
  for_each (sv_coins save_data) load_coin ;;
  modify (with_ai_cars (Some [])) ;;
  load_ai_cars 0 (sv_ai_cars save_data) ;;
  load_player (sv_player save_data) ;;
  let game_state := sv_game_state save_data in
  modify (with_score (gs_score game_state)) ;;
  modify (with_level (gs_level game_state)) ;;
  modify (with_coins (gs_coins game_state)) ;;
  modify (with_difficulty (gs_difficulty game_state)).

Definition load_game : M unit :=
  g <- get ;;
  match savegame g with
  | None => print (Printed "Kein Speicherstand gefunden!")
  | Some (Garbage _) => raise JSONDecodeError
  | Some (Json save_data) => load_record save_data
  end.

(** ** WorldBoundsTracker and RecenteringManager *)

Definition extend_forward : M unit :=
  p <- attr "player" player ;;
  g <- get ;;
  if Qlt_bool (max_generated_z g - 50) (car_z p) then
    let new_min := max_generated_z g in
    modify (with_max_generated_z (max_generated_z g + 50)) ;;
    g' <- get ;;
    generate_track_segment new_min (max_generated_z g')
  else ret tt.

Definition extend_backward : M unit :=
  p <- attr "player" player ;;
  g <- get ;;
  if Qlt_bool (car_z p) (min_generated_z g + 50) then
    let new_max := min_generated_z g in
    modify (with_min_generated_z (min_generated_z g - 50)) ;;
    g' <- get ;;
    generate_track_segment (min_generated_z g') new_max
  else ret tt.

Definition recenter : M unit :=
  p <- attr "player" player ;;
  if Qlt_bool 1000 (Qabs (car_z p)) then
    let offset := car_z p in
    modify (with_player
              (Some (with_car_position (with_z 0 (car_position p)) p))) ;;
    ws <- attr "walls" walls ;;
    modify (with_walls (Some (map (shift_entity offset) ws))) ;;
    os <- attr "obstacles" obstacles ;;
    modify (with_obstacles (Some (map (shift_entity offset) os))) ;;
    cs <- attr "coin_entities" coin_entities ;;
    modify (with_coin_entities (Some (map (shift_entity offset) cs))) ;;
    cars <- attr "ai_cars" ai_cars ;;
    modify (with_ai_cars (Some (map (shift_car offset) cars)))
  else ret tt.

Definition generate_more_terrain : M unit :=
  extend_forward ;; extend_backward ;; recenter.

(** ** The per-frame update *)

Definition check_coin (i : nat) : M unit :=
  cs <- attr "coin_entities" coin_entities ;;
  p <- attr "player" player ;;
  match nth_error cs i with
  | Some coin =>
      if enabled coin && coin_intersects coin p then collect_coin i
      else ret tt
  | None => ret tt
  end.

Definition bounce (dt : Q) (entity : Entity) : M unit :=
  p <- attr "player" player ;;
  if intersects p entity then
    let back := vscale (vscale (vscale (forward p) (speed p)) dt) 2 in
    let p1 := with_car_position (vsub (car_position p) back) p in
    let p2 := with_speed (speed p1 * -(1#2)) p1 in
    modify (with_player (Some p2)) ;;
    modify (fun g => with_score (Z.max 0 (score g - 10)) g)
  else ret tt.

Definition bump (car : Car) : M unit :=
  p <- attr "player" player ;;
  if car_intersects car p then
    modify (with_player (Some (with_speed (speed p * (1#2)) p))) ;;
    modify (fun g => with_score (Z.max 0 (score g - 50)) g)
  else ret tt.

(** Lines 708-733 of [update]: speed display and collisions. *)
Definition collisions (dt : Q) : M unit :=
  attr "player" player ;;
  cs <- attr "coin_entities" coin_entities ;;
  for_each (seq 0 (List.length cs)) check_coin ;;
  ws <- attr "walls" walls ;;
  os <- attr "obstacles" obstacles ;;
  for_each (ws ++ os) (bounce dt) ;;
  cars <- attr "ai_cars" ai_cars ;;
  for_each cars bump.

Definition auto_save (dt : Q) : M unit :=
  g <- get ;;
  match auto_save_timer g with
  | Some t =>
      modify (with_auto_save_timer (Some (t + dt))) ;;
      if Qle_bool 60 (t + dt) then
        save_game ;;
        print (Printed "Spiel automatisch gespeichert!") ;;
        modify (with_auto_save_timer (Some 0))
      else ret tt
  | None => modify (with_auto_save_timer (Some 0))
  end.

(** Lines 735-747 of [update]: terrain streaming and auto-saving. *)
Definition streaming (dt : Q) : M unit :=
  p <- attr "player" player ;;
  if Qlt_bool 150 (Qabs (car_z p)) then
    generate_more_terrain ;; auto_save dt
  else ret tt.

Definition update (dt : Q) : M unit :=
  try_except
    (g <- get ;;
     match game_state g with
     | Playing => collisions dt ;; streaming dt
     | _ => ret tt
     end)
    (fun e => print (PrintedExn "Fehler im Spielupdate" e)).

(** ** Starting a game *)

Definition set_difficulty (d : string) : M unit :=
  modify (with_difficulty d) ;;
  modify (with_ai_speed_factor
            (Some (if String.eqb d "easy" then 7#10
                   else if String.eqb d "medium" then 9#10
                   else 12#10))) ;;
  modify (with_min_generated_z (-50)) ;;
  modify (with_max_generated_z 50) ;;
  modify (with_auto_save_timer (Some 0)).

Definition spawn_ai_car (i : nat) : M unit :=
  x <- uniform (-10) 10 ;;
  z <- uniform (-20) (-40) ;;
  g <- get ;;
  generate_car_texture (world_seed g + Z.of_nat i)%Z ;;
  let car := new_car (mkVec3 x 0 z) false in
  f <- attr "ai_speed_factor" ai_speed_factor ;;
  cars <- attr "ai_cars" ai_cars ;;
  modify (with_ai_cars
            (Some (cars ++ [with_max_speed (max_speed car * f) car]))).

Definition spawn_ai_cars : M unit :=
  for_each (seq 0 4) spawn_ai_car.

(** [start_game(load_save)]; [fresh] is the value [random.randint] gives
    for the seed of a new world. *)
Definition start_game (load_save : bool) (fresh : Z) : M unit :=
  modify (with_game_state Playing) ;;
  modify (with_score 0%Z) ;;
  (if negb load_save then
     modify (with_world_seed fresh) ;;
     seed fresh ;;
     generate_textures ;;
     modify (with_coin_entities (Some [])) ;;
     create_track ;;
     modify (with_ai_cars (Some [])) ;;
     spawn_ai_cars ;;
     generate_car_texture fresh ;;
     modify (with_player (Some (new_car (mkVec3 0 0 0) true)))
   else load_game) ;;
  attr "player" player ;;
  ret tt.

End Program.

(** * More of [main.py]: the leaderboard and the cars *)

(** ** Leaderboard *)

(** An entry of [leaderboard.json]. *)
Record ScoreEntry := mkScoreEntry {
  se_name : string;
  se_level : Z;
  se_coins : Z;
  se_score : Z
}.

(** What [leaderboard.json] holds: a list of entries, or text that
    [json.load] rejects. *)
Inductive BoardFile :=
| BoardJson (entries : list ScoreEntry)
| BoardGarbage (text : string).

(** A [Leaderboard] object and the file it reads and writes. *)
Record Leaderboard := mkLeaderboard {
  scores : list ScoreEntry;
  leaderboard_file : option BoardFile
}.

(** [scores.sort(key=lambda x: x['score'], reverse=True)].  Python's sort is
    stable, also with [reverse=True]: entries come by descending score and
    entries of equal score keep their order.  Insertion from the right gives
    that order: an entry goes before the first one whose score is not
    greater than its own. *)
Fixpoint insert_desc (x : ScoreEntry) (l : list ScoreEntry) : list ScoreEntry :=
  match l with
  | [] => [x]
  | y :: l' =>
      if (se_score x <? se_score y)%Z then y :: insert_desc x l'
      else x :: y :: l'
  end.

Definition sort_desc (l : list ScoreEntry) : list ScoreEntry :=
  fold_right insert_desc [] l.

(** [Leaderboard.load]. *)
Definition leaderboard_load (b : Leaderboard) : Leaderboard :=
  let read :=
    match leaderboard_file b with
    | Some (BoardJson entries) => entries
    | Some (BoardGarbage _) => []
    | None => []
    end in
  {| scores := sort_desc read; leaderboard_file := leaderboard_file b |}.

(** [Leaderboard.save]. *)
Definition leaderboard_save (b : Leaderboard) : Leaderboard :=
  {| scores := scores b; leaderboard_file := Some (BoardJson (scores b)) |}.

(** [Leaderboard.add_score(name, level, coins, score)]. *)
Definition add_score (name : string) (level coins score : Z) (b : Leaderboard)
  : Leaderboard :=
  let appended := scores b ++ [mkScoreEntry name level coins score] in
  leaderboard_save
    {| scores := firstn 10 (sort_desc appended);
       leaderboard_file := leaderboard_file b |}.

(** [Leaderboard()]: an empty list, then [load]. *)
Definition new_leaderboard (file : option BoardFile) : Leaderboard :=
  leaderboard_load {| scores := []; leaderboard_file := file |}.

(** ** Car.update *)

(** The keys of [held_keys] that [Car.update] reads. *)
Record Keys := mkKeys {
  key_w : bool; key_s : bool; key_a : bool; key_d : bool;
  arrow_up : bool; arrow_down : bool; arrow_left : bool; arrow_right : bool
}.

(** The engine's [lerp(a, b, t)]. *)
Definition lerp (a b t : Q) : Q := a + (b - a) * t.

Definition vadd (a b : Vec3) : Vec3 :=
  mkVec3 (vx a + vx b) (vy a + vy b) (vz a + vz b).

Definition rotation_y (c : Car) : Q := vy (car_rotation c).

Definition with_rotation_y (ry : Q) (c : Car) : Car :=
  {| car_position := car_position c;
     car_rotation := mkVec3 (vx (car_rotation c)) ry (vz (car_rotation c));
     speed := speed c; max_speed := max_speed c;
     rotation_speed := rotation_speed c; is_player := is_player c;
     car_enabled := car_enabled c |}.

Section Cars.

Context {prng : Random} {engine : Engine}.

(** The player's branch of [Car.update]. *)
Definition drive (keys : Keys) (dt : Q) (c : Car) : Car :=
  let c1 :=
    if key_w keys || arrow_up keys then
      with_speed (lerp (speed c) (max_speed c) dt) c
    else if key_s keys || arrow_down keys then
      with_speed (lerp (speed c) (- max_speed c / 2) dt) c
    else with_speed (lerp (speed c) 0 (dt * 3)) c in
  let c2 :=
    if key_a keys || arrow_left keys then
      with_rotation_y (rotation_y c1 - rotation_speed c1 * dt) c1
    else c1 in
  let c3 :=
    if key_d keys || arrow_right keys then
      with_rotation_y (rotation_y c2 + rotation_speed c2 * dt) c2
    else c2 in
  with_car_position
    (vadd (car_position c3) (vscale (vscale (forward c3) (speed c3)) dt)) c3.

(** The opponents' branch of [Car.update]. *)
Definition drift (dt : Q) (c : Car) : M Car :=
  if Qlt_bool (car_z c) 20 then
    let c1 :=
      with_car_position
        (vadd (car_position c)
              (vscale (vscale (vscale (forward c) (max_speed c)) (8#10)) dt))
        c in
    r <- random ;;
    if Qlt_bool r (1#10) then
      turn <- uniform (-10) 10 ;;
      ret (with_rotation_y (rotation_y c1 + turn) c1)
    else ret c1
  else ret (with_car_position (with_z (-20) (car_position c)) c).

(** [Car.update(self)]. *)
Definition car_update (keys : Keys) (dt : Q) (c : Car) : M Car :=
  if is_player c then ret (drive keys dt c) else drift dt c.

(** ** Pausing *)

(** [toggle_pause], without the menu it shows. *)
Definition toggle_pause : M unit :=
  modify (fun g => with_game_state
                     (match game_state g with
                      | Playing => Paused
                      | _ => Playing
                      end) g).

End Cars.

(** * Notions the properties are stated with *)

Section Notions.

Context {prng : Random} {engine : Engine}.

(** [steps R c]: the state that [c] leaves behind, whether it returns or
    raises, is [R]-related to the state it started from.  For a preorder
    [R] this is closed under sequencing, exception handling and loops. *)
Definition steps (R : Game -> Game -> Prop) {A} (c : M A) : Prop :=
  forall g, R g (final (c g)).

(** [keeps f] relates two states that agree on [f]. *)
Definition keeps {V} (f : Game -> V) : Game -> Game -> Prop :=
  fun g g' => f g' = f g.

(** [R] relates every state to the one an assignment gives. *)
Definition ignores (R : Game -> Game -> Prop) {V} (set : V -> Game -> Game)
  : Prop :=
  forall v g, R g (set v g).

(** The state of [random] after [k] more draws. *)
Definition skip (k : nat) (r : RNG) : RNG :=
  {| rng_seed := rng_seed r; rng_pos := k + rng_pos r |}.

(** The entity that [place_obstacle] and [place_coin] create from the next
    two draws. *)
Definition scattered (r : RNG) (start_z end_z : Q) : Entity :=
  mkEntity
    (mkVec3 (-12 + (12 - -12) * mt (rng_seed r) (rng_pos r)) 1
            (start_z + (end_z - start_z) * mt (rng_seed r) (S (rng_pos r))))
    true.

Fixpoint scatter (n : nat) (r : RNG) (start_z end_z : Q) : list Entity :=
  match n with
  | O => []
  | S n' => scattered r start_z end_z :: scatter n' (skip 2 r) start_z end_z
  end.

(** The walls list after the [while] loop, as a function of the list
    before it. *)
Fixpoint walls_after (n : nat) (z end_z : Q) (ws : list Entity) : list Entity :=
  match n with
  | O => ws
  | S n' =>
      if Qle_bool z end_z then
        walls_after n' (z + 2) end_z
          (if existsb (near z) ws then ws
           else ws ++ [wall_left z; wall_right z])
      else ws
  end.

(** The state [generate_track_segment] returns when the game has its
    textures and its three collections. *)
Definition segment_added (start_z end_z : Q) (g : Game) : Game :=
  let n := Z.to_nat (num_obstacles start_z end_z) in
  let m := Z.to_nat (num_coins start_z end_z) in
  let add {A} (o : option (list A)) (new : list A) :=
    Some (match o with Some l => l | None => [] end ++ new) in
  with_total_coins (total_coins g + Z.of_nat m)
    (with_coin_entities
       (add (coin_entities g) (scatter m (skip (2 * n) (rng g)) start_z end_z))
       (with_obstacles
          (add (obstacles g) (scatter n (rng g) start_z end_z))
          (with_rng (skip (2 * m + 2 * n) (rng g))
             (with_walls
                (Some (walls_after (wall_rounds start_z end_z) start_z end_z
                         (match walls g with Some l => l | None => [] end)))
                g)))).

(** [random.random()] returns values of [[0, 1)]. *)
Definition unit_stream : Prop := forall s k, 0 <= mt s k /\ mt s k < 1.

(** Where the generator scatters obstacles and coins for an interval. *)
Definition in_box (start_z end_z : Q) (e : Entity) : Prop :=
  (-12 <= x_of e /\ x_of e <= 12) /\ (start_z <= z_of e /\ z_of e <= end_z).

(** The wall pairs at [z = 0, 2, ..., 2 * (n - 1)]. *)
Definition wall_pairs (n : nat) : list Entity :=
  flat_map (fun k => [wall_left (inject_Z (2 * Z.of_nat k));
                      wall_right (inject_Z (2 * Z.of_nat k))])
           (seq 0 n).

(** The side of a wall. *)
Definition is_left (w : Entity) : bool := Qeq_bool (x_of w) 15.
Definition is_right (w : Entity) : bool := Qeq_bool (x_of w) (-15).

Definition same_side (a b : Entity) : Prop := x_of a == x_of b.

(** [abs(a.z - b.z) < 0.1] fails. *)
Definition apart (a b : Entity) : Prop := 1#10 <= Qabs (z_of a - z_of b).

(** No two walls of the list are on the same side and closer than 0.1. *)
Definition separated (ws : list Entity) : Prop :=
  ForallOrdPairs (fun a b => same_side a b -> apart a b) ws.

(** Every wall has a left and a right wall at its own [z]. *)
Definition paired (ws : list Entity) : Prop :=
  forall w, In w ws ->
    (exists l, In l ws /\ is_left l = true /\ z_of l = z_of w) /\
    (exists r, In r ws /\ is_right r = true /\ z_of r = z_of w).

(** The scan of the whole list that [generate_track_segment] makes finds a
    wall near [z] exactly when a scan of the left walls alone does, and
    exactly when a scan of the right walls alone does. *)
Definition scans_agree (ws : list Entity) : Prop :=
  forall z,
    existsb (near z) ws = existsb (near z) (filter is_left ws) /\
    existsb (near z) ws = existsb (near z) (filter is_right ws).

(** A sequence of [generate_track_segment] calls; a call that raises leaves
    the state it had reached. *)
Fixpoint run_segments (calls : list (Q * Q)) (g : Game) : Game :=
  match calls with
  | [] => g
  | (start_z, end_z) :: rest =>
      run_segments rest (final (generate_track_segment start_z end_z g))
  end.

(** What the wall list of a game looks like under the generator. *)
Definition walls_ok (g : Game) : Prop :=
  exists ws, walls g = Some ws /\ separated ws /\ paired ws.

(** A step that keeps the wall list that way. *)
Definition keeps_walls_ok (g g' : Game) : Prop := walls_ok g -> walls_ok g'.

(** The engine moves the player's car between two frames; [drive_to z]
    puts it at [z]. *)
Definition drive_to (z : Q) (g : Game) : Game :=
  match player g with
  | Some p =>
      with_player (Some (with_car_position (with_z z (car_position p)) p)) g
  | None => g
  end.

(** [self.player.z], when there is a player. *)
Definition player_z (g : Game) : option Q := option_map car_z (player g).

(** [max_generated_z] has not decreased and [min_generated_z] has not
    increased. *)
Definition bounds_grow (g g' : Game) : Prop :=
  max_generated_z g <= max_generated_z g' /\
  min_generated_z g' <= min_generated_z g.

(** The value of [self.player.z] that the test [abs(self.player.z) > 150]
    of [update] reads, when the frame gets that far: the game is being
    played and the collision handling before the test has returned. *)
Definition gate_z (dt : Q) (g : Game) : option Q :=
  match game_state g with
  | Playing =>
      match collisions dt g with
      | Ret _ g1 => player_z g1
      | Exc _ _ => None
      end
  | _ => None
  end.

(** The size of a collection, and a size [k] larger. *)
Definition count {A} (o : option (list A)) : option nat :=
  option_map (@List.length A) o.


(** Nothing of terrain streaming, recentering or auto-saving has happened
    between the two states: the bounds, the walls and the obstacles, the
    number of coins, the [z] of every opponent, [total_coins], the timer and
    the save file are the same. *)
Definition streaming_idle (g g' : Game) : Prop :=
  min_generated_z g' = min_generated_z g /\
  max_generated_z g' = max_generated_z g /\
  walls g' = walls g /\
  obstacles g' = obstacles g /\
  count (coin_entities g') = count (coin_entities g) /\
  option_map (map car_z) (ai_cars g') = option_map (map car_z) (ai_cars g) /\
  total_coins g' = total_coins g /\
  auto_save_timer g' = auto_save_timer g /\
  savegame g' = savegame g.

(** The game has its textures and the collections the generator fills. *)
Definition ready (g : Game) : Prop :=
  textures g <> None /\ walls g <> None /\
  obstacles g <> None /\ coin_entities g <> None.

(** What [extend_forward] and [extend_backward] return for a player at
    [z]. *)
Definition forward_result (z : Q) (g : Game) : Game :=
  if Qlt_bool (max_generated_z g - 50) z then
    segment_added (max_generated_z g) (max_generated_z g + 50)
      (with_max_generated_z (max_generated_z g + 50) g)
  else g.

Definition backward_result (z : Q) (g : Game) : Game :=
  if Qlt_bool z (min_generated_z g + 50) then
    segment_added (min_generated_z g - 50) (min_generated_z g)
      (with_min_generated_z (min_generated_z g - 50) g)
  else g.

(** The bounds and the sizes of the collections are as they were. *)
Definition settled (g g' : Game) : Prop :=
  max_generated_z g' = max_generated_z g /\
  min_generated_z g' = min_generated_z g /\
  count (walls g') = count (walls g) /\
  count (obstacles g') = count (obstacles g) /\
  count (coin_entities g') = count (coin_entities g) /\
  total_coins g' = total_coins g.

(** Euclidean distance between two positions. *)
Definition dist (a b : Vec3) : R :=
  sqrt (Q2R ((vx a - vx b) * (vx a - vx b) +
             (vy a - vy b) * (vy a - vy b) +
             (vz a - vz b) * (vz a - vz b))).

(** The tolerance [1e-6]. *)
Definition tolerance : R := (1 / 1000000)%R.

(** What [recenter] returns when it shifts by [offset]. *)
Definition recentered (offset : Q) (g : Game) : Game :=
  with_ai_cars (option_map (map (shift_car offset)) (ai_cars g))
    (with_coin_entities
       (option_map (map (shift_entity offset)) (coin_entities g))
       (with_obstacles (option_map (map (shift_entity offset)) (obstacles g))
          (with_walls (option_map (map (shift_entity offset)) (walls g))
             (with_player
                (option_map
                   (fun p => with_car_position (with_z 0 (car_position p)) p)
                   (player g))
                g)))).

(** The player [recenter] leaves: at [z = 0], [x] and [y] as they were. *)
Definition recentered_player (p : Car) : Car :=
  with_car_position (mkVec3 (vx (car_position p)) (vy (car_position p)) 0) p.

(** The distance from a position to the player is the same, within the
    tolerance, before and after the shift. *)
Definition distance_kept (p p' : Car) (before after : Vec3) : Prop :=
  (Rabs (dist after (car_position p') - dist before (car_position p))
   <= tolerance)%R.

(** The same with a bound [eps] of its own. *)
Definition distance_within (eps : Q) (p p' : Car) (before after : Vec3)
  : Prop :=
  (Rabs (dist after (car_position p') - dist before (car_position p))
   <= Q2R eps)%R.

(** Half the spacing of the float32 values around [d]: [abs(d) / 2^24], and
    [2^-150] among the smallest. *)
Definition half_ulp (d : Q) : Q := Qabs d * (1 # 16777216) + 2 ^ (-150).

(** The opponents of a game, none when the list is missing. *)
Definition opponents (g : Game) : list Car :=
  match ai_cars g with Some cars => cars | None => [] end.

(** The state of [random] after [random.seed(s)]. *)
Definition seeded (s : Z) : RNG := {| rng_seed := s; rng_pos := 0 |}.

(** The entities [load_game] builds from a record. *)
Definition coin_at (v : Vec3) : Entity := mkEntity v true.

Definition car_of_data (d : CarData) : Car :=
  {| car_position := cd_position d; car_rotation := cd_rotation d;
     speed := cd_speed d; max_speed := cd_max_speed d;
     rotation_speed := 60; is_player := false; car_enabled := true |}.

Definition player_of_data (d : PlayerData) : Car :=
  {| car_position := pd_position d; car_rotation := pd_rotation d;
     speed := pd_speed d; max_speed := pd_max_speed d;
     rotation_speed := pd_rotation_speed d;
     is_player := true; car_enabled := true |}.

(** The record [save_game] writes for a game with a player [p], coins [cs]
    and opponents [cars]. *)
Definition record_of (g : Game) (p : Car) (cs : list Entity) (cars : list Car)
  : SaveRecord :=
  {| sv_world_seed := world_seed g;
     sv_min_generated_z := min_generated_z g;
     sv_max_generated_z := max_generated_z g;
     sv_player := player_data p;
     sv_coins := map position (filter enabled cs);
     sv_ai_cars := map car_data cars;
     sv_game_state := progress_data g |}.

(** What [create_track] returns. *)
Definition track_created (g : Game) : Game :=
  segment_added (-50) 50
    (with_max_generated_z 50
       (with_min_generated_z (-50)
          (with_obstacles (Some []) (with_walls (Some []) g)))).

(** The state of [random] after the textures of the opponents
    [i, i + 1, ...] have been generated. *)
Fixpoint ai_rng (seed0 : Z) (i : nat) (ds : list CarData) (r : RNG) : RNG :=
  match ds with
  | [] => r
  | _ :: ds' => ai_rng seed0 (S i) ds' (seeded (seed0 + Z.of_nat i))
  end.

(** What [destroy_all] returns. *)
Definition destroyed (g : Game) : Game :=
  destroy_player
    (destroy_obstacles (destroy_walls (destroy_cars (destroy_coins g)))).

(** What [load_game] returns when the save file holds the record [r]. *)
Definition loaded (r : SaveRecord) (g : Game) : Game :=
  let s := sv_world_seed r in
  let g1 :=
    with_max_generated_z (sv_max_generated_z r)
      (with_min_generated_z (sv_min_generated_z r)
         (with_textures (Some s)
            (with_rng (seeded s) (with_world_seed s (destroyed g))))) in
  let g2 := track_created g1 in
  let g3 :=
    with_total_coins (Z.of_nat (List.length (sv_coins r)))
      (with_coin_entities (Some (map coin_at (sv_coins r))) g2) in
  let g4 :=
    with_player (Some (player_of_data (sv_player r)))
      (with_rng (seeded s)
         (with_ai_cars (Some (map car_of_data (sv_ai_cars r))) g3)) in
  with_difficulty (gs_difficulty (sv_game_state r))
    (with_coins (gs_coins (sv_game_state r))
       (with_level (gs_level (sv_game_state r))
          (with_score (gs_score (sv_game_state r)) g4))).

(** The record in the save file, when it holds one. *)
Definition saved_record (g : Game) : option SaveRecord :=
  match savegame g with
  | Some (Json r) => Some r
  | _ => None
  end.

(** Some wall of the list lies beyond [z]. *)
Definition beyond (z : Q) (ws : option (list Entity)) : bool :=
  match ws with
  | Some l => existsb (fun w => Qlt_bool z (z_of w)) l
  | None => false
  end.

End Notions.

(** * Notions of the further properties *)

Section MoreNotions.

Context {prng : Random} {engine : Engine}.

(** [total_coins] has not decreased. *)
Definition coins_grow (g g' : Game) : Prop :=
  (total_coins g <= total_coins g')%Z.

(** The counters of a game in play: no negative score or coin count, a
    level of at least 1. *)
Definition progress_ok (g : Game) : Prop :=
  (0 <= score g)%Z /\ (1 <= level g)%Z /\ (0 <= coins g)%Z.

Definition keeps_progress_ok (g g' : Game) : Prop :=
  progress_ok g -> progress_ok g'.

(** A wall of the interval, on one of the two sides of the track. *)
Definition wall_within (start_z end_z : Q) (w : Entity) : Prop :=
  (x_of w = 15 \/ x_of w = -15) /\ start_z <= z_of w /\ z_of w <= end_z.


(** The opponent that [spawn_ai_car] creates from the next two draws, for
    the speed factor [f]. *)
Definition spawned (r : RNG) (f : Q) : Car :=
  with_max_speed (20 * f)
    (new_car (mkVec3 (-10 + (10 - -10) * mt (rng_seed r) (rng_pos r)) 0
                     (-20 + (-40 - -20) * mt (rng_seed r) (S (rng_pos r))))
             false).

(** Position, rotation, speed and top speed of two cars agree. *)
Definition same_kinematics (c c' : Car) : Prop :=
  car_position c' = car_position c /\ car_rotation c' = car_rotation c /\
  speed c' = speed c /\ max_speed c' = max_speed c.

(** The line [update] prints for an exception. *)
Definition update_error (e : Exn) (g : Game) : Game :=
  with_console (console g ++ [PrintedExn "Fehler im Spielupdate" e]) g.

(** The game when [start_game(False)] has created the track. *)
Definition track_of_new_game (fresh : Z) (g : Game) : Game :=
  track_created
    (with_coin_entities (Some [])
       (with_textures (Some fresh)
          (with_rng (seeded fresh)
             (with_world_seed fresh
                (with_score 0%Z (with_game_state Playing g)))))).

(** The four opponents of a new game: the first from the draws that follow
    the track's, the others from the seeds of the textures before them. *)
Definition opponents_of_new_game (fresh : Z) (f : Q) (g : Game) : list Car :=
  [spawned (rng (track_of_new_game fresh g)) f;
   spawned (seeded (fresh + 0)) f;
   spawned (seeded (fresh + 1)) f;
   spawned (seeded (fresh + 2)) f].

(** What [start_game(False)] returns for the speed factor [f]. *)
Definition new_world (fresh : Z) (f : Q) (g : Game) : Game :=
  with_player (Some (new_car (mkVec3 0 0 0) true))
    (with_rng (seeded fresh)
       (with_ai_cars (Some (opponents_of_new_game fresh f g))
          (track_of_new_game fresh g))).

(** Where [spawn_ai_car] puts an opponent. *)
Definition on_grid (c : Car) : Prop :=
  (-10 <= vx (car_position c) /\ vx (car_position c) <= 10) /\
  (-40 <= car_z c /\ car_z c <= -20).

(** The state in which [generate_track_segment] raises when the coin list
    is missing: walls and obstacles are placed, and the first coin has
    taken its two draws. *)
Definition segment_without_coins (start_z end_z : Q) (g : Game) : Game :=
  let n := Z.to_nat (num_obstacles start_z end_z) in
  with_rng (skip (2 + 2 * n) (rng g))
    (with_obstacles
       (Some ((match obstacles g with Some l => l | None => [] end) ++
              scatter n (rng g) start_z end_z))
       (with_walls
          (Some (walls_after (wall_rounds start_z end_z) start_z end_z
                   (match walls g with Some l => l | None => [] end)))
          g)).

(** The state in which [load_game] raises for the record [r] when the game
    has no coin list. *)
Definition load_stopped (r : SaveRecord) (g : Game) : Game :=
  let s := sv_world_seed r in
  segment_without_coins (-50) 50
    (with_max_generated_z 50
       (with_min_generated_z (-50)
          (with_obstacles (Some [])
             (with_walls (Some [])
                (with_max_generated_z (sv_max_generated_z r)
                   (with_min_generated_z (sv_min_generated_z r)
                      (with_textures (Some s)
                         (with_rng (seeded s)
                            (with_world_seed s (destroyed g)))))))))).

(** [a] may stand before [b] on the leaderboard. *)
Definition outranks (a b : ScoreEntry) : Prop := (se_score b <= se_score a)%Z.

(** The list is in descending order of score. *)
Definition ranked (l : list ScoreEntry) : Prop := StronglySorted outranks l.

(** The entries with at least, and with less than, the score [s]. *)
Definition at_least (s : Z) (l : list ScoreEntry) : list ScoreEntry :=
  filter (fun y => (s <=? se_score y)%Z) l.

Definition below (s : Z) (l : list ScoreEntry) : list ScoreEntry :=
  filter (fun y => (se_score y <? s)%Z) l.

(** The speed of the player's car is between full reverse and full
    speed. *)
Definition in_gear (c : Car) : Prop :=
  - max_speed c / 2 <= speed c /\ speed c <= max_speed c.

(** The coins of a game, none when the list is missing. *)
Definition coins_of (g : Game) : list Entity :=
  match coin_entities g with Some l => l | None => [] end.

(** The opponents [level_up] leaves. *)
Definition faster (cars : list Car) : list Car :=
  map (fun c => with_max_speed (max_speed c * (11#10)) c) cars.

End MoreNotions.

(** * Concrete collaborators and worlds *)

(** A small congruential stream with values in [[0, 1)]. *)
Definition lcg (s : Z) (k : nat) : Q :=
  ((s * 1103515245 + 12345 + Z.of_nat k * 7919) mod 1024)%Z # 1024.

#[global] Instance lcg_random : Random := {| mt := lcg |}.

(** An engine in which nothing touches the player; [destroy] leaves the
    position and the flag of what it destroys. *)
#[global] Instance open_road : Engine :=
  {| coin_intersects := fun _ _ => false;
     intersects := fun _ _ => false;
     car_intersects := fun _ _ => false;
     forward := fun _ => mkVec3 0 0 1;
     destroy := fun e => e;
     destroy_car := fun c => c |}.

(** The object [CarRacingGame.__init__] builds, in a process whose save
    file is [disk].  The constructor does not assign [world_seed] or the
    bounds; no method reads them before [set_difficulty], [start_game] or
    [load_game] has assigned them. *)
Definition init (disk : option FileContent) : Game :=
  {| game_state := Title; difficulty := "medium"; ai_speed_factor := None;
     coins := 0; level := 1; total_coins := 0; score := 0;
     auto_save_timer := Some 0; textures := None; world_seed := 0;
     min_generated_z := 0; max_generated_z := 0;
     walls := None; obstacles := None; coin_entities := None;
     ai_cars := None; player := None;
     rng := {| rng_seed := 0; rng_pos := 0 |};
     savegame := disk; console := [] |}.

(** A new game on medium difficulty with world seed 42. *)
Definition new_game : Game :=
  final ((set_difficulty "medium" ;; start_game false 42) (init None)).

(** The starting point of [create_track] in a new game: textures made, the
    three collections empty. *)
Definition empty_track : Game :=
  final ((set_difficulty "medium" ;;
          modify (with_world_seed 42%Z) ;; seed 42 ;; generate_textures ;;
          modify (with_coin_entities (Some [])) ;;
          modify (with_walls (Some [])) ;;
          modify (with_obstacles (Some []))) (init None)).

(** A game whose [walls] attribute is missing. *)
Definition no_walls : Game := with_walls None empty_track.

(** A game whose [textures] are still [None], as [__init__] leaves them. *)
Definition no_textures : Game := with_textures None empty_track.

(** A world with the bounds that streaming up to [z = 1000] leaves,
    [-50] and [1050], and the player just past [z = 1000]. *)
Definition at_1001 : Game :=
  drive_to 1001 (with_max_generated_z 1050 new_game).

(** A new world in which the player has driven to [z = 100]. *)
Definition at_100 : Game := drive_to 100 new_game.

(** A new world in which the player has driven to [z = 151]. *)
Definition at_151 : Game := drive_to 151 new_game.

(** A new world in which the player has driven just past [z = 1000], to
    the float32 next to it, [1000 + 2^-14]. *)
Definition past_1000 : Game := drive_to (16384001 # 16384) new_game.

(** The player's car in that world. *)
Definition car_past_1000 : Car :=
  with_car_position (mkVec3 0 0 (16384001 # 16384))
                    (new_car (mkVec3 0 0 0) true).

(** The world of the scenario: the player at [z = 1050], the bounds at
    [-50] and [1100]. *)
Definition at_1050 : Game :=
  drive_to 1050 (with_max_generated_z 1100 new_game).

(** The player's car in that world. *)
Definition car_at_1050 : Car :=
  with_car_position (mkVec3 0 0 1050) (new_car (mkVec3 0 0 0) true).

(** A record with two coins left of twenty. *)
Definition two_coins_left : SaveRecord :=
  {| sv_world_seed := 42;
     sv_min_generated_z := -50;
     sv_max_generated_z := 100;
     sv_player := player_data (new_car (mkVec3 0 0 60) true);
     sv_coins := [mkVec3 3 1 70; mkVec3 (-4) 1 (-20)];
     sv_ai_cars := [];
     sv_game_state :=
       {| gs_score := 1800; gs_level := 1; gs_coins := 18;
          gs_total_coins := 20; gs_difficulty := "medium" |} |}.

(** A game in play next to a save file holding that record. *)
Definition with_two_coins_saved : Game :=
  with_savegame (Some (Json two_coins_left)) new_game.

(** A world streamed one segment ahead: the frame at [z = 151] has moved
    [max_generated_z] from 50 to 100. *)
Definition streamed : Game := final (update (1#60) at_151).

(** The streamed world a frame later: [max_generated_z] is 150, and the
    last walls stand at [z = 150]. *)
Definition streamed_twice : Game := final (update (1#60) streamed).

(** An engine in which the player's car touches the walls and obstacles
    within one unit of it in [x] and in [z], and nothing else touches. *)
Definition tight : Engine :=
  {| coin_intersects := fun _ _ => false;
     intersects := fun p e =>
       Qle_bool (Qabs (vx (car_position p) - x_of e)) 1 &&
       Qle_bool (Qabs (car_z p - z_of e)) 1;
     car_intersects := fun _ _ => false;
     forward := fun _ => mkVec3 0 0 1;
     destroy := fun e => e;
     destroy_car := fun c => c |}.

(** In that world the player reverses along the left wall at [z = 150]. *)
Definition grazing : Game :=
  with_player
    (Some (with_speed (-10)
             (with_car_position (mkVec3 14 0 150)
                                (new_car (mkVec3 0 0 0) true))))
    streamed_twice.

(** A paused game next to a save file that is not JSON. *)
Definition paused_corrupt : Game :=
  with_savegame (Some (Garbage "{")) (with_game_state Paused new_game).

(** ** More worlds *)

(** The title screen after "Mittel" has been clicked. *)
Definition medium_chosen : Game := final (set_difficulty "medium" (init None)).

(** A new world from which the coins have been taken away. *)
Definition coins_gone : Game := with_coin_entities (Some []) new_game.

(** The world at [z = 151] a frame before the auto-save is due, and the
    player's car in it. *)
Definition minute_up : Game :=
  with_auto_save_timer (Some (3599#60)) at_151.

Definition car_at_151 : Car :=
  with_car_position (mkVec3 0 0 151) (new_car (mkVec3 0 0 0) true).

(** A new world in which one coin is left to collect. *)
Definition last_coin_left : Game := with_coins 19 new_game.

(** A new process next to a good save file. *)
Definition saved_on_disk : Game := init (Some (Json two_coins_left)).

(** A board with two entries, and a board with ten entries of 500 points. *)
Definition podium : Leaderboard :=
  {| scores := [mkScoreEntry "Ann" 3 4 300; mkScoreEntry "Bob" 2 1 200];
     leaderboard_file := None |}.

Definition full_board : Leaderboard :=
  {| scores := repeat (mkScoreEntry "Player" 1 5 500) 10;
     leaderboard_file := None |}.

(** Only [w] is held. *)
Definition full_throttle : Keys :=
  mkKeys true false false false false false false false.

(** An opponent past the line [z = 20]. *)
Definition opponent_past_line : Car := new_car (mkVec3 3 0 25) false.

(** * Properties *)

(** ** Relations that every step of a method respects *)

Section Steps.

Context (R : Game -> Game -> Prop) {R_pre : PreOrder R}.

Lemma steps_ret {A} (a : A) : steps R (ret a).
Proof. intro g. reflexivity. Qed.

Lemma steps_raise {A} (e : Exn) : steps R (@raise A e).
Proof. intro g. reflexivity. Qed.

Lemma steps_get : steps R get.
Proof. intro g. reflexivity. Qed.

Lemma steps_attr {A} name (field : Game -> option A) : steps R (attr name field).
Proof. intro g. unfold attr. destruct (field g); reflexivity. Qed.

Lemma steps_texture key : steps R (texture key).
Proof. intro g. unfold texture. destruct (textures g); reflexivity. Qed.

Lemma steps_modify f : (forall g, R g (f g)) -> steps R (modify f).
Proof. intros H g. apply H. Qed.

Lemma steps_bind {A B} (c : M A) (k : A -> M B) :
  steps R c -> (forall a, steps R (k a)) -> steps R (bind c k).
Proof.
  intros Hc Hk g. unfold bind. specialize (Hc g).
  destruct (c g) as [a g'|e g']; simpl in *; auto.
  etransitivity; [exact Hc | apply Hk].
Qed.

Lemma steps_try {A} (c : M A) (h : Exn -> M A) :
  steps R c -> (forall e, steps R (h e)) -> steps R (try_except c h).
Proof.
  intros Hc Hh g. unfold try_except. specialize (Hc g).
  destruct (c g) as [a g'|e g']; simpl in *; auto.
  etransitivity; [exact Hc | apply Hh].
Qed.

Lemma steps_if {A} (b : bool) (c1 c2 : M A) :
  steps R c1 -> steps R c2 -> steps R (if b then c1 else c2).
Proof. destruct b; auto. Qed.

Lemma steps_repeat n (body : M unit) : steps R body -> steps R (repeat_m n body).
Proof.
  intro H. induction n; simpl; [apply steps_ret | apply steps_bind; auto].
Qed.

Lemma steps_for_each {A} (xs : list A) (body : A -> M unit) :
  (forall x, steps R (body x)) -> steps R (for_each xs body).
Proof.
  intro H. induction xs; simpl; [apply steps_ret | apply steps_bind; auto].
Qed.

Lemma steps_bind_attr {A B} name (field : Game -> option A) (k : A -> M B) :
  (forall g a, field g = Some a -> R g (final (k a g))) ->
  steps R (bind (attr name field) k).
Proof.
  intros H g. unfold bind, attr. destruct (field g) eqn:E; simpl.
  - apply H, E.
  - reflexivity.
Qed.

Lemma steps_bind_get {B} (k : Game -> M B) :
  (forall g, R g (final (k g g))) -> steps R (bind get k).
Proof. intros H g. apply H. Qed.

Lemma modify_then {B} f (k : unit -> M B) g :
  R g (f g) -> steps R (k tt) -> R g (final (bind (modify f) k g)).
Proof.
  intros H Hk. unfold bind, modify. etransitivity; [exact H | apply Hk].
Qed.

Lemma steps_print l :
  (forall g ls, R g (with_console ls g)) -> steps R (print l).
Proof. intro H. apply steps_modify. intro g. apply H. Qed.

End Steps.

#[global] Instance keeps_pre {V} (f : Game -> V) : PreOrder (keeps f).
Proof.
  split.
  - intro g. reflexivity.
  - intros a b c H1 H2. unfold keeps in *. congruence.
Qed.

Section Frames.

Context {prng : Random} {engine : Engine}.

Context (R : Game -> Game -> Prop) {R_pre : PreOrder R}.

Ltac step :=
  cbv zeta;
  lazymatch goal with
  | |- steps ?R (ret _) => apply (steps_ret R)
  | |- steps ?R get => apply (steps_get R)
  | |- steps ?R (attr _ _) => apply (steps_attr R)
  | |- steps ?R (texture _) => apply (steps_texture R)
  | |- steps ?R (raise _) => apply (steps_raise R)
  | |- steps ?R (bind _ _) => apply (steps_bind R); [ | intro]
  | |- steps ?R (try_except _ _) => apply (steps_try R); [ | intro]
  | |- steps ?R (if _ then _ else _) => apply (steps_if R)
  | |- steps ?R (repeat_m _ _) => apply (steps_repeat R)
  | |- steps ?R (for_each _ _) => apply (steps_for_each R); intro
  | |- steps ?R (modify _) => apply (steps_modify R); intro
  | |- steps ?R (match ?x with _ => _ end) => destruct x
  end.

Ltac frame := unfold ignores in *; repeat step; auto; try reflexivity.

Lemma steps_seed s : ignores R with_rng -> steps R (seed s).
Proof. intro H. unfold seed. step. apply H. Qed.

Lemma steps_random : ignores R with_rng -> steps R random.
Proof. intros H g. unfold random. simpl. apply H. Qed.

Lemma steps_uniform a b : ignores R with_rng -> steps R (uniform a b).
Proof.
  intro H. unfold uniform. step; [apply steps_random; exact H | step].
Qed.

Lemma steps_wall_loop n z e :
  ignores R with_walls -> steps R (wall_loop n z e).
Proof.
  intro Hw. revert z. induction n as [|n IH]; intro z; cbn [wall_loop].
  - step.
  - step; [|step]. step; [|apply IH].
    unfold place_walls, append_wall. repeat step; apply Hw.
Qed.

Lemma steps_generate_walls s e :
  ignores R with_walls -> ignores R with_console ->
  steps R (generate_walls s e).
Proof.
  intros Hw Hc. unfold generate_walls. step.
  - apply steps_wall_loop, Hw.
  - unfold print. step. apply Hc.
Qed.

Lemma steps_scatter s e :
  steps R (generate_walls s e) -> ignores R with_rng ->
  ignores R with_obstacles -> ignores R with_coin_entities ->
  ignores R with_total_coins ->
  steps R (generate_track_segment s e).
Proof.
  intros Hw Hr Ho Hce Ht. unfold generate_track_segment.
  step; [exact Hw|].
  step.
  - step. unfold place_obstacle.
    step; [apply steps_uniform; assumption|].
    step; [apply steps_uniform; assumption|].
    repeat step. apply Ho.
  - step. unfold place_coin.
    step; [apply steps_uniform; assumption|].
    step; [apply steps_uniform; assumption|].
    repeat step; [apply Hce | apply Ht].
Qed.

Lemma steps_generate_track_segment s e :
  ignores R with_walls -> ignores R with_console -> ignores R with_rng ->
  ignores R with_obstacles -> ignores R with_coin_entities ->
  ignores R with_total_coins ->
  steps R (generate_track_segment s e).
Proof.
  intros. apply steps_scatter; try assumption.
  apply steps_generate_walls; assumption.
Qed.

Lemma steps_create_track :
  ignores R with_walls -> ignores R with_console -> ignores R with_rng ->
  ignores R with_obstacles -> ignores R with_coin_entities ->
  ignores R with_total_coins ->
  ignores R with_min_generated_z -> ignores R with_max_generated_z ->
  steps R create_track.
Proof.
  intros. unfold create_track.
  do 6 (step; [solve [frame]|]).
  apply steps_generate_track_segment; assumption.
Qed.

Lemma steps_level_up :
  ignores R with_level -> ignores R with_score -> ignores R with_coins ->
  ignores R with_ai_cars -> ignores R with_console ->
  steps R level_up.
Proof. intros. unfold level_up, print. frame. Qed.

Lemma steps_write_save r : ignores R with_savegame -> steps R (write_save r).
Proof. intro H. unfold write_save. destruct (sv_coins r); frame. Qed.

Lemma steps_save_game :
  ignores R with_savegame -> ignores R with_console -> steps R save_game.
Proof.
  intros Hs Hc. unfold save_game, print.
  do 4 (step; [step|]). step; [apply steps_write_save, Hs|]. frame.
Qed.

Lemma steps_auto_save dt :
  ignores R with_savegame -> ignores R with_console ->
  ignores R with_auto_save_timer ->
  steps R (auto_save dt).
Proof.
  intros. unfold auto_save, print.
  step; [step|]. step; [|solve [frame]].
  step; [solve [frame]|]. step; [|step].
  step; [apply steps_save_game; assumption|]. frame.
Qed.

Lemma steps_collect_coin i :
  ignores R with_level -> ignores R with_score -> ignores R with_coins ->
  ignores R with_console ->
  (forall g cs j, coin_entities g = Some cs ->
                  R g (with_coin_entities (Some (update_nth j destroy cs)) g)) ->
  (forall g cars f, ai_cars g = Some cars ->
     R g (with_ai_cars
            (Some (map (fun c => with_max_speed (f c) c) cars)) g)) ->
  steps R (collect_coin i).
Proof.
  intros Hl Hs Hc Hp Hce Hai. unfold collect_coin.
  apply (steps_bind_attr R). intros g cs E.
  apply (modify_then R); [apply Hce, E|].
  step; [solve [frame]|]. step; [solve [frame]|]. step; [step|].
  step; [|step].
  unfold level_up, print. step; [|solve [frame]].
  do 3 (step; [solve [frame]|]).
  apply (steps_bind_attr R). intros g' cars E'.
  apply (Hai g' cars (fun c => max_speed c * (11#10)) E').
Qed.

(** The collision phase of [update], given what a bounce off a wall or an
    obstacle and a bump into an opponent do. *)
Lemma steps_collisions_with dt :
  ignores R with_level -> ignores R with_score -> ignores R with_coins ->
  ignores R with_console ->
  (forall g cs j, coin_entities g = Some cs ->
                  R g (with_coin_entities (Some (update_nth j destroy cs)) g)) ->
  (forall g cars f, ai_cars g = Some cars ->
     R g (with_ai_cars
            (Some (map (fun c => with_max_speed (f c) c) cars)) g)) ->
  (forall e, steps R (bounce dt e)) -> (forall car, steps R (bump car)) ->
  steps R (collisions dt).
Proof.
  intros Hl Hs Hc Hp Hce Hai Hbounce Hbump. unfold collisions.
  step; [step|]. step; [step|]. step.
  { step. unfold check_coin. step; [step|]. step; [step|].
    step; [|step]. step; [|step].
    apply steps_collect_coin; assumption. }
  step; [step|]. step; [step|]. step.
  { step. apply Hbounce. }
  step; [step|]. step. apply Hbump.
Qed.

(** The collision phase of [update] changes the player, the score and
    level counters, the coin flags and the opponents' top speed only. *)
Lemma steps_collisions dt :
  ignores R with_level -> ignores R with_score -> ignores R with_coins ->
  ignores R with_console -> ignores R with_player ->
  (forall g cs j, coin_entities g = Some cs ->
                  R g (with_coin_entities (Some (update_nth j destroy cs)) g)) ->
  (forall g cars f, ai_cars g = Some cars ->
     R g (with_ai_cars
            (Some (map (fun c => with_max_speed (f c) c) cars)) g)) ->
  steps R (collisions dt).
Proof.
  intros Hl Hs Hc Hp Hpl Hce Hai.
  apply steps_collisions_with; try assumption.
  - intro e. unfold bounce. frame.
  - intro car. unfold bump. frame.
Qed.

Lemma steps_extend_forward :
  ignores R with_walls -> ignores R with_console -> ignores R with_rng ->
  ignores R with_obstacles -> ignores R with_coin_entities ->
  ignores R with_total_coins ->
  (forall g, R g (with_max_generated_z (max_generated_z g + 50) g)) ->
  steps R extend_forward.
Proof.
  intros. unfold extend_forward.
  step; [step|]. apply (steps_bind_get R). intro g.
  match goal with |- context [if ?b then _ else _] => destruct b end;
    [|reflexivity].
  apply (modify_then R); [auto|].
  step; [step|]. apply steps_generate_track_segment; assumption.
Qed.

Lemma steps_extend_backward :
  ignores R with_walls -> ignores R with_console -> ignores R with_rng ->
  ignores R with_obstacles -> ignores R with_coin_entities ->
  ignores R with_total_coins ->
  (forall g, R g (with_min_generated_z (min_generated_z g - 50) g)) ->
  steps R extend_backward.
Proof.
  intros. unfold extend_backward.
  step; [step|]. apply (steps_bind_get R). intro g.
  match goal with |- context [if ?b then _ else _] => destruct b end;
    [|reflexivity].
  apply (modify_then R); [auto|].
  step; [step|]. apply steps_generate_track_segment; assumption.
Qed.

Lemma steps_recenter :
  ignores R with_walls -> ignores R with_obstacles ->
  ignores R with_coin_entities -> ignores R with_ai_cars ->
  ignores R with_player ->
  steps R recenter.
Proof. intros. unfold recenter. frame. Qed.

(** Whatever one frame does, it does through these assignments. *)
Lemma steps_update dt :
  ignores R with_walls -> ignores R with_obstacles ->
  ignores R with_coin_entities -> ignores R with_ai_cars ->
  ignores R with_player -> ignores R with_rng -> ignores R with_console ->
  ignores R with_total_coins -> ignores R with_level -> ignores R with_score ->
  ignores R with_coins -> ignores R with_savegame ->
  ignores R with_auto_save_timer ->
  (forall g, R g (with_max_generated_z (max_generated_z g + 50) g)) ->
  (forall g, R g (with_min_generated_z (min_generated_z g - 50) g)) ->
  steps R (update dt).
Proof.
  intros. unfold update, print. step; [|solve [frame]].
  step; [step|]. step; try step.
  - apply steps_collisions; try assumption; intros; auto.
  - unfold streaming. step; [step|]. step; [|step].
    step; [|apply steps_auto_save; assumption].
    unfold generate_more_terrain. step.
    + apply steps_extend_forward; assumption.
    + step.
      * apply steps_extend_backward; assumption.
      * apply steps_recenter; assumption.
Qed.

End Frames.

(** ** What a segment generation returns *)

Section Segments.

Context {prng : Random}.

Lemma with_walls_same g ws : walls g = Some ws -> with_walls (Some ws) g = g.
Proof. destruct g; simpl; intros ->; reflexivity. Qed.

Lemma skip_skip a b r : skip a (skip b r) = skip (a + b) r.
Proof. unfold skip; simpl. f_equal. lia. Qed.

Lemma length_scatter n r s e : List.length (scatter n r s e) = n.
Proof. revert r; induction n; intro r; simpl; auto. Qed.

Lemma place_walls_returns z g t ws :
  textures g = Some t -> walls g = Some ws ->
  place_walls z g =
  Ret tt (with_walls
            (Some (if existsb (near z) ws then ws
                   else ws ++ [wall_left z; wall_right z])) g).
Proof.
  intros Ht Hw. unfold place_walls, append_wall, bind, attr, texture, modify.
  rewrite Hw. destruct (existsb (near z) ws).
  - unfold ret. rewrite with_walls_same; auto.
  - rewrite Ht. simpl. rewrite Hw. simpl. rewrite Ht. simpl.
    rewrite <- app_assoc. reflexivity.
Qed.

Lemma wall_loop_returns n : forall z e g t ws,
  textures g = Some t -> walls g = Some ws ->
  wall_loop n z e g = Ret tt (with_walls (Some (walls_after n z e ws)) g).
Proof.
  induction n as [|n IH]; intros z e g t ws Ht Hw; cbn [wall_loop walls_after].
  - unfold ret. rewrite with_walls_same; auto.
  - destruct (Qle_bool z e).
    + unfold bind. rewrite (place_walls_returns z g t ws Ht Hw).
      erewrite IH; [reflexivity | exact Ht | reflexivity].
    + unfold ret. rewrite with_walls_same; auto.
Qed.

Lemma place_obstacle_returns s e g t os :
  textures g = Some t -> obstacles g = Some os ->
  place_obstacle s e g =
  Ret tt (with_obstacles (Some (os ++ [scattered (rng g) s e]))
            (with_rng (skip 2 (rng g)) g)).
Proof.
  intros Ht Ho.
  unfold place_obstacle, uniform, random, bind, ret, attr, texture, modify.
  simpl. rewrite Ht. simpl. rewrite Ho. reflexivity.
Qed.

Lemma place_coin_returns s e g t cs :
  textures g = Some t -> coin_entities g = Some cs ->
  place_coin s e g =
  Ret tt (with_total_coins (total_coins g + 1)
            (with_coin_entities (Some (cs ++ [scattered (rng g) s e]))
               (with_rng (skip 2 (rng g)) g))).
Proof.
  intros Ht Ho.
  unfold place_coin, uniform, random, bind, ret, attr, texture, modify.
  simpl. rewrite Ht. simpl. rewrite Ho. reflexivity.
Qed.

Lemma obstacles_returns s e n : forall g t os,
  textures g = Some t -> obstacles g = Some os ->
  repeat_m n (place_obstacle s e) g =
  Ret tt (with_obstacles (Some (os ++ scatter n (rng g) s e))
            (with_rng (skip (2 * n) (rng g)) g)).
Proof.
  induction n as [|n IH]; intros g t os Ht Ho; cbn [repeat_m scatter].
  - unfold ret. f_equal. destruct g; simpl in *. subst.
    rewrite app_nil_r. unfold skip; simpl. destruct rng0; reflexivity.
  - unfold bind. rewrite (place_obstacle_returns s e g t os Ht Ho).
    erewrite IH; [|exact Ht|reflexivity].
    simpl rng. rewrite skip_skip. rewrite <- app_assoc.
    replace (2 * n + 2)%nat with (2 * S n)%nat by lia. reflexivity.
Qed.

Lemma coins_returns s e n : forall g t cs,
  textures g = Some t -> coin_entities g = Some cs ->
  repeat_m n (place_coin s e) g =
  Ret tt (with_total_coins (total_coins g + Z.of_nat n)
            (with_coin_entities (Some (cs ++ scatter n (rng g) s e))
               (with_rng (skip (2 * n) (rng g)) g))).
Proof.
  induction n as [|n IH]; intros g t cs Ht Hc; cbn [repeat_m scatter].
  - unfold ret. f_equal. destruct g; simpl in *. subst.
    rewrite app_nil_r, Z.add_0_r. unfold skip; simpl.
    destruct rng0; reflexivity.
  - unfold bind. rewrite (place_coin_returns s e g t cs Ht Hc).
    erewrite IH; [|exact Ht|reflexivity].
    simpl rng. simpl total_coins. rewrite skip_skip. rewrite <- app_assoc.
    replace (2 * n + 2)%nat with (2 * S n)%nat by lia.
    replace (total_coins g + 1 + Z.of_nat n)%Z
      with (total_coins g + Z.of_nat (S n))%Z by lia.
    reflexivity.
Qed.

Lemma generate_track_segment_returns s e g t ws os cs :
  textures g = Some t -> walls g = Some ws ->
  obstacles g = Some os -> coin_entities g = Some cs ->
  generate_track_segment s e g = Ret tt (segment_added s e g).
Proof.
  intros Ht Hw Ho Hc.
  unfold generate_track_segment, generate_walls, bind, try_except.
  rewrite (wall_loop_returns _ _ _ g t ws Ht Hw).
  erewrite obstacles_returns; [|exact Ht|exact Ho].
  erewrite coins_returns; [|exact Ht|exact Hc].
  unfold segment_added. rewrite Hw, Ho, Hc. simpl rng.
  rewrite skip_skip. reflexivity.
Qed.

End Segments.

(** ** The [while] loop runs out of rounds only after its test has failed *)

Section Rounds.

Context {prng : Random}.

Lemma Qle_bool_false a b : Qle_bool a b = false <-> b < a.
Proof.
  split; intro H.
  - apply Qnot_le_lt. intro H'. apply Qle_bool_iff in H'. congruence.
  - destruct (Qle_bool a b) eqn:E; auto.
    apply Qle_bool_iff in E. apply Qle_not_lt in E. contradiction.
Qed.

Lemma Qlt_bool_true a b : Qlt_bool a b = true <-> a < b.
Proof.
  unfold Qlt_bool. rewrite negb_true_iff. apply Qle_bool_false.
Qed.

Lemma Qlt_bool_false a b : Qlt_bool a b = false <-> b <= a.
Proof.
  unfold Qlt_bool. rewrite negb_false_iff. apply Qle_bool_iff.
Qed.

Lemma rounds_left_step z e :
  z <= e ->
  (Qfloor ((e - (z + 2)) / 2) + 1 <= Qfloor ((e - z) / 2))%Z.
Proof.
  intro H.
  assert (Hlt : (e - (z + 2)) / 2 < inject_Z (Qfloor ((e - z) / 2))).
  { pose proof (Qlt_floor ((e - z) / 2)) as Hf.
    rewrite inject_Z_plus in Hf.
    assert (E : (e - (z + 2)) / 2 == (e - z) / 2 - 1) by field.
    rewrite E. change (inject_Z 1) with 1 in Hf. lra. }
  assert (Hb := Qfloor_le ((e - (z + 2)) / 2)).
  assert (Hz : inject_Z (Qfloor ((e - (z + 2)) / 2))
               < inject_Z (Qfloor ((e - z) / 2))) by lra.
  rewrite <- Zlt_Qlt in Hz. lia.
Qed.

Lemma rounds_none_left z e :
  (Qfloor ((e - z) / 2) + 1 <= 0)%Z -> Qle_bool z e = false.
Proof.
  intro H. apply Qle_bool_false.
  pose proof (Qlt_floor ((e - z) / 2)) as Hf.
  assert (Hz : inject_Z (Qfloor ((e - z) / 2) + 1) <= inject_Z 0)
    by (rewrite <- Zle_Qle; exact H).
  change (inject_Z 0) with 0 in Hz.
  assert ((e - z) / 2 < 0) by lra.
  assert (E : e - z == ((e - z) / 2) * 2) by field.
  lra.
Qed.

Lemma wall_loop_more n : forall k z e g,
  (Qfloor ((e - z) / 2) + 1 <= Z.of_nat n)%Z ->
  wall_loop (n + k) z e g = wall_loop n z e g.
Proof.
  induction n as [|n IH]; intros k z e g H.
  - simpl. destruct k; simpl; auto.
    rewrite rounds_none_left; auto.
  - cbn [Nat.add wall_loop]. destruct (Qle_bool z e) eqn:E; auto.
    apply Qle_bool_iff in E. pose proof (rounds_left_step z e E).
    unfold bind. destruct (place_walls z g); auto.
    apply IH. lia.
Qed.

(** More rounds than [wall_rounds] change nothing: after that many
    iterations [z <= end_z] is false and the loop has ended. *)
Lemma wall_rounds_enough s e k g :
  (wall_rounds s e <= k)%nat ->
  wall_loop k s e g = wall_loop (wall_rounds s e) s e g.
Proof.
  intro H. replace k with (wall_rounds s e + (k - wall_rounds s e))%nat by lia.
  apply wall_loop_more. unfold wall_rounds. lia.
Qed.

End Rounds.

(** ** Segment contents *)

Section Contents.

Context {prng : Random}.

Lemma scattered_in_box r s e :
  unit_stream -> s <= e -> in_box s e (scattered r s e).
Proof.
  intros Hu Hse. unfold in_box, scattered, x_of, z_of. simpl.
  destruct (Hu (rng_seed r) (rng_pos r)) as [H0 H1].
  destruct (Hu (rng_seed r) (S (rng_pos r))) as [H2 H3].
  split; [split; lra|].
  assert (0 <= (e - s) * mt (rng_seed r) (S (rng_pos r)))
    by (apply Qmult_le_0_compat; lra).
  assert (0 <= (e - s) * (1 - mt (rng_seed r) (S (rng_pos r))))
    by (apply Qmult_le_0_compat; lra).
  split; lra.
Qed.

Lemma scatter_in_box n : forall r s e,
  unit_stream -> s <= e -> Forall (in_box s e) (scatter n r s e).
Proof.
  induction n; intros r s e Hu Hse; simpl; constructor.
  - apply scattered_in_box; assumption.
  - apply IHn; assumption.
Qed.

Lemma walls_0_50 :
  walls_after (wall_rounds 0 50) 0 50 [] = wall_pairs 26.
Proof. vm_compute. reflexivity. Qed.

End Contents.

(** ** The walls a segment adds *)

Section Grid.

Lemma walls_after_extends n : forall z e ws,
  exists added,
    walls_after n z e ws = ws ++ added /\ Forall (wall_within z e) added.
Proof.
  induction n as [|n IH]; intros z e ws; cbn [walls_after].
  - exists []. rewrite app_nil_r. split; [reflexivity|constructor].
  - destruct (Qle_bool z e) eqn:Hze.
    + apply Qle_bool_iff in Hze.
      assert (Hwider : forall w, wall_within (z + 2) e w -> wall_within z e w).
      { intros w [Hx [H1 H2]]. split; [exact Hx|]. split; [lra|exact H2]. }
      destruct (existsb (near z) ws).
      * destruct (IH (z + 2) e ws) as [added [E Hall]].
        exists added. split; [exact E|].
        eapply Forall_impl; [exact Hwider | exact Hall].
      * destruct (IH (z + 2) e (ws ++ [wall_left z; wall_right z]))
          as [added [E Hall]].
        exists ([wall_left z; wall_right z] ++ added).
        split; [rewrite E, <- app_assoc; reflexivity|].
        apply Forall_app. split.
        -- repeat constructor; unfold z_of; simpl; auto; lra.
        -- eapply Forall_impl; [exact Hwider | exact Hall].
    + exists []. rewrite app_nil_r. split; [reflexivity|constructor].
Qed.

Lemma near_wd a b w : a == b -> near a w = near b w.
Proof.
  intro H. unfold near, Qlt_bool. f_equal.
  apply eq_true_iff_eq. rewrite !Qle_bool_iff. rewrite H. reflexivity.
Qed.

Lemma existsb_near_wd a b ws :
  a == b -> existsb (near a) ws = existsb (near b) ws.
Proof.
  intro H. induction ws; simpl; [reflexivity|].
  rewrite (near_wd a b _ H), IHws. reflexivity.
Qed.

Lemma walls_after_keeps n : forall z e ws w,
  In w ws -> In w (walls_after n z e ws).
Proof.
  intros z e ws w Hw. destruct (walls_after_extends n z e ws) as [a [E _]].
  rewrite E. apply in_or_app. auto.
Qed.

Lemma walls_after_covers n : forall z e ws k,
  (k < n)%nat -> z + inject_Z (2 * Z.of_nat k) <= e ->
  existsb (near (z + inject_Z (2 * Z.of_nat k))) (walls_after n z e ws) = true.
Proof.
  induction n as [|n IH]; intros z e ws k Hk Hze; [lia|].
  assert (H0 : 0 <= inject_Z (2 * Z.of_nat k)).
  { change 0 with (inject_Z 0). rewrite <- Zle_Qle. lia. }
  assert (Hle : Qle_bool z e = true) by (apply Qle_bool_iff; lra).
  cbn [walls_after]. rewrite Hle.
  destruct k as [|k].
  - rewrite (existsb_near_wd _ z) by (simpl; ring).
    destruct (existsb (near z) ws) eqn:Hnear.
    + apply existsb_exists in Hnear. destruct Hnear as [w [Hw Hn]].
      apply existsb_exists. exists w. split; [|exact Hn].
      apply walls_after_keeps. exact Hw.
    + apply existsb_exists. exists (wall_left z). split.
      * apply walls_after_keeps. apply in_or_app. right. left. reflexivity.
      * change (near z (wall_left z))
          with (Qlt_bool (Qabs (z - z)) (1#10)).
        apply Qlt_bool_true.
        assert (E : z - z == 0) by ring. rewrite E. reflexivity.
  - assert (E : z + inject_Z (2 * Z.of_nat (S k))
                == z + 2 + inject_Z (2 * Z.of_nat k)).
    { rewrite Nat2Z.inj_succ. unfold Z.succ.
      rewrite Z.mul_add_distr_l, inject_Z_plus. simpl. ring. }
    rewrite (existsb_near_wd _ _ _ E). apply IH; [lia|].
    rewrite <- E. exact Hze.
Qed.

Lemma grid_within_rounds s e k :
  s + inject_Z (2 * Z.of_nat k) <= e -> (k < wall_rounds s e)%nat.
Proof.
  intro H. unfold wall_rounds.
  assert (Hk : inject_Z (Z.of_nat k) <= (e - s) / 2).
  { apply Qle_shift_div_l; [reflexivity|].
    rewrite inject_Z_mult in H. change (inject_Z 2) with 2 in H. lra. }
  apply Qfloor_resp_le in Hk. rewrite Qfloor_Z in Hk. lia.
Qed.

End Grid.

(** ** No duplicate walls *)

Lemma lcg_unit : @unit_stream lcg_random.
Proof.
  intros s k. unfold mt, lcg_random, lcg.
  pose proof (Z.mod_pos_bound (s * 1103515245 + 12345 + Z.of_nat k * 7919) 1024
                ltac:(lia)) as [H0 H1].
  unfold Qle, Qlt. simpl. lia.
Qed.

Section Walls.

Context {prng : Random}.

Lemma ForallOrdPairs_app {A} (P : A -> A -> Prop) (l1 l2 : list A) :
  ForallOrdPairs P l1 -> ForallOrdPairs P l2 ->
  (forall a b, In a l1 -> In b l2 -> P a b) ->
  ForallOrdPairs P (l1 ++ l2).
Proof.
  intros H1 H2 H. induction H1 as [|a l Ha Hl IH]; simpl; auto.
  constructor.
  - apply Forall_app. split; auto.
    apply Forall_forall. intros b Hb. apply H; simpl; auto.
  - apply IH. intros x y Hx Hy. apply H; simpl; auto.
Qed.

Lemma near_false z w : near z w = false -> 1#10 <= Qabs (z_of w - z).
Proof. unfold near. apply Qlt_bool_false. Qed.

Lemma separated_add ws z :
  separated ws -> existsb (near z) ws = false ->
  separated (ws ++ [wall_left z; wall_right z]).
Proof.
  intros Hs Hn. apply ForallOrdPairs_app; auto.
  - constructor; [|constructor; [constructor|constructor]].
    constructor; [|constructor].
    unfold same_side, x_of; simpl. intro H. discriminate H.
  - intros a b Ha Hb _.
    assert (Ha' : near z a = false).
    { destruct (near z a) eqn:E; auto.
      assert (existsb (near z) ws = true)
        by (apply existsb_exists; eauto).
      congruence. }
    apply near_false in Ha'. unfold apart.
    destruct Hb as [<-|[<-|[]]]; exact Ha'.
Qed.

Lemma paired_add ws z :
  paired ws -> paired (ws ++ [wall_left z; wall_right z]).
Proof.
  intros Hp w Hw. apply in_app_or in Hw. destruct Hw as [Hw|Hw].
  - destruct (Hp w Hw) as [[l [Hl Hl']] [r [Hr Hr']]].
    split; [exists l|exists r]; (split; [apply in_or_app; auto|assumption]).
  - assert (Hz : z_of w = z) by (destruct Hw as [<-|[<-|[]]]; reflexivity).
    split.
    + exists (wall_left z). split; [apply in_or_app; simpl; auto|].
      split; [reflexivity|]. rewrite Hz. reflexivity.
    + exists (wall_right z). split; [apply in_or_app; simpl; auto|].
      split; [reflexivity|]. rewrite Hz. reflexivity.
Qed.

Lemma paired_scans_agree ws : paired ws -> scans_agree ws.
Proof.
  intros Hp z.
  assert (H : forall side : Entity -> bool,
             (forall w, In w ws ->
                exists t, In t ws /\ side t = true /\ z_of t = z_of w) ->
             existsb (near z) ws = existsb (near z) (filter side ws)).
  { intros side Hside. apply eq_true_iff_eq. split; intro H.
    - apply existsb_exists in H. destruct H as [w [Hw Hn]].
      destruct (Hside w Hw) as [t [Ht [Hs Hz]]].
      apply existsb_exists. exists t. split.
      + apply filter_In. auto.
      + unfold near in *. rewrite Hz. exact Hn.
    - apply existsb_exists in H. destruct H as [w [Hw Hn]].
      apply filter_In in Hw. apply existsb_exists. exists w. tauto. }
  split; apply H; intros w Hw; apply (Hp w Hw).
Qed.

#[local] Instance keeps_walls_ok_pre : PreOrder keeps_walls_ok.
Proof.
  split.
  - intros g H. exact H.
  - intros a b c H1 H2 H. auto.
Qed.

Lemma place_walls_ok z : steps keeps_walls_ok (place_walls z).
Proof.
  intros g [ws [Hw [Hs Hp]]].
  destruct (textures g) as [t|] eqn:Ht.
  - rewrite (place_walls_returns z g t ws Ht Hw). simpl.
    exists (if existsb (near z) ws then ws
            else ws ++ [wall_left z; wall_right z]).
    split; [reflexivity|].
    destruct (existsb (near z) ws) eqn:E; [auto|].
    split; [apply separated_add | apply paired_add]; auto.
  - unfold place_walls, bind, attr, texture. rewrite Hw.
    destruct (existsb (near z) ws); simpl.
    + exists ws. auto.
    + rewrite Ht. simpl. exists ws. auto.
Qed.

Lemma walls_ok_frame {V} (set : V -> Game -> Game) :
  (forall v g, walls (set v g) = walls g) -> ignores keeps_walls_ok set.
Proof.
  intros H v g [ws [Hw Hs]]. exists ws. rewrite H. auto.
Qed.

Lemma generate_track_segment_ok s e :
  steps keeps_walls_ok (generate_track_segment s e).
Proof.
  apply (steps_scatter keeps_walls_ok);
    try (apply walls_ok_frame; reflexivity).
  unfold generate_walls. apply (steps_try keeps_walls_ok).
  - generalize (wall_rounds s e) as n. intro n. generalize s as z.
    induction n as [|n IH]; intro z; cbn [wall_loop].
    + apply (steps_ret keeps_walls_ok).
    + apply (steps_if keeps_walls_ok); [|apply (steps_ret keeps_walls_ok)].
      apply (steps_bind keeps_walls_ok); [apply place_walls_ok|].
      intros _. apply IH.
  - intro x. unfold print. apply (steps_modify keeps_walls_ok).
    intro g. apply walls_ok_frame. reflexivity.
Qed.

(** C7. Starting without walls, after any sequence of
    [generate_track_segment] calls no two walls on the same side lie within
    0.1 of each other in [z]; and the scan of the wall list that guards each
    placement decides as a scan of the left walls alone, or of the right
    walls alone, would. *)
Theorem no_duplicate_walls (calls : list (Q * Q)) (g : Game) :
  walls g = Some [] ->
  exists ws, walls (run_segments calls g) = Some ws /\
             separated ws /\ scans_agree ws.
Proof.
  intro H0.
  assert (Hok : walls_ok (run_segments calls g)).
  { assert (Hg : walls_ok g).
    { exists []. split; [exact H0|]. split; [constructor|].
      intros w []. }
    clear H0. revert g Hg. induction calls as [|[s e] rest IH]; intros g Hg.
    - exact Hg.
    - simpl. apply IH. apply (generate_track_segment_ok s e g), Hg. }
  destruct Hok as [ws [Hw [Hs Hp]]].
  exists ws. split; [exact Hw|]. split; [exact Hs|].
  apply paired_scans_agree, Hp.
Qed.

End Walls.

Lemma no_duplicate_walls_witness :
  exists ws,
    walls (run_segments [(-50, 50); (50, 100); (0, 50); (-100, -50)]
                        empty_track) = Some ws /\
    separated ws /\ scans_agree ws.
Proof. apply no_duplicate_walls. reflexivity. Defined.

(** ** The segment [generate_track_segment(0, 50)] *)

Section FirstSegment.

Context {prng : Random}.

(** C6, as the code has it.  On a game without walls,
    [generate_track_segment(0, 50)] returns with 26 wall pairs, a left wall
    at [x = 15] and a right wall at [x = -15] for each of
    [z = 0, 2, ..., 50]; it adds at least 5 obstacles and at least 10
    coins, each with [x] in [[-12, 12]] and [z] in [[0, 50]]. *)
Theorem segment_0_50 (g : Game) (t : Z) (os cs : list Entity) :
  unit_stream ->
  textures g = Some t -> walls g = Some [] ->
  obstacles g = Some os -> coin_entities g = Some cs ->
  exists g' new_os new_cs,
    generate_track_segment 0 50 g = Ret tt g' /\
    walls g' = Some (wall_pairs 26) /\
    obstacles g' = Some (os ++ new_os) /\
    (5 <= List.length new_os)%nat /\ Forall (in_box 0 50) new_os /\
    coin_entities g' = Some (cs ++ new_cs) /\
    (10 <= List.length new_cs)%nat /\ Forall (in_box 0 50) new_cs.
Proof.
  intros Hu Ht Hw Ho Hc.
  exists (segment_added 0 50 g).
  exists (scatter (Z.to_nat (num_obstacles 0 50)) (rng g) 0 50).
  exists (scatter (Z.to_nat (num_coins 0 50))
                  (skip (2 * Z.to_nat (num_obstacles 0 50)) (rng g)) 0 50).
  split; [apply (generate_track_segment_returns 0 50 g t [] os cs); auto|].
  unfold segment_added. cbn [walls obstacles coin_entities with_total_coins
    with_coin_entities with_obstacles with_rng with_walls].
  rewrite Hw, Ho, Hc, walls_0_50.
  rewrite !length_scatter.
  repeat split; try reflexivity; try (vm_compute; lia);
    apply scatter_in_box; try exact Hu; lra.
Qed.

End FirstSegment.

Lemma segment_0_50_witness :
  exists g' new_os new_cs,
    generate_track_segment 0 50 empty_track = Ret tt g' /\
    walls g' = Some (wall_pairs 26) /\
    obstacles g' = Some ([] ++ new_os) /\
    (5 <= List.length new_os)%nat /\ Forall (in_box 0 50) new_os /\
    coin_entities g' = Some ([] ++ new_cs) /\
    (10 <= List.length new_cs)%nat /\ Forall (in_box 0 50) new_cs.
Proof.
  apply (segment_0_50 empty_track 42 [] [] lcg_unit); reflexivity.
Defined.

(** C6, as stated, fails on the wall count: the loop [while z <= end_z]
    includes [z = 50], which makes 26 pairs and not 25. *)
Lemma segment_0_50_not_25_pairs :
  match walls (final (generate_track_segment 0 50 empty_track)) with
  | Some ws =>
      List.length (filter is_left ws) = 26%nat /\
      List.length (filter is_right ws) = 26%nat /\
      In (wall_left 50) ws /\ In (wall_right 50) ws /\
      List.length (filter is_left ws) <> 25%nat
  | None => False
  end.
Proof.
  vm_compute. repeat split; try discriminate.
  - do 50 right. left. reflexivity.
  - do 51 right. left. reflexivity.
Qed.

(** ** Partial-failure isolation *)

Section Isolation.

Context {prng : Random}.

(** C8, as the code has it.  When the wall loop of
    [generate_track_segment] raises, the exception is caught and printed and
    the call goes on to the obstacles and the coins.  In a game that has its
    textures, its obstacle list and its coin list they are all generated:
    [max(5, int((end_z - start_z) / 10))] obstacles and
    [max(10, int((end_z - start_z) / 5))] coins are appended, and
    [total_coins] grows by the number of coins. *)
Theorem wall_fault_isolated (s e : Q) (g g1 : Game) (x : Exn) (t : Z)
        (os cs : list Entity) :
  wall_loop (wall_rounds s e) s e g = Exc x g1 ->
  textures g = Some t -> obstacles g = Some os -> coin_entities g = Some cs ->
  exists g' new_os new_cs,
    generate_track_segment s e g = Ret tt g' /\
    console g' = console g ++ [PrintedExn "Error generating track segment" x] /\
    obstacles g' = Some (os ++ new_os) /\
    Z.of_nat (List.length new_os) = Z.max 5 (py_int ((e - s) / 10)) /\
    coin_entities g' = Some (cs ++ new_cs) /\
    Z.of_nat (List.length new_cs) = Z.max 10 (py_int ((e - s) / 5)) /\
    total_coins g' = (total_coins g + Z.of_nat (List.length new_cs))%Z.
Proof.
  intros Hx Ht Ho Hc.
  assert (Hk : forall V (f : Game -> V),
             (forall v g0, f (with_walls v g0) = f g0) -> f g1 = f g).
  { intros V f Hf.
    pose proof (steps_wall_loop (keeps f) (wall_rounds s e) s e) as H.
    specialize (H ltac:(intros v g0; apply Hf) g).
    rewrite Hx in H. exact H. }
  pose (g2 := with_console
                (console g1 ++ [PrintedExn "Error generating track segment" x])
                g1).
  assert (Ht2 : textures g2 = Some t)
    by (simpl; rewrite (Hk _ textures); auto).
  assert (Ho2 : obstacles g2 = Some os)
    by (simpl; rewrite (Hk _ obstacles); auto).
  assert (Hc2 : coin_entities g2 = Some cs)
    by (simpl; rewrite (Hk _ coin_entities); auto).
  eexists. exists (scatter (Z.to_nat (num_obstacles s e)) (rng g2) s e).
  exists (scatter (Z.to_nat (num_coins s e))
                  (skip (2 * Z.to_nat (num_obstacles s e)) (rng g2)) s e).
  split.
  - unfold generate_track_segment, generate_walls, bind, try_except, print,
      modify.
    rewrite Hx. fold g2.
    erewrite obstacles_returns; [|exact Ht2|exact Ho2].
    erewrite coins_returns; [reflexivity|exact Ht2|exact Hc2].
  - cbn [console obstacles coin_entities total_coins rng with_total_coins
         with_coin_entities with_obstacles with_rng].
    rewrite !length_scatter. subst g2.
    cbn [console total_coins with_console].
    rewrite (Hk _ console), (Hk _ total_coins) by reflexivity.
    unfold num_obstacles, num_coins.
    repeat split; try reflexivity; lia.
Qed.

End Isolation.

Lemma wall_fault_isolated_witness :
  exists g' new_os new_cs,
    generate_track_segment 0 50 no_walls = Ret tt g' /\
    console g' =
      console no_walls ++
      [PrintedExn "Error generating track segment" (AttributeError "walls")] /\
    obstacles g' = Some ([] ++ new_os) /\
    Z.of_nat (List.length new_os) = Z.max 5 (py_int ((50 - 0) / 10)) /\
    coin_entities g' = Some ([] ++ new_cs) /\
    Z.of_nat (List.length new_cs) = Z.max 10 (py_int ((50 - 0) / 5)) /\
    total_coins g' = (total_coins no_walls + Z.of_nat (List.length new_cs))%Z.
Proof.
  apply (wall_fault_isolated 0 50 no_walls no_walls (AttributeError "walls") 42);
    reflexivity.
Defined.

(** C8, as stated, fails when the fault of the wall loop is not the wall
    loop's own.  In a game whose [textures] are still [None], the wall loop
    raises [TypeError] at [self.textures["wall"]]; that is caught and
    printed; the obstacle loop then raises the same [TypeError] at its first
    obstacle, outside the [try], and the call ends there with no obstacle
    and no coin generated. *)
Lemma texture_fault_escapes :
  let fault := TypeError "NoneType is not subscriptable" in
  let g' := final (generate_track_segment 0 50 no_textures) in
  wall_loop (wall_rounds 0 50) 0 50 no_textures = Exc fault no_textures /\
  generate_track_segment 0 50 no_textures = Exc fault g' /\
  console g' =
    console no_textures ++
    [PrintedExn "Error generating track segment" fault] /\
  obstacles no_textures = Some [] /\ obstacles g' = Some [] /\
  coin_entities no_textures = Some [] /\ coin_entities g' = Some [] /\
  total_coins g' = total_coins no_textures.
Proof. vm_compute. repeat split; reflexivity. Qed.

(** ** The bounds under the per-frame update *)

#[global] Instance bounds_grow_pre : PreOrder bounds_grow.
Proof.
  split.
  - intro g. split; apply Qle_refl.
  - intros a b c [H1 H2] [H3 H4]. split; eapply Qle_trans; eauto.
Qed.

#[global] Instance streaming_idle_pre : PreOrder streaming_idle.
Proof.
  split.
  - intro g. unfold streaming_idle. repeat split; reflexivity.
  - intros a b c H1 H2. unfold streaming_idle in *.
    repeat match goal with H : _ /\ _ |- _ => destruct H end.
    repeat split; congruence.
Qed.

Section Frame.

Context {prng : Random} {engine : Engine}.

Lemma update_not_playing dt g :
  game_state g <> Playing -> update dt g = Ret tt g.
Proof.
  intro H. unfold update, try_except, bind, get.
  destruct (game_state g) eqn:E; try reflexivity. congruence.
Qed.

Lemma update_playing dt g :
  game_state g = Playing ->
  update dt g =
  try_except (collisions dt ;; streaming dt)
             (fun e => print (PrintedExn "Fehler im Spielupdate" e)) g.
Proof.
  intro H. unfold update, try_except, bind at 1, get. rewrite H. reflexivity.
Qed.

Lemma length_update_nth {A} i (f : A -> A) cs :
  List.length (update_nth i f cs) = List.length cs.
Proof.
  revert i. induction cs as [|c cs IH]; intros [|i]; simpl; auto.
Qed.

Lemma collisions_idle dt : steps streaming_idle (collisions dt).
Proof.
  apply (steps_collisions streaming_idle);
    try (intros v g; unfold streaming_idle; repeat split; reflexivity).
  - intros g cs j H. unfold streaming_idle; simpl.
    rewrite H, length_update_nth. simpl. repeat split; reflexivity.
  - intros g cars f H. unfold streaming_idle; simpl.
    rewrite H. simpl. rewrite map_map. repeat split; reflexivity.
Qed.

(** C3, as the code has it.  After any frame [max_generated_z] has not
    decreased and [min_generated_z] has not increased; a frame that
    recenters is no exception, because recentering leaves the bounds as
    they are. *)
Theorem bounds_monotone (dt : Q) (g : Game) :
  bounds_grow g (final (update dt g)).
Proof.
  apply (steps_update bounds_grow);
    try (intros v g0; split; apply Qle_refl).
  - intro g0. split; simpl; lra.
  - intro g0. split; simpl; lra.
Qed.

(** Without a bounce off a wall or an obstacle, the [z] that the test
    reads is the [z] the player had when the frame began. *)
Lemma gate_z_at_start (dt : Q) (g : Game) (z : Q) :
  (forall p e, intersects p e = false) ->
  gate_z dt g = Some z -> player_z g = Some z.
Proof.
  intros Hfree Hz. unfold gate_z in Hz.
  destruct (game_state g); try discriminate.
  assert (H : steps (keeps player_z) (collisions dt)).
  { apply (steps_collisions_with (keeps player_z));
      try (unfold ignores, keeps; intros; reflexivity).
    - intro e. unfold bounce. apply (steps_bind_attr (keeps player_z)).
      intros g0 p Hp. rewrite Hfree. reflexivity.
    - intro car. unfold bump. apply (steps_bind_attr (keeps player_z)).
      intros g0 p Hp. destruct (car_intersects car p); [|reflexivity].
      unfold keeps, bind, modify, player_z. simpl. rewrite Hp. reflexivity. }
  specialize (H g). destruct (collisions dt g) as [[] g1|]; try discriminate.
  unfold keeps in H. simpl in H. congruence.
Qed.

(** C10, as the code has it.  On a frame where the [abs(self.player.z)]
    that [update] tests -- after the collisions of the frame have been
    handled -- is at most 150, and on a frame that does not get to that
    test, the update leaves the bounds, the walls and obstacles, the number
    of coins, the [z] of every opponent, [total_coins], the auto-save timer
    and the save file as they were: no extension, no recentering, no
    auto-save.  So these happen only on frames where the tested
    [abs(self.player.z)] exceeds 150. *)
Theorem gate_closed (dt : Q) (g : Game) :
  (forall z, gate_z dt g = Some z -> Qabs z <= 150) ->
  streaming_idle g (final (update dt g)).
Proof.
  unfold gate_z. intro Hgate.
  destruct (game_state g) eqn:Hs;
    try (rewrite update_not_playing by congruence; reflexivity).
  rewrite (update_playing dt g Hs). unfold try_except, bind.
  pose proof (collisions_idle dt g) as H.
  destruct (collisions dt g) as [[] g1|x g1] eqn:Hc; simpl in H.
  - unfold streaming, bind, attr.
    unfold player_z in Hgate. destruct (player g1) as [p|] eqn:Hp.
    + assert (Hclosed : Qlt_bool 150 (Qabs (car_z p)) = false)
        by (apply Qlt_bool_false, Hgate; reflexivity).
      rewrite Hclosed. exact H.
    + simpl. etransitivity; [exact H|].
      unfold streaming_idle. repeat split; reflexivity.
  - simpl. etransitivity; [exact H|].
    unfold streaming_idle. repeat split; reflexivity.
Qed.

End Frame.

Lemma gate_closed_witness :
  gate_z (1#60) at_100 = Some 100 /\
  streaming_idle at_100 (final (update (1#60) at_100)).
Proof.
  split; [vm_compute; reflexivity|].
  apply (gate_closed (1#60) at_100).
  intros z Hz. vm_compute in Hz. injection Hz as <-.
  vm_compute. discriminate.
Defined.

(** C10, as stated, fails for the [z] the player has when the frame
    begins.  The player reverses at [z = 150] along the left wall that
    stands there; the frame's collision handling bounces the car off the
    wall, to [z = 150 + 1/3]; the test then reads more than 150, and the
    frame extends the track from 150 to 200 and advances the auto-save
    timer. *)
Lemma bounce_opens_gate :
  let g' := final (update (engine := tight) (1#60) grazing) in
  game_state grazing = Playing /\
  player_z grazing = Some 150 /\ Qabs 150 <= 150 /\
  (exists z, gate_z (engine := tight) (1#60) grazing = Some z /\
             z == 150 + (1#3)) /\
  max_generated_z grazing = 150 /\ max_generated_z g' = 200 /\
  count (walls grazing) = Some 202%nat /\ count (walls g') = Some 252%nat /\
  total_coins g' = (total_coins grazing + 10)%Z /\
  (exists t t', auto_save_timer grazing = Some t /\
                auto_save_timer g' = Some t' /\ t' == t + (1#60)) /\
  ~ streaming_idle grazing g'.
Proof.
  cbv zeta.
  split; [vm_compute; reflexivity|]. split; [vm_compute; reflexivity|].
  split; [vm_compute; discriminate|].
  split; [eexists; split; [vm_compute; reflexivity|vm_compute; reflexivity]|].
  split; [vm_compute; reflexivity|]. split; [vm_compute; reflexivity|].
  split; [vm_compute; reflexivity|]. split; [vm_compute; reflexivity|].
  split; [vm_compute; reflexivity|].
  split.
  { eexists. eexists. split; [vm_compute; reflexivity|].
    split; [vm_compute; reflexivity|vm_compute; reflexivity]. }
  intros [_ [Hmax _]]. vm_compute in Hmax. discriminate.
Qed.

(** C3, as stated, fails at a recentering frame: the player at [z = 1001]
    is put back to [z = 0], while [max_generated_z] goes from 1050 to 1100
    and [min_generated_z] stays at -50, so the bounds have not moved by one
    common offset. *)
Lemma recentering_leaves_bounds :
  let g' := final (update (1#60) at_1001) in
  player_z at_1001 = Some 1001 /\ player_z g' = Some 0 /\
  max_generated_z at_1001 = 1050 /\ max_generated_z g' = 1100 /\
  min_generated_z at_1001 = -50 /\ min_generated_z g' = -50 /\
  ~ (exists c, max_generated_z g' == max_generated_z at_1001 + c /\
               min_generated_z g' == min_generated_z at_1001 + c).
Proof.
  vm_compute. repeat split; try reflexivity.
  intros [c [H1 H2]].
  change ((1100 # 1) == (1050 # 1) + c) in H1.
  change ((-50 # 1) == (-50 # 1) + c) in H2.
  lra.
Qed.

(** ** The bounds tracker *)

(** Flatten a state built from assignments into one record. *)
Ltac flat :=
  cbn [game_state difficulty ai_speed_factor coins level total_coins score
       auto_save_timer textures world_seed min_generated_z max_generated_z
       walls obstacles coin_entities ai_cars player rng savegame console
       with_game_state with_difficulty with_ai_speed_factor with_coins
       with_level with_total_coins with_score with_auto_save_timer
       with_textures with_world_seed with_min_generated_z
       with_max_generated_z with_walls with_obstacles with_coin_entities
       with_ai_cars with_player with_rng with_savegame with_console
       rng_seed rng_pos seeded segment_added track_created].


Section Tracker.

Context {prng : Random} {engine : Engine}.

Lemma ready_returns s e g :
  ready g -> generate_track_segment s e g = Ret tt (segment_added s e g).
Proof.
  intros [Ht [Hw [Ho Hc]]].
  destruct (textures g) as [t|] eqn:Et; [|congruence].
  destruct (walls g) as [ws|] eqn:Ew; [|congruence].
  destruct (obstacles g) as [os|] eqn:Eo; [|congruence].
  destruct (coin_entities g) as [cs|] eqn:Ec; [|congruence].
  apply (generate_track_segment_returns s e g t ws os cs); assumption.
Qed.

Lemma ready_segment_added s e g : ready g -> ready (segment_added s e g).
Proof.
  intros [Ht H]. unfold ready, segment_added; simpl.
  repeat split; try discriminate. exact Ht.
Qed.

Lemma ready_forward z g : ready g -> ready (forward_result z g).
Proof.
  intro H. unfold forward_result. destruct (Qlt_bool _ _); auto.
  apply ready_segment_added. exact H.
Qed.

Lemma extend_forward_returns g p :
  player g = Some p -> ready g ->
  extend_forward g = Ret tt (forward_result (car_z p) g).
Proof.
  intros Hp Hr. unfold extend_forward, forward_result, bind, attr, get, modify.
  rewrite Hp. destruct (Qlt_bool _ _); [|reflexivity].
  apply ready_returns. exact Hr.
Qed.

Lemma extend_backward_returns g p :
  player g = Some p -> ready g ->
  extend_backward g = Ret tt (backward_result (car_z p) g).
Proof.
  intros Hp Hr.
  unfold extend_backward, backward_result, bind, attr, get, modify.
  rewrite Hp. destruct (Qlt_bool _ _); [|reflexivity].
  apply ready_returns. exact Hr.
Qed.

Lemma player_forward z g : player (forward_result z g) = player g.
Proof. unfold forward_result. destruct (Qlt_bool _ _); reflexivity. Qed.

Lemma player_backward z g : player (backward_result z g) = player g.
Proof. unfold backward_result. destruct (Qlt_bool _ _); reflexivity. Qed.




#[local] Instance settled_pre : PreOrder settled.
Proof.
  split.
  - intro g. unfold settled. repeat split; reflexivity.
  - intros a b c H1 H2. unfold settled in *.
    repeat match goal with H : _ /\ _ |- _ => destruct H end.
    repeat split; congruence.
Qed.











End Tracker.



(** ** Recentering *)

Section Recentering.

Context {prng : Random}.

Lemma recenter_returns g p ws os cs cars :
  player g = Some p -> walls g = Some ws -> obstacles g = Some os ->
  coin_entities g = Some cs -> ai_cars g = Some cars ->
  recenter g =
  Ret tt (if Qlt_bool 1000 (Qabs (car_z p)) then recentered (car_z p) g
          else g).
Proof.
  intros Hp Hw Ho Hc Ha. unfold recenter, bind, attr, modify. rewrite Hp.
  destruct (Qlt_bool 1000 (Qabs (car_z p))); [|reflexivity].
  simpl. rewrite Hw. simpl. rewrite Ho. simpl. rewrite Hc. simpl.
  rewrite Ha. unfold recentered. rewrite Hp, Hw, Ho, Hc, Ha. reflexivity.
Qed.

Lemma pow2_pos k : 0 < 2 ^ k.
Proof. apply Qpower_0_lt. reflexivity. Qed.

Lemma pow2_succ k : 2 ^ (k + 1) == 2 * 2 ^ k.
Proof. rewrite Qpower_plus by discriminate. rewrite Qpower_1_r. ring. Qed.

Lemma pow2_Z k : (0 <= k)%Z -> inject_Z (2 ^ k) == 2 ^ k.
Proof. intro H. apply (Zpower_Qpower 2 k H). Qed.

Lemma Qabs_frac x :
  Qabs x == inject_Z (Z.abs (Qnum x)) / inject_Z (Zpos (Qden x)).
Proof.
  destruct x as [n d]. unfold Qabs. simpl.
  rewrite Qmake_Qdiv. reflexivity.
Qed.

(** [ilog2] is the floor of the logarithm. *)
Lemma ilog2_spec x :
  ~ x == 0 -> 2 ^ ilog2 x <= Qabs x /\ Qabs x < 2 ^ (ilog2 x + 1).
Proof.
  intro Hx.
  set (n := Z.abs (Qnum x)). set (d := Zpos (Qden x)).
  assert (Hn : (0 < n)%Z).
  { unfold n. destruct x as [[|p0|p0] q0]; simpl; try lia.
    exfalso. apply Hx. reflexivity. }
  assert (Hd : (0 < d)%Z) by (unfold d; lia).
  destruct (Z.log2_spec n Hn) as [Hn1 Hn2].
  destruct (Z.log2_spec d Hd) as [Hd1 Hd2].
  set (a := Z.log2 n) in *. set (b := Z.log2 d) in *.
  assert (Ha : (0 <= a)%Z) by apply Z.log2_nonneg.
  assert (Hb : (0 <= b)%Z) by apply Z.log2_nonneg.
  assert (Hn1q : 2 ^ a <= inject_Z n)
    by (rewrite <- pow2_Z by exact Ha; rewrite <- Zle_Qle; exact Hn1).
  assert (Hn2q : inject_Z n < 2 ^ (a + 1)).
  { rewrite <- pow2_Z by lia. rewrite <- Zlt_Qlt. exact Hn2. }
  assert (Hd1q : 2 ^ b <= inject_Z d)
    by (rewrite <- pow2_Z by exact Hb; rewrite <- Zle_Qle; exact Hd1).
  assert (Hd2q : inject_Z d < 2 ^ (b + 1)).
  { rewrite <- pow2_Z by lia. rewrite <- Zlt_Qlt. exact Hd2. }
  assert (Hdq : 0 < inject_Z d).
  { change 0 with (inject_Z 0). rewrite <- Zlt_Qlt. exact Hd. }
  assert (Habs : Qabs x == inject_Z n / inject_Z d) by apply Qabs_frac.
  pose proof (pow2_pos a) as Pa. pose proof (pow2_pos b) as Pb.
  pose proof (pow2_pos (a - b)) as Pab.
  assert (Eab : 2 ^ (a - b) * 2 ^ b == 2 ^ a).
  { rewrite Qpower_minus by discriminate. field.
    intro H. rewrite H in Pb. apply (Qlt_irrefl 0), Pb. }
  unfold ilog2. fold n d a b.
  destruct (Qle_bool (2 ^ (a - b)) (Qabs x)) eqn:E.
  - apply Qle_bool_iff in E. split; [exact E|].
    rewrite Habs. apply Qlt_shift_div_r; [exact Hdq|].
    rewrite pow2_succ. rewrite pow2_succ in Hn2q.
    apply (Qlt_le_trans _ (2 * 2 ^ a)); [exact Hn2q|].
    rewrite <- Eab. nra.
  - assert (E' : Qabs x < 2 ^ (a - b)).
    { apply Qnot_le_lt. intro H. apply Qle_bool_iff in H. congruence. }
    replace (a - b - 1 + 1)%Z with (a - b)%Z by lia.
    split; [|exact E'].
    rewrite Habs. apply Qle_shift_div_l; [exact Hdq|].
    assert (E1 : 2 ^ (a - b) == 2 * 2 ^ (a - b - 1)).
    { rewrite <- pow2_succ. replace (a - b - 1 + 1)%Z with (a - b)%Z by lia.
      reflexivity. }
    pose proof (pow2_pos (a - b - 1)) as P1.
    rewrite pow2_succ in Hd2q.
    apply (Qle_trans _ (2 ^ a)); [|exact Hn1q].
    rewrite <- Eab, E1. nra.
Qed.

Lemma round_even_near y : Qabs (inject_Z (round_even y) - y) <= 1#2.
Proof.
  pose proof (Qfloor_le y) as H1. pose proof (Qlt_floor y) as H2.
  rewrite inject_Z_plus in H2. change (inject_Z 1) with 1 in H2.
  unfold round_even.
  destruct (Qlt_bool (y - inject_Z (Qfloor y)) (1#2)) eqn:E1.
  - apply Qlt_bool_true in E1. apply Qabs_Qle_condition. split; lra.
  - apply Qlt_bool_false in E1.
    destruct (Qlt_bool (1#2) (y - inject_Z (Qfloor y))) eqn:E2.
    + rewrite inject_Z_plus. change (inject_Z 1) with 1.
      apply Qabs_Qle_condition. split; lra.
    + apply Qlt_bool_false in E2.
      destruct (Z.even (Qfloor y)).
      * apply Qabs_Qle_condition. split; lra.
      * rewrite inject_Z_plus. change (inject_Z 1) with 1.
        apply Qabs_Qle_condition. split; lra.
Qed.

(** The rounding error of [f32] is at most half the spacing of the floats
    around [x]. *)
Lemma f32_near x : Qabs (f32 x - x) <= half_ulp x.
Proof.
  unfold half_ulp, f32. destruct (Qeq_bool x 0) eqn:E0.
  - apply Qeq_bool_iff in E0. rewrite E0. vm_compute. discriminate.
  - assert (Hx : ~ x == 0).
    { intro H. apply Qeq_bool_iff in H. congruence. }
    destruct (ilog2_spec x Hx) as [Hlo _].
    set (E := Z.max (ilog2 x) (-126)).
    set (q := 2 ^ (E - 23)).
    assert (Hq : 0 < q) by apply pow2_pos.
    assert (Hq0 : ~ q == 0)
      by (intro H; rewrite H in Hq; apply (Qlt_irrefl 0), Hq).
    pose proof (round_even_near (x / q)) as Hr.
    assert (Herr : Qabs (inject_Z (round_even (x / q)) * q - x)
                   <= q * (1#2)).
    { assert (Eq : inject_Z (round_even (x / q)) * q - x
                   == (inject_Z (round_even (x / q)) - x / q) * q)
        by (field; exact Hq0).
      rewrite Eq, Qabs_Qmult, (Qabs_pos q) by (apply Qlt_le_weak, Hq).
      rewrite (Qmult_comm q). apply Qmult_le_compat_r; [exact Hr|].
      apply Qlt_le_weak, Hq. }
    eapply Qle_trans; [exact Herr|].
    assert (Hhalf : q * (1#2) == 2 ^ E * (1 # 16777216)).
    { unfold q. rewrite Qpower_minus by discriminate.
      change (2 ^ 23) with (8388608 # 1). field. }
    rewrite Hhalf.
    pose proof (Qabs_nonneg x) as Hax.
    destruct (Z.max_spec (ilog2 x) (-126)) as [[Hlt Hm]|[Hle Hm]];
      fold E in Hm; rewrite Hm.
    + assert (Hc : 2 ^ (-126) * (1 # 16777216) <= 2 ^ (-150))
        by (vm_compute; discriminate).
      assert (0 <= Qabs x * (1 # 16777216))
        by (apply Qmult_le_0_compat; [exact Hax|discriminate]).
      eapply Qle_trans; [exact Hc|].
      rewrite <- (Qplus_0_l (2 ^ (-150))) at 1.
      apply Qplus_le_compat; [assumption|apply Qle_refl].
    + assert (H150 : 0 <= 2 ^ (-150)) by (apply Qlt_le_weak, pow2_pos).
      eapply Qle_trans;
        [apply Qmult_le_compat_r; [exact Hlo|discriminate]|].
      rewrite <- (Qplus_0_r (Qabs x * (1 # 16777216))) at 1.
      apply Qplus_le_compat; [apply Qle_refl|exact H150].
Qed.

(** Moving one coordinate of a vector by [d] moves its length by [d] at
    most. *)
Lemma norm_shift (A c c' : R) :
  (0 <= A)%R ->
  (Rabs (sqrt (A + c' * c') - sqrt (A + c * c)) <= Rabs (c' - c))%R.
Proof.
  intro HA.
  assert (Hhalf : forall a b : R,
             (sqrt (A + b * b) <= sqrt (A + a * a) + Rabs (b - a))%R).
  { intros a b.
    set (u := sqrt (A + a * a)). set (d := Rabs (b - a)).
    assert (Hu0 : (0 <= u)%R) by apply sqrt_pos.
    assert (Hd0 : (0 <= d)%R) by apply Rabs_pos.
    assert (Hu2 : (u * u = A + a * a)%R) by (apply sqrt_sqrt; nra).
    assert (Hd2 : (d * d = (b - a) * (b - a))%R).
    { unfold d, Rabs. destruct (Rcase_abs (b - a)); ring. }
    assert (Hd1 : (b - a <= d)%R) by apply Rle_abs.
    assert (Hd3 : (a - b <= d)%R).
    { unfold d. rewrite <- Rabs_Ropp.
      replace (- (b - a))%R with (a - b)%R by ring. apply Rle_abs. }
    assert (Hua : (a <= u)%R) by nra.
    assert (Hua' : (- a <= u)%R) by nra.
    rewrite <- (sqrt_square (u + d)) by lra.
    apply sqrt_le_1_alt.
    assert (Hprod : (a * (b - a) <= u * d)%R).
    { destruct (Rle_lt_dec 0 a); destruct (Rle_lt_dec 0 (b - a)); nra. }
    nra. }
  apply Rabs_le. split.
  - pose proof (Hhalf c' c) as H. rewrite <- Rabs_Ropp in H.
    replace (- (c - c'))%R with (c' - c)%R in H by ring. lra.
  - pose proof (Hhalf c c') as H. lra.
Qed.

Lemma Q2R_abs x : Q2R (Qabs x) = Rabs (Q2R x).
Proof.
  destruct (Qlt_le_dec x 0) as [H|H].
  - rewrite Qabs_neg by (apply Qlt_le_weak, H).
    apply Qlt_Rlt in H. rewrite RMicromega.Q2R_0 in H.
    rewrite Rabs_left by exact H. apply Q2R_opp.
  - rewrite Qabs_pos by exact H.
    apply Qle_Rle in H. rewrite RMicromega.Q2R_0 in H.
    rewrite Rabs_right; [reflexivity|]. apply Rle_ge, H.
Qed.

(** A vector whose [z] is replaced by a value [z'], seen from a point moved
    to [z = 0]: the distance changes by at most the error of [z']. *)
Lemma dist_shift_within (a b : Vec3) (z' : Q) :
  (Rabs (dist (with_z z' a) (with_z 0 b) - dist a b)
   <= Q2R (Qabs (z' - (vz a - vz b))))%R.
Proof.
  unfold dist, with_z. cbn [vx vy vz].
  rewrite !Q2R_plus, !Q2R_mult, !Q2R_minus, RMicromega.Q2R_0.
  rewrite Q2R_abs, !Q2R_minus.
  set (x := (Q2R (vx a) - Q2R (vx b))%R).
  set (y := (Q2R (vy a) - Q2R (vy b))%R).
  replace (Q2R z' - (Q2R (vz a) - Q2R (vz b)))%R
    with ((Q2R z' - 0) - (Q2R (vz a) - Q2R (vz b)))%R by ring.
  rewrite !Rplus_assoc.
  replace (x * x + (y * y + (Q2R z' - 0) * (Q2R z' - 0)))%R
    with ((x * x + y * y) + (Q2R z' - 0) * (Q2R z' - 0))%R by ring.
  replace (x * x + (y * y + (Q2R (vz a) - Q2R (vz b))
                            * (Q2R (vz a) - Q2R (vz b))))%R
    with ((x * x + y * y) + (Q2R (vz a) - Q2R (vz b))
                            * (Q2R (vz a) - Q2R (vz b)))%R by ring.
  apply norm_shift. nra.
Qed.

Lemma within_16 d : Qabs d <= 16 -> (Q2R (half_ulp d) <= tolerance)%R.
Proof.
  intro H. unfold half_ulp.
  assert (Hq : Qabs d * (1 # 16777216) + 2 ^ (-150) <= 1 # 1000000).
  { assert (H1 : Qabs d * (1 # 16777216) <= 16 * (1 # 16777216))
      by (apply Qmult_le_compat_r; [exact H|discriminate]).
    assert (H2 : 16 * (1 # 16777216) + 2 ^ (-150) <= 1 # 1000000)
      by (vm_compute; discriminate).
    eapply Qle_trans; [|exact H2].
    apply Qplus_le_compat; [exact H1|apply Qle_refl]. }
  apply Qle_Rle in Hq. unfold tolerance.
  replace (1 / 1000000)%R with (Q2R (1 # 1000000)); [exact Hq|].
  unfold Q2R. simpl. lra.
Qed.

Lemma shift_entity_near p e :
  distance_within (half_ulp (z_of e - car_z p)) p (recentered_player p)
    (position e) (position (shift_entity (car_z p) e)).
Proof.
  unfold distance_within, recentered_player, shift_entity, car_z, z_of.
  cbn [position car_position with_car_position].
  change (mkVec3 (vx (car_position p)) (vy (car_position p)) 0)
    with (with_z 0 (car_position p)).
  eapply Rle_trans; [apply dist_shift_within|].
  apply Qle_Rle, f32_near.
Qed.

Lemma shift_car_near p c :
  distance_within (half_ulp (car_z c - car_z p)) p (recentered_player p)
    (car_position c) (car_position (shift_car (car_z p) c)).
Proof.
  unfold distance_within, recentered_player, shift_car, car_z.
  cbn [car_position with_car_position].
  change (mkVec3 (vx (car_position p)) (vy (car_position p)) 0)
    with (with_z 0 (car_position p)).
  eapply Rle_trans; [apply dist_shift_within|].
  apply Qle_Rle, f32_near.
Qed.

(** C4, as the code and the engine have it.  In [generate_more_terrain],
    after the two extension steps, the recentering step runs exactly when
    [abs(player.z) > 1000].  It puts the player at [z = 0] with [x] and [y]
    as they were, and gives every wall, obstacle, coin and opponent the
    float32 nearest to its [z] minus the player's former [z].  The distance
    of each of them to the player changes by at most half the float32
    spacing at its [z] offset from the player, [abs(offset) / 2^24]: within
    [1e-6] for what lies within 16 units of the player in [z]. *)
Theorem recentering_shifts_world (g : Game) (p : Car) (cars : list Car) :
  player g = Some p -> ai_cars g = Some cars -> ready g ->
  let offset := car_z p in
  exists g1 g',
    (extend_forward ;; extend_backward) g = Ret tt g1 /\
    generate_more_terrain g = Ret tt g' /\
    player g1 = Some p /\
    (Qabs offset <= 1000 -> g' = g1) /\
    (1000 < Qabs offset ->
       player g' = Some (recentered_player p) /\
       walls g' = option_map (map (shift_entity offset)) (walls g1) /\
       obstacles g' = option_map (map (shift_entity offset)) (obstacles g1) /\
       coin_entities g' =
         option_map (map (shift_entity offset)) (coin_entities g1) /\
       ai_cars g' = option_map (map (shift_car offset)) (ai_cars g1) /\
       (forall e ws os cs,
          walls g1 = Some ws -> obstacles g1 = Some os ->
          coin_entities g1 = Some cs -> In e (ws ++ os ++ cs) ->
          position (shift_entity offset e) =
            with_z (f32 (z_of e - offset)) (position e) /\
          distance_within (half_ulp (z_of e - offset))
            p (recentered_player p)
            (position e) (position (shift_entity offset e)) /\
          (Qabs (z_of e - offset) <= 16 ->
           distance_kept p (recentered_player p)
             (position e) (position (shift_entity offset e)))) /\
       (forall c cars1,
          ai_cars g1 = Some cars1 -> In c cars1 ->
          car_position (shift_car offset c) =
            with_z (f32 (car_z c - offset)) (car_position c) /\
          distance_within (half_ulp (car_z c - offset))
            p (recentered_player p)
            (car_position c) (car_position (shift_car offset c)) /\
          (Qabs (car_z c - offset) <= 16 ->
           distance_kept p (recentered_player p)
             (car_position c) (car_position (shift_car offset c))))).
Proof.
  intros Hp Ha Hr offset.
  set (g1 := backward_result offset (forward_result offset g)).
  assert (Hp1 : player g1 = Some p).
  { unfold g1. rewrite player_backward, player_forward. exact Hp. }
  assert (Hr1 : ready g1).
  { unfold g1. unfold backward_result.
    destruct (Qlt_bool _ _); [apply ready_segment_added|];
      apply ready_forward, Hr. }
  assert (Ha1 : ai_cars g1 = Some cars).
  { unfold g1, backward_result, forward_result.
    repeat (destruct (Qlt_bool _ _)); exact Ha. }
  assert (Hext : (extend_forward ;; extend_backward) g = Ret tt g1).
  { unfold bind. rewrite (extend_forward_returns g p Hp Hr).
    apply extend_backward_returns;
      [rewrite player_forward; exact Hp | apply ready_forward, Hr]. }
  destruct Hr1 as [_ [Hw1 [Ho1 Hc1]]].
  destruct (walls g1) as [ws|] eqn:Ew; [|congruence].
  destruct (obstacles g1) as [os|] eqn:Eo; [|congruence].
  destruct (coin_entities g1) as [cs|] eqn:Ec; [|congruence].
  exists g1.
  exists (if Qlt_bool 1000 (Qabs offset) then recentered offset g1 else g1).
  split; [exact Hext|]. split.
  { unfold generate_more_terrain.
    change (extend_forward ;; extend_backward ;; recenter)
      with (fun g0 => match extend_forward g0 with
                      | Ret _ g2 => (extend_backward ;; recenter) g2
                      | Exc x g2 => Exc x g2
                      end).
    cbv beta. rewrite (extend_forward_returns g p Hp Hr).
    unfold bind.
    rewrite (extend_backward_returns (forward_result (car_z p) g) p);
      [|rewrite player_forward; exact Hp | apply ready_forward, Hr].
    apply (recenter_returns g1 p ws os cs cars); assumption. }
  split; [exact Hp1|]. split.
  { intro H. apply Qlt_bool_false in H. rewrite H. reflexivity. }
  intro H. apply Qlt_bool_true in H. rewrite H.
  unfold recentered. cbn [player walls obstacles coin_entities ai_cars
    with_ai_cars with_coin_entities with_obstacles with_walls with_player].
  rewrite Hp1, Ew, Eo, Ec, Ha1.
  do 5 (split; [reflexivity|]). split.
  - intros e _ _ _ _ _ _ _. split; [reflexivity|].
    pose proof (shift_entity_near p e) as Hn. split; [exact Hn|].
    intro Hclose. unfold distance_kept.
    eapply Rle_trans; [exact Hn|]. apply within_16, Hclose.
  - intros c _ _ _. split; [reflexivity|].
    pose proof (shift_car_near p c) as Hn. split; [exact Hn|].
    intro Hclose. unfold distance_kept.
    eapply Rle_trans; [exact Hn|]. apply within_16, Hclose.
Qed.

End Recentering.

Lemma recentering_shifts_world_witness :
  let p := car_at_1050 in
  let offset := car_z p in
  exists g1 g',
    (extend_forward ;; extend_backward) at_1050 = Ret tt g1 /\
    generate_more_terrain at_1050 = Ret tt g' /\
    player g1 = Some p /\
    (Qabs offset <= 1000 -> g' = g1) /\
    (1000 < Qabs offset ->
       player g' = Some (recentered_player p) /\
       walls g' = option_map (map (shift_entity offset)) (walls g1) /\
       obstacles g' = option_map (map (shift_entity offset)) (obstacles g1) /\
       coin_entities g' =
         option_map (map (shift_entity offset)) (coin_entities g1) /\
       ai_cars g' = option_map (map (shift_car offset)) (ai_cars g1) /\
       (forall e ws os cs,
          walls g1 = Some ws -> obstacles g1 = Some os ->
          coin_entities g1 = Some cs -> In e (ws ++ os ++ cs) ->
          position (shift_entity offset e) =
            with_z (f32 (z_of e - offset)) (position e) /\
          distance_within (half_ulp (z_of e - offset))
            p (recentered_player p)
            (position e) (position (shift_entity offset e)) /\
          (Qabs (z_of e - offset) <= 16 ->
           distance_kept p (recentered_player p)
             (position e) (position (shift_entity offset e)))) /\
       (forall c cars1,
          ai_cars g1 = Some cars1 -> In c cars1 ->
          car_position (shift_car offset c) =
            with_z (f32 (car_z c - offset)) (car_position c) /\
          distance_within (half_ulp (car_z c - offset))
            p (recentered_player p)
            (car_position c) (car_position (shift_car offset c)) /\
          (Qabs (car_z c - offset) <= 16 ->
           distance_kept p (recentered_player p)
             (car_position c) (car_position (shift_car offset c))))).
Proof.
  apply (recentering_shifts_world at_1050 car_at_1050 (opponents at_1050)).
  - vm_compute. reflexivity.
  - vm_compute. reflexivity.
  - unfold ready. vm_compute. repeat split; discriminate.
Defined.

Lemma dist_above (c : Q) (a b : Vec3) :
  0 <= c ->
  c * c <= (vx a - vx b) * (vx a - vx b) + (vy a - vy b) * (vy a - vy b) +
           (vz a - vz b) * (vz a - vz b) ->
  (Q2R c <= dist a b)%R.
Proof.
  intros Hc H. apply Qle_Rle in Hc, H. rewrite Q2R_mult in H.
  rewrite RMicromega.Q2R_0 in Hc. unfold dist.
  rewrite <- (sqrt_square (Q2R c)) by exact Hc.
  apply sqrt_le_1_alt. exact H.
Qed.

Lemma dist_below (c : Q) (a b : Vec3) :
  0 <= c ->
  (vx a - vx b) * (vx a - vx b) + (vy a - vy b) * (vy a - vy b) +
  (vz a - vz b) * (vz a - vz b) <= c * c ->
  (dist a b <= Q2R c)%R.
Proof.
  intros Hc H. apply Qle_Rle in Hc, H. rewrite Q2R_mult in H.
  rewrite RMicromega.Q2R_0 in Hc. unfold dist.
  rewrite <- (sqrt_square (Q2R c)) by exact Hc.
  apply sqrt_le_1_alt. exact H.
Qed.

(** C4, as stated, fails on the tolerance.  The player of a new world has
    driven to [z = 1000 + 2^-14], a float32, and the frame recenters.  The
    first wall, at [z = -50], is 1050.00006 behind the player; around 1050
    the float32 values are [2^-13] apart, so the wall is stored at
    [z = -1050] and its distance to the player has changed by about
    [6e-5], more than [1e-6]. *)
Lemma recentering_rounds_far_wall :
  let p := car_past_1000 in
  let wall := wall_left (-50) in
  let g' := final (generate_more_terrain past_1000) in
  player past_1000 = Some p /\
  returned (generate_more_terrain past_1000) = true /\
  option_map (fun ws => nth_error ws 0) (walls past_1000)
    = Some (Some wall) /\
  option_map (fun ws => nth_error ws 0) (walls g')
    = Some (Some (shift_entity (car_z p) wall)) /\
  z_of wall - car_z p == - (17203201 # 16384) /\
  z_of (shift_entity (car_z p) wall) == -1050 /\
  player g' = Some (recentered_player p) /\
  ~ distance_kept p (recentered_player p)
      (position wall) (position (shift_entity (car_z p) wall)).
Proof.
  cbv zeta.
  split; [vm_compute; reflexivity|]. split; [vm_compute; reflexivity|].
  split; [vm_compute; reflexivity|]. split; [vm_compute; reflexivity|].
  split; [vm_compute; reflexivity|]. split; [vm_compute; reflexivity|].
  split; [vm_compute; reflexivity|].
  unfold distance_kept. intro H.
  assert (Hb : (Q2R (105010731 # 100000)
                <= dist (position (wall_left (-50)))
                        (car_position car_past_1000))%R).
  { apply dist_above; vm_compute; discriminate. }
  assert (Ha : (dist (position (shift_entity (car_z car_past_1000)
                                             (wall_left (-50))))
                     (car_position (recentered_player car_past_1000))
                <= Q2R (105010726 # 100000))%R).
  { apply dist_below; vm_compute; discriminate. }
  set (after := dist _ _) in H, Ha. set (before := dist _ _) in H, Hb.
  assert (Hgap : (Q2R (105010726 # 100000) + tolerance
                  < Q2R (105010731 # 100000))%R)
    by (unfold tolerance, Q2R; simpl; lra).
  pose proof (Rle_abs (- (after - before))) as Hle.
  rewrite Rabs_Ropp in Hle. lra.
Qed.

(** ** Saving and loading *)

(** Two games with the same attributes are the same game. *)
Lemma game_ext (a b : Game) :
  game_state a = game_state b ->
  difficulty a = difficulty b ->
  ai_speed_factor a = ai_speed_factor b ->
  coins a = coins b ->
  level a = level b ->
  total_coins a = total_coins b ->
  score a = score b ->
  auto_save_timer a = auto_save_timer b ->
  textures a = textures b ->
  world_seed a = world_seed b ->
  min_generated_z a = min_generated_z b ->
  max_generated_z a = max_generated_z b ->
  walls a = walls b ->
  obstacles a = obstacles b ->
  coin_entities a = coin_entities b ->
  ai_cars a = ai_cars b ->
  player a = player b ->
  rng a = rng b ->
  savegame a = savegame b ->
  console a = console b ->
  a = b.
Proof.
  destruct a, b; simpl; intros; subst; reflexivity.
Qed.

Section Persistence.

Context {prng : Random} {engine : Engine}.

Lemma bind_returns {A B} (c : M A) (k : A -> M B) g a g' :
  c g = Ret a g' -> bind c k g = k a g'.
Proof. intro H. unfold bind. rewrite H. reflexivity. Qed.

Lemma save_game_returns g p cs cars :
  player g = Some p -> coin_entities g = Some cs -> ai_cars g = Some cars ->
  filter enabled cs = [] ->
  save_game g =
  Ret tt (with_console (console g ++ [Printed "Spiel gespeichert!"])
            (with_savegame (Some (Json (record_of g p cs cars))) g)).
Proof.
  intros Hp Hc Ha He.
  unfold save_game, write_save, bind, get, attr, modify, print.
  rewrite Hp, Hc, Ha. cbn [sv_coins]. unfold record_of.
  rewrite He. reflexivity.
Qed.

Lemma save_game_raises g p cs cars :
  player g = Some p -> coin_entities g = Some cs -> ai_cars g = Some cars ->
  filter enabled cs <> [] ->
  save_game g =
  Exc (TypeError "Object of type Vec3 is not JSON serializable")
      (with_savegame (Some (Garbage "{")) g).
Proof.
  intros Hp Hc Ha He.
  unfold save_game, write_save, bind, get, attr, modify, raise, print.
  rewrite Hp, Hc, Ha. cbn [sv_coins].
  destruct (filter enabled cs); [congruence|reflexivity].
Qed.

Lemma create_track_returns g t :
  textures g = Some t -> coin_entities g <> None ->
  create_track g = Ret tt (track_created g).
Proof.
  intros Ht Hc. unfold create_track, bind, texture, modify, get.
  rewrite Ht.
  cbn [min_generated_z max_generated_z with_max_generated_z
       with_min_generated_z].
  unfold track_created. apply ready_returns. unfold ready.
  cbn [textures walls obstacles coin_entities with_max_generated_z
       with_min_generated_z with_obstacles with_walls].
  rewrite Ht. repeat split; try discriminate. exact Hc.
Qed.

Lemma load_coins_returns l : forall g t cs,
  textures g = Some t -> coin_entities g = Some cs ->
  for_each l load_coin g =
  Ret tt (with_total_coins (total_coins g + Z.of_nat (List.length l))
            (with_coin_entities (Some (cs ++ map coin_at l)) g)).
Proof.
  induction l as [|v l IH]; intros g t cs Ht Hc; cbn [for_each].
  - unfold ret. f_equal. destruct g; simpl in *. subst.
    rewrite app_nil_r, Z.add_0_r. reflexivity.
  - unfold bind at 1. unfold load_coin, bind, texture, attr, modify.
    rewrite Ht, Hc.
    erewrite IH; [|exact Ht|reflexivity].
    cbn [total_coins with_total_coins with_coin_entities List.length map].
    rewrite <- app_assoc.
    replace (total_coins g + 1 + Z.of_nat (List.length l))%Z
      with (total_coins g + Z.of_nat (S (List.length l)))%Z by lia.
    reflexivity.
Qed.

Lemma load_ai_cars_returns ds : forall i g cars,
  ai_cars g = Some cars ->
  load_ai_cars i ds g =
  Ret tt (with_ai_cars (Some (cars ++ map car_of_data ds))
            (with_rng (ai_rng (world_seed g) i ds (rng g)) g)).
Proof.
  induction ds as [|d ds IH]; intros i g cars Ha; cbn [load_ai_cars ai_rng map].
  - unfold ret. f_equal. destruct g; simpl in *. subst.
    rewrite app_nil_r. reflexivity.
  - unfold bind at 1.
    unfold load_ai_car, generate_car_texture, seed, bind, get, attr, modify.
    cbn [ai_cars with_rng]. rewrite Ha.
    erewrite IH; [|reflexivity].
    cbn [world_seed rng with_ai_cars with_rng]. rewrite <- app_assoc.
    reflexivity.
Qed.

Lemma destroy_all_returns g : destroy_all g = Ret tt (destroyed g).
Proof. reflexivity. Qed.

Lemma destroyed_coin_entities g :
  coin_entities (destroyed g) = option_map (map destroy) (coin_entities g).
Proof.
  unfold destroyed.
  assert (H1 : forall g0, coin_entities (destroy_player g0) = coin_entities g0)
    by (intro g0; unfold destroy_player; destruct (player g0); reflexivity).
  assert (H2 : forall g0,
             coin_entities (destroy_obstacles g0) = coin_entities g0)
    by (intro g0; unfold destroy_obstacles; destruct (obstacles g0);
        reflexivity).
  assert (H3 : forall g0, coin_entities (destroy_walls g0) = coin_entities g0)
    by (intro g0; unfold destroy_walls; destruct (walls g0); reflexivity).
  assert (H4 : forall g0, coin_entities (destroy_cars g0) = coin_entities g0)
    by (intro g0; unfold destroy_cars; destruct (ai_cars g0); reflexivity).
  rewrite H1, H2, H3, H4. unfold destroy_coins.
  destruct (coin_entities g) eqn:E; simpl; [reflexivity | exact E].
Qed.

Lemma load_record_returns r g :
  coin_entities g <> None ->
  load_record r g = Ret tt (loaded r g).
Proof.
  intro Hc. unfold load_record.
  rewrite (bind_returns _ _ _ _ _ (destroy_all_returns g)).
  do 2 (erewrite bind_returns by reflexivity).
  erewrite (bind_returns generate_textures) by reflexivity. flat.
  do 2 (erewrite bind_returns by reflexivity). flat.
  erewrite (bind_returns create_track).
  2:{ apply (create_track_returns _ (sv_world_seed r)); [reflexivity|].
      flat. rewrite destroyed_coin_entities.
      destruct (coin_entities g); [discriminate|congruence]. }
  flat.
  do 2 (erewrite bind_returns by reflexivity). flat.
  erewrite (bind_returns (for_each _ _)).
  2:{ apply (load_coins_returns _ _ (sv_world_seed r) []); reflexivity. }
  flat.
  erewrite bind_returns by reflexivity. flat.
  erewrite (bind_returns (load_ai_cars _ _)).
  2:{ apply (load_ai_cars_returns _ _ _ []). reflexivity. }
  flat.
  erewrite (bind_returns (load_player _)) by reflexivity. flat.
  unfold bind, modify, loaded. apply (f_equal (Ret tt)).
  apply game_ext; flat; reflexivity.
Qed.

Lemma load_game_returns r g :
  savegame g = Some (Json r) -> coin_entities g <> None ->
  load_game g = Ret tt (loaded r g).
Proof.
  intros Hs Hc. unfold load_game, bind, get. rewrite Hs.
  apply load_record_returns, Hc.
Qed.

End Persistence.

Section Loading.

Context {prng : Random} {engine : Engine}.

(** C5, as the code has it.  When the save file holds a record and the game
    has a coin list, [load_game] returns with [score], [level] and the
    collected-coins counter as the record's [game_state] has them;
    [total_coins] is not read from the record: it is the number of coin
    positions the record holds. *)
Theorem load_restores_progress (r : SaveRecord) (g : Game) :
  savegame g = Some (Json r) -> coin_entities g <> None ->
  exists g',
    load_game g = Ret tt g' /\
    score g' = gs_score (sv_game_state r) /\
    level g' = gs_level (sv_game_state r) /\
    coins g' = gs_coins (sv_game_state r) /\
    total_coins g' = Z.of_nat (List.length (sv_coins r)).
Proof.
  intros Hs Hc. exists (loaded r g).
  split; [apply load_game_returns; assumption|].
  unfold loaded. flat. repeat split; reflexivity.
Qed.

(** Whatever bounds the record holds, [load_game] returns with the bounds
    of a new track, and with walls for that track only. *)
Lemma load_game_bounds (r : SaveRecord) (g : Game) :
  savegame g = Some (Json r) -> coin_entities g <> None ->
  exists g',
    load_game g = Ret tt g' /\
    min_generated_z g' = -50 /\ max_generated_z g' = 50 /\
    walls g' = Some (walls_after (wall_rounds (-50) 50) (-50) 50 []).
Proof.
  intros Hs Hc. exists (loaded r g).
  split; [apply load_game_returns; assumption|].
  unfold loaded. flat. repeat split; reflexivity.
Qed.

Lemma load_game_missing (g : Game) :
  savegame g = None ->
  load_game g =
  Ret tt (with_console (console g ++ [Printed "Kein Speicherstand gefunden!"]) g).
Proof.
  intro H. unfold load_game, bind, get. rewrite H. reflexivity.
Qed.

Lemma load_game_corrupt (g : Game) (text : string) :
  savegame g = Some (Garbage text) -> load_game g = Exc JSONDecodeError g.
Proof.
  intro H. unfold load_game, bind, get. rewrite H. reflexivity.
Qed.

End Loading.

Lemma load_restores_progress_witness :
  exists g',
    load_game with_two_coins_saved = Ret tt g' /\
    score g' = gs_score (sv_game_state two_coins_left) /\
    level g' = gs_level (sv_game_state two_coins_left) /\
    coins g' = gs_coins (sv_game_state two_coins_left) /\
    total_coins g' = Z.of_nat (List.length (sv_coins two_coins_left)).
Proof.
  apply (load_restores_progress two_coins_left with_two_coins_saved).
  - reflexivity.
  - vm_compute. discriminate.
Defined.

(** C5, as stated, fails on [total_coins]: the save file holds a record
    whose [game_state] says [total_coins = 20] next to two coin positions;
    [load_game] returns with [total_coins = 2]. *)
Lemma load_recounts_total_coins :
  let g' := final (load_game with_two_coins_saved) in
  saved_record with_two_coins_saved = Some two_coins_left /\
  returned (load_game with_two_coins_saved) = true /\
  gs_total_coins (sv_game_state two_coins_left) = 20%Z /\
  List.length (sv_coins two_coins_left) = 2%nat /\
  total_coins g' = 2%Z.
Proof. vm_compute. repeat split; reflexivity. Qed.

(** C1 on the code: the save file holds a record of the seed 42 with the
    bounds [-50] and [100], those of the world streamed one segment ahead.
    [load_game] returns with the seed of the record, but with the bounds of
    a new track instead of the record's, and without the walls beyond
    [z = 50] that the streamed world has. *)
Theorem load_forgets_streamed_track :
  let r := two_coins_left in
  let g' := final (load_game with_two_coins_saved) in
  saved_record with_two_coins_saved = Some r /\
  returned (load_game with_two_coins_saved) = true /\
  world_seed g' = sv_world_seed r /\
  (sv_min_generated_z r, sv_max_generated_z r) = (-50, 100) /\
  (min_generated_z g', max_generated_z g') = (-50, 50) /\
  world_seed streamed = sv_world_seed r /\
  (min_generated_z streamed, max_generated_z streamed) = (-50, 100) /\
  count (walls streamed) = Some 152%nat /\
  count (walls g') = Some 102%nat /\
  beyond 50 (walls streamed) = true /\
  beyond 50 (walls g') = false.
Proof. vm_compute. repeat split; reflexivity. Qed.

(** C9 on the code: without a save file [load_game] prints that there is
    none and changes nothing else; with a save file that does not parse it
    raises the decoding error, out of [load_game] and out of
    [start_game], with nothing printed. *)
Theorem load_game_corrupt_raises :
  load_game (init None) =
    Ret tt (with_console [Printed "Kein Speicherstand gefunden!"] (init None)) /\
  load_game paused_corrupt = Exc JSONDecodeError paused_corrupt /\
  start_game true 7 (init (Some (Garbage "{"))) =
    Exc JSONDecodeError
        (with_score 0 (with_game_state Playing (init (Some (Garbage "{"))))).
Proof. repeat split; reflexivity. Qed.

(** * More properties *)

(** ** Frame rules with the assignments spelt out *)

Ltac flat_in H :=
  cbn [game_state difficulty ai_speed_factor coins level total_coins score
       auto_save_timer textures world_seed min_generated_z max_generated_z
       walls obstacles coin_entities ai_cars player rng savegame console
       with_game_state with_difficulty with_ai_speed_factor with_coins
       with_level with_total_coins with_score with_auto_save_timer
       with_textures with_world_seed with_min_generated_z
       with_max_generated_z with_walls with_obstacles with_coin_entities
       with_ai_cars with_player with_rng with_savegame with_console
       rng_seed rng_pos seeded segment_added track_created final] in H.

Section Pointwise.

Context (R : Game -> Game -> Prop) {R_pre : PreOrder R}.

Lemma get_then {B} (k : Game -> M B) g :
  R g (final (k g g)) -> R g (final (bind get k g)).
Proof. intro H. exact H. Qed.

Lemma attr_then {A B} name (field : Game -> option A) (k : A -> M B) g :
  (forall a, field g = Some a -> R g (final (k a g))) ->
  R g (final (bind (attr name field) k g)).
Proof.
  intro H. unfold bind, attr. destruct (field g) eqn:E; simpl.
  - apply H. reflexivity.
  - reflexivity.
Qed.

Lemma steps_then {A B} (c : M A) (k : A -> M B) g :
  steps R c -> (forall a, steps R (k a)) -> R g (final (bind c k g)).
Proof. intros Hc Hk. apply (steps_bind R); assumption. Qed.

End Pointwise.

Ltac walk :=
  cbv zeta;
  lazymatch goal with
  | |- steps ?R (ret _) => apply (steps_ret R)
  | |- steps ?R get => apply (steps_get R)
  | |- steps ?R (attr _ _) => apply (steps_attr R)
  | |- steps ?R (texture _) => apply (steps_texture R)
  | |- steps ?R (raise _) => apply (steps_raise R)
  | |- steps ?R (bind (attr _ _) _) => apply (steps_bind_attr R); intros ? ? ?
  | |- steps ?R (bind get _) => apply (steps_bind_get R); intro
  | |- steps ?R (bind _ _) => apply (steps_bind R); [ | intro]
  | |- steps ?R (try_except _ _) => apply (steps_try R); [ | intro]
  | |- steps ?R (if _ then _ else _) => apply (steps_if R)
  | |- steps ?R (repeat_m _ _) => apply (steps_repeat R)
  | |- steps ?R (for_each _ _) => apply (steps_for_each R); intro
  | |- steps ?R (modify _) => apply (steps_modify R); intro
  | |- steps ?R (match ?x with _ => _ end) => destruct x
  | |- ?R ?g (final (bind (modify _) _ ?g)) => apply (modify_then R)
  | |- ?R ?g (final (try_except _ _ ?g)) => apply (steps_try R); [ | intro]
  | |- ?R ?g (final (bind get _ ?g)) => apply (get_then R)
  | |- ?R ?g (final (bind (attr _ _) _ ?g)) => apply (attr_then R); intros ? ?
  | |- ?R ?g (final ((if ?b then _ else _) ?g)) => destruct b
  | |- ?R ?g (final ((match ?x with _ => _ end) ?g)) => destruct x
  | |- ?R ?g (final (ret _ ?g)) => reflexivity
  | |- ?R ?g (final (modify _ ?g)) => unfold modify, final
  end.

Section MoreFrames.

Context {prng : Random} {engine : Engine}.
Context (R : Game -> Game -> Prop) {R_pre : PreOrder R}.

Lemma steps_walls_with s e :
  (forall z, steps R (place_walls z)) -> ignores R with_console ->
  steps R (generate_walls s e).
Proof.
  intros Hw Hc. unfold generate_walls. walk.
  - generalize (wall_rounds s e) as n. intro n. generalize s as z.
    induction n as [|n IH]; intro z; cbn [wall_loop]; [walk|].
    walk; [|walk]. walk; [apply Hw | apply IH].
  - unfold print. walk. apply Hc.
Qed.

Lemma steps_segment_with s e :
  steps R (generate_walls s e) -> ignores R with_rng ->
  (forall g os x, obstacles g = Some os ->
                  R g (with_obstacles (Some (os ++ [x])) g)) ->
  (forall g cs x, coin_entities g = Some cs ->
                  R g (with_coin_entities (Some (cs ++ [x])) g)) ->
  (forall g, R g (with_total_coins (total_coins g + 1) g)) ->
  steps R (generate_track_segment s e).
Proof.
  intros Hw Hr Ho Hc Ht. unfold generate_track_segment.
  walk; [exact Hw|]. walk.
  - walk. unfold place_obstacle.
    walk; [apply steps_uniform; assumption|].
    walk; [apply steps_uniform; assumption|].
    walk; [walk|]. walk. walk. apply Ho. assumption.
  - walk. unfold place_coin.
    walk; [apply steps_uniform; assumption|].
    walk; [apply steps_uniform; assumption|].
    walk; [walk|]. walk. walk; [apply Hc; assumption|].
    walk. apply Ht.
Qed.

Lemma steps_terrain_with :
  (forall s e, steps R (generate_track_segment s e)) ->
  (forall g, R g (with_max_generated_z (max_generated_z g + 50) g)) ->
  (forall g, R g (with_min_generated_z (min_generated_z g - 50) g)) ->
  ignores R with_player ->
  (forall g ws o, walls g = Some ws ->
                  R g (with_walls (Some (map (shift_entity o) ws)) g)) ->
  (forall g os o, obstacles g = Some os ->
                  R g (with_obstacles (Some (map (shift_entity o) os)) g)) ->
  (forall g cs o, coin_entities g = Some cs ->
                  R g (with_coin_entities (Some (map (shift_entity o) cs)) g)) ->
  ignores R with_ai_cars ->
  steps R generate_more_terrain.
Proof.
  intros Hseg Hmax Hmin Hp Hw Ho Hc Ha.
  unfold generate_more_terrain. walk; [|walk].
  - unfold extend_forward. walk. walk. walk; [|reflexivity].
    walk; [apply Hmax|]. walk. apply Hseg.
  - unfold extend_backward. walk. walk. walk; [|reflexivity].
    walk; [apply Hmin|]. walk. apply Hseg.
  - unfold recenter. walk. walk; [|reflexivity].
    walk; [apply Hp|]. walk. walk; [apply Hw; assumption|].
    walk. walk; [apply Ho; assumption|].
    walk. walk; [apply Hc; assumption|].
    walk. walk. apply Ha.
Qed.

Lemma steps_update_with dt :
  (forall i, steps R (collect_coin i)) ->
  (forall e, steps R (bounce dt e)) -> (forall car, steps R (bump car)) ->
  steps R generate_more_terrain -> steps R (auto_save dt) ->
  ignores R with_console ->
  steps R (update dt).
Proof.
  intros Hcoin Hbounce Hbump Hterrain Hsave Hc.
  unfold update, print. walk; [|walk; apply Hc].
  walk. walk; try reflexivity.
  apply (steps_then R); [|intro].
  - unfold collisions. apply (steps_bind R); [walk|intro].
    apply (steps_bind R); [walk|intro cs]. apply (steps_bind R); [|intro].
    { walk. unfold check_coin. apply (steps_bind R); [walk|intro].
      apply (steps_bind R); [walk|intro]. walk; [|walk].
      walk; [apply Hcoin|walk]. }
    apply (steps_bind R); [walk|intro]. apply (steps_bind R); [walk|intro].
    apply (steps_bind R); [walk; apply Hbounce|intro].
    apply (steps_bind R); [walk|intro]. walk. apply Hbump.
  - unfold streaming. apply (steps_bind R); [walk|intro].
    walk; [|walk]. walk; [apply Hterrain | apply Hsave].
Qed.

End MoreFrames.

(** ** Segments in general *)

Section AnySegment.

Context {prng : Random}.

Lemma py_int_negative q : q < 0 -> (py_int q <= 0)%Z.
Proof.
  unfold Qlt, py_int. simpl. intro H. rewrite Z.mul_1_r in H.
  apply Z.quot_le_upper_bound; lia.
Qed.

(** X1. For [start_z <= end_z], [generate_track_segment] on a game with its
    textures and collections returns, having appended walls of the interval
    only, [max(5, int((end_z - start_z) / 10))] obstacles and
    [max(10, int((end_z - start_z) / 5))] coins, each with [x] in
    [[-12, 12]] and [z] in the interval, and having raised [total_coins] by
    the number of coins. *)
Theorem segment_contents (s e : Q) (g : Game) (t : Z) (ws os cs : list Entity) :
  unit_stream -> s <= e ->
  textures g = Some t -> walls g = Some ws ->
  obstacles g = Some os -> coin_entities g = Some cs ->
  exists g' new_ws new_os new_cs,
    generate_track_segment s e g = Ret tt g' /\
    walls g' = Some (ws ++ new_ws) /\ Forall (wall_within s e) new_ws /\
    obstacles g' = Some (os ++ new_os) /\
    Z.of_nat (List.length new_os) = Z.max 5 (py_int ((e - s) / 10)) /\
    Forall (in_box s e) new_os /\
    coin_entities g' = Some (cs ++ new_cs) /\
    Z.of_nat (List.length new_cs) = Z.max 10 (py_int ((e - s) / 5)) /\
    Forall (in_box s e) new_cs /\
    total_coins g' = (total_coins g + Z.of_nat (List.length new_cs))%Z.
Proof.
  intros Hu Hse Ht Hw Ho Hc.
  destruct (walls_after_extends (wall_rounds s e) s e ws) as [added [E Hall]].
  exists (segment_added s e g), added.
  exists (scatter (Z.to_nat (num_obstacles s e)) (rng g) s e).
  exists (scatter (Z.to_nat (num_coins s e))
                  (skip (2 * Z.to_nat (num_obstacles s e)) (rng g)) s e).
  split; [apply (generate_track_segment_returns s e g t ws os cs); auto|].
  unfold segment_added. flat. rewrite Hw, Ho, Hc, E, !length_scatter.
  unfold num_obstacles, num_coins.
  repeat split; try reflexivity; try lia; try exact Hall;
    apply scatter_in_box; assumption.
Qed.

(** X2. For [end_z < start_z] the wall loop does not run: the call returns
    with the walls as they were, and still with 5 obstacles and 10 coins
    more, scattered between [end_z] and [start_z]. *)
Theorem segment_reversed (s e : Q) (g : Game) (t : Z) (ws os cs : list Entity) :
  unit_stream -> e < s ->
  textures g = Some t -> walls g = Some ws ->
  obstacles g = Some os -> coin_entities g = Some cs ->
  exists g' new_os new_cs,
    generate_track_segment s e g = Ret tt g' /\
    walls g' = Some ws /\
    obstacles g' = Some (os ++ new_os) /\ List.length new_os = 5%nat /\
    coin_entities g' = Some (cs ++ new_cs) /\ List.length new_cs = 10%nat /\
    Forall (fun x => e <= z_of x /\ z_of x <= s) (new_os ++ new_cs) /\
    total_coins g' = (total_coins g + 10)%Z.
Proof.
  intros Hu Hes Ht Hw Ho Hc.
  assert (Hn : num_obstacles s e = 5%Z).
  { unfold num_obstacles.
    pose proof (py_int_negative ((e - s) / 10)) as H.
    assert ((e - s) / 10 < 0).
    { apply Qlt_shift_div_r; [reflexivity|]. lra. }
    specialize (H H0). lia. }
  assert (Hm : num_coins s e = 10%Z).
  { unfold num_coins.
    pose proof (py_int_negative ((e - s) / 5)) as H.
    assert ((e - s) / 5 < 0).
    { apply Qlt_shift_div_r; [reflexivity|]. lra. }
    specialize (H H0). lia. }
  assert (Hwalls : walls_after (wall_rounds s e) s e ws = ws).
  { destruct (wall_rounds s e); cbn [walls_after]; [reflexivity|].
    assert (Hf : Qle_bool s e = false) by (apply Qle_bool_false; exact Hes).
    rewrite Hf. reflexivity. }
  assert (Hz : forall n r, Forall (fun x => e <= z_of x /\ z_of x <= s)
                                  (scatter n r s e)).
  { induction n as [|n IH]; intro r; simpl; constructor; [|apply IH].
    unfold scattered, z_of. simpl.
    destruct (Hu (rng_seed r) (S (rng_pos r))) as [H0 H1].
    assert (0 <= (s - e) * mt (rng_seed r) (S (rng_pos r)))
      by (apply Qmult_le_0_compat; lra).
    assert (0 <= (s - e) * (1 - mt (rng_seed r) (S (rng_pos r))))
      by (apply Qmult_le_0_compat; lra).
    split; lra. }
  exists (segment_added s e g).
  exists (scatter 5 (rng g) s e), (scatter 10 (skip (2 * 5) (rng g)) s e).
  split; [apply (generate_track_segment_returns s e g t ws os cs); auto|].
  unfold segment_added. flat. rewrite Hw, Ho, Hc, Hwalls, Hn, Hm.
  change (Z.to_nat 5) with 5%nat. change (Z.to_nat 10) with 10%nat.
  rewrite !length_scatter.
  repeat split; try reflexivity.
  apply Forall_app. split; apply Hz.
Qed.

(** X3. No gaps: after [generate_track_segment(start_z, end_z)] on a game
    whose walls are as the generator leaves them, every step
    [start_z + 2 * k] up to [end_z] has a left wall and a right wall within
    0.1 of it, placed by this call or found by its scan. *)
Theorem segment_has_no_gaps (s e : Q) (g : Game) (k : nat) :
  walls_ok g -> ready g ->
  s + inject_Z (2 * Z.of_nat k) <= e ->
  exists ws,
    walls (final (generate_track_segment s e g)) = Some ws /\
    existsb (near (s + inject_Z (2 * Z.of_nat k))) (filter is_left ws) = true /\
    existsb (near (s + inject_Z (2 * Z.of_nat k))) (filter is_right ws) = true.
Proof.
  intros Hok Hr Hk.
  pose proof (generate_track_segment_ok s e g Hok) as [ws [Hw [_ Hp]]].
  exists ws. split; [exact Hw|].
  rewrite (ready_returns s e g Hr) in Hw. unfold segment_added in Hw.
  flat_in Hw.
  destruct Hok as [ws0 [Hw0 _]]. rewrite Hw0 in Hw. injection Hw as Hw.
  pose proof (walls_after_covers (wall_rounds s e) s e ws0 k
                (grid_within_rounds s e k Hk) Hk) as Hcov.
  rewrite Hw in Hcov.
  destruct (paired_scans_agree ws Hp (s + inject_Z (2 * Z.of_nat k)))
    as [Hl Hrt].
  rewrite <- Hl, <- Hrt. split; exact Hcov.
Qed.

End AnySegment.

Lemma segment_contents_witness :
  exists g' new_ws new_os new_cs,
    generate_track_segment 50 100 empty_track = Ret tt g' /\
    walls g' = Some ([] ++ new_ws) /\ Forall (wall_within 50 100) new_ws /\
    obstacles g' = Some ([] ++ new_os) /\
    Z.of_nat (List.length new_os) = Z.max 5 (py_int ((100 - 50) / 10)) /\
    Forall (in_box 50 100) new_os /\
    coin_entities g' = Some ([] ++ new_cs) /\
    Z.of_nat (List.length new_cs) = Z.max 10 (py_int ((100 - 50) / 5)) /\
    Forall (in_box 50 100) new_cs /\
    total_coins g' =
      (total_coins empty_track + Z.of_nat (List.length new_cs))%Z.
Proof.
  apply (segment_contents 50 100 empty_track 42 [] [] [] lcg_unit);
    [discriminate | reflexivity ..].
Defined.

Lemma segment_reversed_witness :
  exists g' new_os new_cs,
    generate_track_segment 50 0 empty_track = Ret tt g' /\
    walls g' = Some [] /\
    obstacles g' = Some ([] ++ new_os) /\ List.length new_os = 5%nat /\
    coin_entities g' = Some ([] ++ new_cs) /\ List.length new_cs = 10%nat /\
    Forall (fun x => 0 <= z_of x /\ z_of x <= 50) (new_os ++ new_cs) /\
    total_coins g' = (total_coins empty_track + 10)%Z.
Proof.
  apply (segment_reversed 50 0 empty_track 42 [] [] [] lcg_unit);
    reflexivity.
Defined.

Lemma segment_has_no_gaps_witness :
  exists ws,
    walls (final (generate_track_segment 0 50 empty_track)) = Some ws /\
    existsb (near (0 + inject_Z (2 * Z.of_nat 25))) (filter is_left ws)
      = true /\
    existsb (near (0 + inject_Z (2 * Z.of_nat 25))) (filter is_right ws)
      = true.
Proof.
  apply (segment_has_no_gaps 0 50 empty_track 25).
  - exists []. split; [reflexivity|]. split; [constructor|]. intros w [].
  - repeat split; vm_compute; discriminate.
  - vm_compute. discriminate.
Defined.

(** ** Invariants of a session *)

#[global] Instance coins_grow_pre : PreOrder coins_grow.
Proof.
  split.
  - intro g. unfold coins_grow. lia.
  - intros a b c H1 H2. unfold coins_grow in *. lia.
Qed.

#[global] Instance keeps_progress_ok_pre : PreOrder keeps_progress_ok.
Proof.
  split.
  - intros g H. exact H.
  - intros a b c H1 H2 H. auto.
Qed.

Section Session.

Context {prng : Random} {engine : Engine}.

Ltac same_coins := unfold ignores, coins_grow; intros; flat; lia.

Lemma segment_coins_grow s e : steps coins_grow (generate_track_segment s e).
Proof.
  apply (steps_segment_with coins_grow); try same_coins.
  apply (steps_generate_walls coins_grow); same_coins.
Qed.

Lemma terrain_coins_grow : steps coins_grow generate_more_terrain.
Proof.
  apply (steps_terrain_with coins_grow); try same_coins.
  apply segment_coins_grow.
Qed.

(** X4. [total_coins] never decreases in play: not in a segment generation,
    whether it returns or raises, and not in a frame. *)
Theorem total_coins_only_grows (dt s e : Q) (g : Game) :
  (total_coins g <= total_coins (final (generate_track_segment s e g)))%Z /\
  (total_coins g <= total_coins (final (update dt g)))%Z.
Proof.
  split; [apply segment_coins_grow|].
  apply (steps_update_with coins_grow); try same_coins.
  - intro i. apply (steps_collect_coin coins_grow); same_coins.
  - intro x. unfold bounce. repeat walk; same_coins.
  - intro car. unfold bump. repeat walk; same_coins.
  - apply terrain_coins_grow.
  - apply (steps_auto_save coins_grow); same_coins.
Qed.

Ltac progress_kept :=
  unfold ignores, keeps_progress_ok, progress_ok; intros; flat; lia.

Lemma collect_coin_progress i : steps keeps_progress_ok (collect_coin i).
Proof.
  unfold collect_coin, level_up, print.
  repeat walk; try progress_kept.
Qed.

(** X5. A frame keeps the score and the collected-coins counter from going
    negative and the level from dropping below 1: rewards add, penalties
    stop at 0. *)
Theorem score_never_negative (dt : Q) (g : Game) :
  progress_ok g -> progress_ok (final (update dt g)).
Proof.
  apply (steps_update_with keeps_progress_ok); try progress_kept.
  - apply collect_coin_progress.
  - intro x. unfold bounce. repeat walk; progress_kept.
  - intro car. unfold bump. repeat walk; progress_kept.
  - apply (steps_terrain_with keeps_progress_ok); try progress_kept.
    intros s e. apply (steps_segment_with keeps_progress_ok);
      try progress_kept.
    apply (steps_generate_walls keeps_progress_ok); progress_kept.
  - apply (steps_auto_save keeps_progress_ok); progress_kept.
Qed.

End Session.

Lemma score_never_negative_witness :
  progress_ok (final (update (1#60) at_151)).
Proof.
  apply (score_never_negative (1#60) at_151).
  vm_compute. repeat split; discriminate.
Defined.

(** ** Starting, saving and loading *)

Section StartSaveLoad.

Context {prng : Random} {engine : Engine}.

Lemma bind_raises {A B} (c : M A) (k : A -> M B) g x g' :
  c g = Exc x g' -> bind c k g = Exc x g'.
Proof. intro H. unfold bind. rewrite H. reflexivity. Qed.

Lemma spawn_ai_car_returns i g f cars :
  ai_speed_factor g = Some f -> ai_cars g = Some cars ->
  spawn_ai_car i g =
  Ret tt (with_ai_cars (Some (cars ++ [spawned (rng g) f]))
            (with_rng (seeded (world_seed g + Z.of_nat i)) g)).
Proof.
  intros Hf Ha.
  unfold spawn_ai_car, uniform, random, generate_car_texture, seed, bind, ret,
    attr, get, modify.
  flat. rewrite Hf. flat. rewrite Ha. reflexivity.
Qed.

Lemma spawn_ai_car_raises i g :
  ai_speed_factor g = None ->
  spawn_ai_car i g =
  Exc (AttributeError "ai_speed_factor")
      (with_rng (seeded (world_seed g + Z.of_nat i)) g).
Proof.
  intro Hf.
  unfold spawn_ai_car, uniform, random, generate_car_texture, seed, bind, ret,
    attr, get, modify.
  flat. rewrite Hf. reflexivity.
Qed.

Lemma bind_assoc {A B C} (c : M A) (k1 : A -> M B) (k2 : B -> M C) g :
  bind (bind c k1) k2 g = bind c (fun a => bind (k1 a) k2) g.
Proof. unfold bind. destruct (c g); reflexivity. Qed.

Ltac run :=
  rewrite ?bind_assoc; erewrite bind_returns by reflexivity; flat.

Ltac run_by c H :=
  rewrite ?bind_assoc; erewrite (bind_returns c) by H; flat.

Lemma spawn_ai_cars_returns g f :
  ai_speed_factor g = Some f -> ai_cars g = Some [] ->
  spawn_ai_cars g =
  Ret tt (with_ai_cars
            (Some [spawned (rng g) f;
                   spawned (seeded (world_seed g + 0)) f;
                   spawned (seeded (world_seed g + 1)) f;
                   spawned (seeded (world_seed g + 2)) f])
            (with_rng (seeded (world_seed g + 3)) g)).
Proof.
  intros Hf Ha. unfold spawn_ai_cars. cbn [seq for_each].
  run_by (spawn_ai_car 0)
    ltac:(apply (spawn_ai_car_returns 0 _ f []); [exact Hf | exact Ha]).
  run_by (spawn_ai_car 1)
    ltac:(apply (spawn_ai_car_returns 1 _ f); flat; [exact Hf | reflexivity]).
  run_by (spawn_ai_car 2)
    ltac:(apply (spawn_ai_car_returns 2 _ f); flat; [exact Hf | reflexivity]).
  run_by (spawn_ai_car 3)
    ltac:(apply (spawn_ai_car_returns 3 _ f); flat; [exact Hf | reflexivity]).
  unfold ret. apply (f_equal (Ret tt)). apply game_ext; flat; reflexivity.
Qed.

Lemma spawn_ai_cars_raises g :
  ai_speed_factor g = None ->
  spawn_ai_cars g =
  Exc (AttributeError "ai_speed_factor")
      (with_rng (seeded (world_seed g + 0)) g).
Proof.
  intro Hf. unfold spawn_ai_cars. cbn [seq for_each].
  apply bind_raises. apply (spawn_ai_car_raises 0 g Hf).
Qed.

Lemma new_track_returns {B} fresh (k : unit -> M B) g :
  (modify (with_world_seed fresh) ;;
   seed fresh ;;
   generate_textures ;;
   modify (with_coin_entities (Some [])) ;;
   create_track ;;
   modify (with_ai_cars (Some [])) ;;
   k tt) (with_score 0%Z (with_game_state Playing g)) =
  k tt (with_ai_cars (Some []) (track_of_new_game fresh g)).
Proof.
  do 2 run. run_by generate_textures ltac:(reflexivity). run.
  run_by create_track
    ltac:(apply (create_track_returns _ fresh); [reflexivity|];
          flat; discriminate).
  unfold bind, modify, track_of_new_game. apply (f_equal (k tt)).
  apply game_ext; flat; reflexivity.
Qed.

Lemma opponents_returns fresh f p t :
  ai_speed_factor t = Some f -> world_seed t = fresh ->
  (spawn_ai_cars ;;
   generate_car_texture fresh ;;
   modify (with_player (Some p))) (with_ai_cars (Some []) t) =
  Ret tt (with_player (Some p)
            (with_rng (seeded fresh)
               (with_ai_cars
                  (Some [spawned (rng t) f;
                         spawned (seeded (fresh + 0)) f;
                         spawned (seeded (fresh + 1)) f;
                         spawned (seeded (fresh + 2)) f]) t))).
Proof.
  intros Hf Hs.
  run_by spawn_ai_cars
    ltac:(apply (spawn_ai_cars_returns _ f); flat;
          [exact Hf | reflexivity]).
  run. unfold modify. rewrite Hs. apply (f_equal (Ret tt)).
  apply game_ext; flat; reflexivity.
Qed.

Lemma track_of_new_game_factor fresh g :
  ai_speed_factor (track_of_new_game fresh g) = ai_speed_factor g.
Proof. reflexivity. Qed.

Lemma track_of_new_game_seed fresh g :
  world_seed (track_of_new_game fresh g) = fresh.
Proof. reflexivity. Qed.

Lemma track_of_new_game_seed' fresh g :
  world_seed (with_ai_cars (Some []) (track_of_new_game fresh g)) = fresh.
Proof. reflexivity. Qed.

Lemma new_world_player fresh f g :
  player (new_world fresh f g) = Some (new_car (mkVec3 0 0 0) true).
Proof. reflexivity. Qed.

Lemma new_world_returns fresh f g :
  ai_speed_factor g = Some f ->
  start_game false fresh g = Ret tt (new_world fresh f g).
Proof.
  intro Hf. unfold start_game. cbn [negb]. do 2 run.
  rewrite (bind_returns _ _ _ tt (new_world fresh f g)).
  - unfold bind, attr, ret. rewrite new_world_player. reflexivity.
  - rewrite (new_track_returns fresh
               (fun _ => spawn_ai_cars ;;
                         generate_car_texture fresh ;;
                         modify (with_player
                                   (Some (new_car (mkVec3 0 0 0) true))))).
    apply opponents_returns.
    + rewrite track_of_new_game_factor. exact Hf.
    + apply track_of_new_game_seed.
Qed.

Lemma spawned_on_grid r f : unit_stream -> on_grid (spawned r f).
Proof.
  intro Hu. destruct (Hu (rng_seed r) (rng_pos r)) as [H0 H1].
  destruct (Hu (rng_seed r) (S (rng_pos r))) as [H2 H3].
  unfold on_grid, spawned, car_z. simpl. repeat split; nra.
Qed.

(** X7. With a difficulty chosen, [start_game(False)] returns a world in
    play: score 0, the fresh seed, the bounds at [-50] and [50], the player
    at the origin and four opponents on the starting grid with top speed
    [20 * ai_speed_factor].  Level and collected coins are not reset, and
    [total_coins] grows by the 20 coins of the first segment. *)
Theorem new_game_world (fresh : Z) (f : Q) (g : Game) :
  unit_stream -> ai_speed_factor g = Some f ->
  exists g' cars,
    start_game false fresh g = Ret tt g' /\
    game_state g' = Playing /\ score g' = 0%Z /\
    world_seed g' = fresh /\ rng g' = seeded fresh /\
    min_generated_z g' = -50 /\ max_generated_z g' = 50 /\
    player g' = Some (new_car (mkVec3 0 0 0) true) /\
    ai_cars g' = Some cars /\ List.length cars = 4%nat /\
    Forall (fun c => on_grid c /\ max_speed c = 20 * f /\ speed c = 0 /\
                     is_player c = false) cars /\
    level g' = level g /\ coins g' = coins g /\
    total_coins g' = (total_coins g + 20)%Z.
Proof.
  intros Hu Hf.
  exists (new_world fresh f g), (opponents_of_new_game fresh f g).
  split; [apply new_world_returns; exact Hf|].
  repeat (split; [reflexivity|]).
  split.
  - unfold opponents_of_new_game.
    repeat (constructor;
            [split; [apply spawned_on_grid; exact Hu|repeat split]|]).
    constructor.
  - repeat (split; [reflexivity|]). reflexivity.
Qed.

(** X8. Without a difficulty chosen -- the title screen shows "medium" but
    only [set_difficulty] assigns [ai_speed_factor] -- [start_game(False)]
    raises [AttributeError] at the first opponent: the game is left in play
    with a track, an empty opponent list and the player it had. *)
Theorem new_game_needs_difficulty (fresh : Z) (g : Game) :
  ai_speed_factor g = None ->
  exists g',
    start_game false fresh g = Exc (AttributeError "ai_speed_factor") g' /\
    game_state g' = Playing /\ ai_cars g' = Some [] /\
    player g' = player g /\ walls g' <> None.
Proof.
  intro Hf.
  exists (with_rng (seeded (fresh + 0))
            (with_ai_cars (Some []) (track_of_new_game fresh g))).
  split.
  - unfold start_game. cbn [negb]. do 2 run.
    apply bind_raises.
    rewrite (new_track_returns fresh
               (fun _ => spawn_ai_cars ;;
                         generate_car_texture fresh ;;
                         modify (with_player
                                   (Some (new_car (mkVec3 0 0 0) true))))).
    apply bind_raises.
    rewrite (spawn_ai_cars_raises
               (with_ai_cars (Some []) (track_of_new_game fresh g)) Hf).
    rewrite track_of_new_game_seed'. reflexivity.
  - repeat (split; [reflexivity|]). discriminate.
Qed.

(** X9. Choosing a difficulty makes [start_game(False)] return, whatever the
    game was before: the opponents get the top speed 14 on "easy", 18 on
    "medium" and 24 on anything else, and the auto-save timer starts at 0. *)
Theorem difficulty_then_new_game (d : string) (fresh : Z) (g : Game) :
  exists g',
    (set_difficulty d ;; start_game false fresh) g = Ret tt g' /\
    difficulty g' = d /\ auto_save_timer g' = Some 0 /\
    List.length (opponents g') = 4%nat /\
    Forall (fun c => max_speed c ==
                     if String.eqb d "easy" then 14
                     else if String.eqb d "medium" then 18 else 24)
           (opponents g').
Proof.
  set (f := if String.eqb d "easy" then 7#10
            else if String.eqb d "medium" then 9#10 else 12#10).
  set (g0 := final (set_difficulty d g)).
  assert (H0 : set_difficulty d g = Ret tt g0) by reflexivity.
  assert (Hf : ai_speed_factor g0 = Some f) by reflexivity.
  exists (new_world fresh f g0). split.
  - rewrite (bind_returns _ _ _ _ _ H0).
    apply new_world_returns. exact Hf.
  - split; [reflexivity|]. split; [reflexivity|]. split; [reflexivity|].
    unfold opponents. cbn [new_world ai_cars with_player with_rng with_ai_cars
                           opponents_of_new_game].
    assert (Hs : 20 * f == if String.eqb d "easy" then 14
                           else if String.eqb d "medium" then 18 else 24).
    { unfold f. destruct (String.eqb d "easy"); [reflexivity|].
      destruct (String.eqb d "medium"); reflexivity. }
    repeat (constructor; [exact Hs|]). constructor.
Qed.

Lemma place_coin_raises s e g t :
  textures g = Some t -> coin_entities g = None ->
  place_coin s e g =
  Exc (AttributeError "coin_entities") (with_rng (skip 2 (rng g)) g).
Proof.
  intros Ht Hc.
  unfold place_coin, uniform, random, bind, ret, attr, texture, modify.
  simpl. rewrite Ht. simpl. rewrite Hc. reflexivity.
Qed.

Lemma num_coins_positive s e :
  exists m, Z.to_nat (num_coins s e) = S m.
Proof.
  unfold num_coins.
  exists (Z.to_nat (Z.max 10 (py_int ((e - s) / 5)) - 1)). lia.
Qed.

Lemma segment_raises s e g t ws os :
  textures g = Some t -> walls g = Some ws -> obstacles g = Some os ->
  coin_entities g = None ->
  generate_track_segment s e g =
  Exc (AttributeError "coin_entities") (segment_without_coins s e g).
Proof.
  intros Ht Hw Ho Hc.
  unfold generate_track_segment, generate_walls, bind, try_except.
  rewrite (wall_loop_returns _ _ _ g t ws Ht Hw).
  erewrite obstacles_returns; [|exact Ht|exact Ho].
  destruct (num_coins_positive s e) as [m ->]. cbn [repeat_m]. unfold bind.
  erewrite place_coin_raises; [|exact Ht|exact Hc].
  unfold segment_without_coins. rewrite Hw, Ho. simpl rng.
  rewrite skip_skip. reflexivity.
Qed.

Lemma load_record_raises r g :
  coin_entities g = None ->
  load_record r g = Exc (AttributeError "coin_entities") (load_stopped r g).
Proof.
  intro Hc. unfold load_record.
  rewrite (bind_returns _ _ _ _ _ (destroy_all_returns g)).
  do 2 (erewrite bind_returns by reflexivity).
  erewrite (bind_returns generate_textures) by reflexivity. flat.
  do 2 (erewrite bind_returns by reflexivity). flat.
  apply bind_raises. unfold create_track.
  do 5 (erewrite bind_returns by reflexivity). flat.
  erewrite bind_returns by reflexivity. flat.
  erewrite (segment_raises _ _ _ (sv_world_seed r) [] []);
    [ | reflexivity | reflexivity | reflexivity | ].
  - apply (f_equal (Exc (AttributeError "coin_entities"))).
    unfold load_stopped, segment_without_coins.
    apply game_ext; flat; reflexivity.
  - flat. rewrite destroyed_coin_entities, Hc. reflexivity.
Qed.

(** X10. "Spiel laden" on a game that has no coin list yet -- any game that
    was not started in this process -- raises [AttributeError] although the
    save file is good: [load_game] regenerates the track before it assigns
    [coin_entities].  The game is left in play with the record's seed, the
    walls and ten obstacles of a new track, and no coins; the level of the
    record is not restored. *)
Theorem load_needs_coin_list (r : SaveRecord) (fresh : Z) (g : Game) :
  savegame g = Some (Json r) -> coin_entities g = None ->
  exists g',
    start_game true fresh g = Exc (AttributeError "coin_entities") g' /\
    game_state g' = Playing /\ world_seed g' = sv_world_seed r /\
    walls g' = Some (walls_after (wall_rounds (-50) 50) (-50) 50 []) /\
    count (obstacles g') = Some 10%nat /\
    coin_entities g' = None /\ level g' = level g.
Proof.
  intros Hs Hc.
  exists (load_stopped r (with_score 0%Z (with_game_state Playing g))).
  split.
  - unfold start_game. cbn [negb]. do 2 run.
    apply bind_raises. unfold load_game, bind, get. flat. rewrite Hs.
    apply load_record_raises. exact Hc.
  - unfold load_stopped, segment_without_coins. flat.
    split.
    { unfold destroyed, destroy_player, destroy_obstacles, destroy_walls,
        destroy_cars, destroy_coins.
      repeat match goal with
             | |- context [match ?f ?x with Some _ => _ | None => _ end] =>
                 destruct (f x)
             end; reflexivity. }
    split; [reflexivity|]. split; [reflexivity|].
    split.
    { unfold count. cbn [option_map app]. rewrite length_scatter.
      reflexivity. }
    split.
    { rewrite destroyed_coin_entities. flat. rewrite Hc. reflexivity. }
    unfold destroyed, destroy_player, destroy_obstacles, destroy_walls,
      destroy_cars, destroy_coins.
    repeat match goal with
           | |- context [match ?f ?x with Some _ => _ | None => _ end] =>
               destruct (f x)
           end; reflexivity.
Qed.

(** X11. What [save_game] does.  With the player, the coin list or the
    opponent list missing it raises [AttributeError] before the file is
    opened, leaving the game and the old file as they were.  With a coin in
    the list that is not disabled it raises [TypeError] out of [json.dump],
    at that coin's position, after the file has been opened for writing: the
    old save is gone, what is left of the file does not parse, so that
    [load_game] raises on it, and nothing is printed.  Only with no such
    coin does it return, with the record in the file and one line
    printed. *)
Theorem save_game_outcomes (g : Game) :
  (player g = None \/ coin_entities g = None \/ ai_cars g = None ->
   exists name, save_game g = Exc (AttributeError name) g) /\
  (forall p cs cars,
     player g = Some p -> coin_entities g = Some cs ->
     ai_cars g = Some cars ->
     match filter enabled cs with
     | [] =>
         save_game g =
         Ret tt (with_console (console g ++ [Printed "Spiel gespeichert!"])
                   (with_savegame (Some (Json (record_of g p cs cars))) g))
     | _ :: _ =>
         exists text,
           save_game g =
           Exc (TypeError "Object of type Vec3 is not JSON serializable")
               (with_savegame (Some (Garbage text)) g) /\
           load_game (final (save_game g)) =
           Exc JSONDecodeError (final (save_game g))
     end).
Proof.
  split.
  - intro H.
    destruct (player g) as [p|] eqn:Hp.
    2:{ exists "player"%string. unfold save_game, bind, get, attr.
        rewrite Hp. reflexivity. }
    destruct (coin_entities g) as [cs|] eqn:Hc.
    2:{ exists "coin_entities"%string. unfold save_game, bind, get, attr.
        rewrite Hp, Hc. reflexivity. }
    destruct (ai_cars g) as [cars|] eqn:Ha.
    2:{ exists "ai_cars"%string. unfold save_game, bind, get, attr.
        rewrite Hp, Hc, Ha. reflexivity. }
    destruct H as [H|[H|H]]; discriminate.
  - intros p cs cars Hp Hc Ha.
    destruct (filter enabled cs) as [|c l] eqn:He.
    + apply save_game_returns; assumption.
    + exists "{"%string.
      assert (Hs : save_game g =
                   Exc (TypeError
                          "Object of type Vec3 is not JSON serializable")
                       (with_savegame (Some (Garbage "{")) g)).
      { apply (save_game_raises g p cs cars); try assumption.
        rewrite He. discriminate. }
      split; [exact Hs|]. rewrite Hs. cbn [final].
      apply (load_game_corrupt _ "{"). reflexivity.
Qed.

Lemma car_of_data_same c : same_kinematics c (car_of_data (car_data c)).
Proof. repeat split. Qed.

(** X12. From a game in which no coin is left enabled -- the only games
    that [save_game] can save -- saving and loading at once brings back the
    seed, the score, the level, the collected coins and the difficulty; the
    player with its position, rotation, speed, top speed and turning speed;
    and the opponents with position, rotation, speed and top speed.  The
    coin list comes back empty and [total_coins] as 0. *)
Theorem save_load_round_trip (g : Game) (p : Car) (cs : list Entity)
    (cars : list Car) :
  player g = Some p -> coin_entities g = Some cs -> ai_cars g = Some cars ->
  filter enabled cs = [] ->
  exists g' p',
    (save_game ;; load_game) g = Ret tt g' /\
    world_seed g' = world_seed g /\ score g' = score g /\
    level g' = level g /\ coins g' = coins g /\
    difficulty g' = difficulty g /\
    player g' = Some p' /\ same_kinematics p p' /\
    rotation_speed p' = rotation_speed p /\
    Forall2 same_kinematics cars (opponents g') /\
    coin_entities g' = Some [] /\ total_coins g' = 0%Z.
Proof.
  intros Hp Hc Ha He.
  set (r := record_of g p cs cars).
  set (g1 := with_console (console g ++ [Printed "Spiel gespeichert!"])
               (with_savegame (Some (Json r)) g)).
  exists (loaded r g1), (player_of_data (player_data p)).
  split.
  { rewrite (bind_returns save_game _ g tt g1)
      by (apply save_game_returns; assumption).
    apply load_game_returns; [reflexivity|].
    unfold g1. flat. rewrite Hc. discriminate. }
  unfold loaded. flat.
  repeat (split; [reflexivity|]).
  split; [repeat split|]. split; [reflexivity|].
  split.
  { unfold opponents. flat. cbn [r record_of sv_ai_cars].
    rewrite map_map. clear. induction cars as [|c l IH]; simpl.
    - constructor.
    - constructor; [apply car_of_data_same|exact IH]. }
  cbn [r record_of sv_coins]. rewrite He. split; reflexivity.
Qed.

(** X13. The seed decides the first stretch of track: the walls, the
    obstacles and the bounds that [load_game] rebuilds from a record are
    those of a new game started with the record's seed, and both leave
    [random] reseeded with it. *)
Theorem load_rebuilds_seed_track (r : SaveRecord) (g g0 : Game) (f : Q) :
  savegame g = Some (Json r) -> coin_entities g <> None ->
  ai_speed_factor g0 = Some f ->
  let a := final (load_game g) in
  let b := final (start_game false (sv_world_seed r) g0) in
  walls a = walls b /\ obstacles a = obstacles b /\
  min_generated_z a = min_generated_z b /\
  max_generated_z a = max_generated_z b /\ rng a = rng b.
Proof.
  intros Hs Hc Hf.
  rewrite (load_game_returns r g Hs Hc).
  rewrite (new_world_returns (sv_world_seed r) f g0 Hf).
  cbn [final]. unfold loaded, new_world, track_of_new_game. flat.
  repeat split; reflexivity.
Qed.

End StartSaveLoad.

Lemma new_game_world_witness :
  exists g' cars,
    start_game false 42 medium_chosen = Ret tt g' /\
    game_state g' = Playing /\ score g' = 0%Z /\
    world_seed g' = 42%Z /\ rng g' = seeded 42 /\
    min_generated_z g' = -50 /\ max_generated_z g' = 50 /\
    player g' = Some (new_car (mkVec3 0 0 0) true) /\
    ai_cars g' = Some cars /\ List.length cars = 4%nat /\
    Forall (fun c => on_grid c /\ max_speed c = 20 * (9#10) /\ speed c = 0 /\
                     is_player c = false) cars /\
    level g' = level medium_chosen /\ coins g' = coins medium_chosen /\
    total_coins g' = (total_coins medium_chosen + 20)%Z.
Proof.
  apply (new_game_world 42 (9#10) medium_chosen lcg_unit). reflexivity.
Defined.

Lemma new_game_needs_difficulty_witness :
  exists g',
    start_game false 42 (init None) =
      Exc (AttributeError "ai_speed_factor") g' /\
    game_state g' = Playing /\ ai_cars g' = Some [] /\
    player g' = player (init None) /\ walls g' <> None.
Proof.
  apply (new_game_needs_difficulty 42 (init None)). reflexivity.
Defined.

Lemma load_needs_coin_list_witness :
  exists g',
    start_game true 7 saved_on_disk = Exc (AttributeError "coin_entities") g' /\
    game_state g' = Playing /\ world_seed g' = sv_world_seed two_coins_left /\
    walls g' = Some (walls_after (wall_rounds (-50) 50) (-50) 50 []) /\
    count (obstacles g') = Some 10%nat /\
    coin_entities g' = None /\ level g' = level saved_on_disk.
Proof.
  apply (load_needs_coin_list two_coins_left 7 saved_on_disk); reflexivity.
Defined.

Lemma save_load_round_trip_witness :
  exists g' p',
    (save_game ;; load_game) coins_gone = Ret tt g' /\
    world_seed g' = world_seed coins_gone /\
    score g' = score coins_gone /\
    level g' = level coins_gone /\ coins g' = coins coins_gone /\
    difficulty g' = difficulty coins_gone /\
    player g' = Some p' /\
    same_kinematics (new_car (mkVec3 0 0 0) true) p' /\
    rotation_speed p' = rotation_speed (new_car (mkVec3 0 0 0) true) /\
    Forall2 same_kinematics (opponents coins_gone) (opponents g') /\
    coin_entities g' = Some [] /\ total_coins g' = 0%Z.
Proof.
  apply (save_load_round_trip coins_gone (new_car (mkVec3 0 0 0) true)
           [] (opponents coins_gone));
    vm_compute; reflexivity.
Defined.

Lemma load_rebuilds_seed_track_witness :
  let a := final (load_game with_two_coins_saved) in
  let b := final (start_game false (sv_world_seed two_coins_left)
                    medium_chosen) in
  walls a = walls b /\ obstacles a = obstacles b /\
  min_generated_z a = min_generated_z b /\
  max_generated_z a = max_generated_z b /\ rng a = rng b.
Proof.
  apply (load_rebuilds_seed_track two_coins_left with_two_coins_saved
           medium_chosen (9#10)).
  - reflexivity.
  - vm_compute. discriminate.
  - reflexivity.
Defined.

(** ** Frames, pausing and levels *)

Section Play.

Context {prng : Random} {engine : Engine}.

(** X14. [update] never raises: whatever goes wrong in a frame is printed.
    A frame of a game that is not being played changes nothing, and a
    frame without a player's car changes nothing but the console. *)
Theorem frames_never_raise (dt : Q) (g : Game) :
  exists g',
    update dt g = Ret tt g' /\
    (game_state g <> Playing -> g' = g) /\
    (game_state g = Playing -> player g = None ->
     g' = update_error (AttributeError "player") g).
Proof.
  unfold update, try_except, print, modify.
  destruct (bind get _ g) as [[] g1|e g1] eqn:E.
  - exists g1. split; [reflexivity|]. split.
    + intro H. unfold bind, get in E.
      destruct (game_state g); [|congruence|]; inversion E; reflexivity.
    + intros H Hp. unfold collisions, bind, get, attr in E.
      rewrite H, Hp in E. discriminate.
  - exists (with_console (console g1 ++ [PrintedExn "Fehler im Spielupdate" e])
              g1).
    split; [reflexivity|]. split.
    + intro H. unfold bind, get in E.
      destruct (game_state g); [|congruence|]; discriminate.
    + intros H Hp. unfold collisions, bind, get, attr in E.
      rewrite H, Hp in E. inversion E. reflexivity.
Qed.

Lemma toggle_twice g :
  game_state g = Playing -> final (toggle_pause (final (toggle_pause g))) = g.
Proof.
  intro H. unfold toggle_pause, modify. cbn [final]. flat. rewrite H.
  apply game_ext; flat; auto.
Qed.

(** X15. Pausing freezes the game's own state: while paused, frames change
    nothing, and the second [toggle_pause] gives back the game as it was
    when the first one paused it. *)
Theorem pause_freezes (dts : list Q) (g : Game) :
  game_state g = Playing ->
  let p := final (toggle_pause g) in
  game_state p = Paused /\
  for_each dts update p = Ret tt p /\
  final (toggle_pause p) = g.
Proof.
  intro H. cbn zeta. split; [|split].
  - unfold toggle_pause, modify. cbn [final]. flat. rewrite H. reflexivity.
  - assert (Hp : game_state (final (toggle_pause g)) = Paused)
      by (unfold toggle_pause, modify; cbn [final]; flat; rewrite H;
          reflexivity).
    generalize dependent (final (toggle_pause g)). intros p Hp.
    induction dts as [|dt dts IH]; cbn [for_each]; [reflexivity|].
    rewrite (bind_returns (update dt) _ p tt p); [exact IH|].
    unfold update, try_except, bind, get. rewrite Hp. reflexivity.
  - apply toggle_twice, H.
Qed.

(** X16. [collect_coin] destroys the coin, counts it and pays [100 * level];
    when the counter reaches [total_coins] it levels up at once: the level
    grows by one, the counter goes back to 0, [1000] times the new level is
    paid, and every opponent's top speed grows by a tenth.  [total_coins]
    stays as it is. *)
Theorem coin_pays_and_levels_up (i : nat) (g : Game) (cs : list Entity)
    (cars : list Car) :
  coin_entities g = Some cs -> ai_cars g = Some cars ->
  exists g',
    collect_coin i g = Ret tt g' /\
    coin_entities g' = Some (update_nth i destroy cs) /\
    total_coins g' = total_coins g /\
    if (total_coins g <=? coins g + 1)%Z then
      level g' = (level g + 1)%Z /\ coins g' = 0%Z /\
      score g' = (score g + 100 * level g + 1000 * (level g + 1))%Z /\
      ai_cars g' = Some (faster cars)
    else
      level g' = level g /\ coins g' = (coins g + 1)%Z /\
      score g' = (score g + 100 * level g)%Z /\
      ai_cars g' = Some cars.
Proof.
  intros Hc Ha.
  unfold collect_coin, level_up, try_except, bind, attr, modify, get, ret.
  rewrite Hc. flat.
  destruct (total_coins g <=? coins g + 1)%Z eqn:E.
  - flat. rewrite Ha. eexists. split; [reflexivity|]. flat.
    repeat split; reflexivity.
  - eexists. split; [reflexivity|]. flat. rewrite Ha.
    repeat split; reflexivity.
Qed.

(** X18. The auto-save when its minute is up.  [update] adds [dt] to the
    timer and, with the sum at 60 or beyond, calls [save_game].  With no
    coin enabled the record is written and the timer goes back to 0.  With
    a coin enabled the save raises [TypeError]: the timer keeps its value of
    60 or more, the save file is left unparsable, and the next auto-save
    finds the timer beyond 60 and raises again. *)
Theorem auto_save_stalls_on_live_coin (dt t : Q) (g : Game) (p : Car)
    (cs : list Entity) (cars : list Car) :
  auto_save_timer g = Some t -> 60 <= t + dt ->
  player g = Some p -> coin_entities g = Some cs -> ai_cars g = Some cars ->
  match filter enabled cs with
  | [] =>
      exists g',
        auto_save dt g = Ret tt g' /\
        auto_save_timer g' = Some 0 /\
        savegame g' = Some (Json (record_of g p cs cars))
  | _ :: _ =>
      exists text g',
        auto_save dt g =
          Exc (TypeError "Object of type Vec3 is not JSON serializable") g' /\
        auto_save_timer g' = Some (t + dt) /\
        savegame g' = Some (Garbage text) /\
        console g' = console g /\
        forall dt', 0 <= dt' ->
          exists g'',
            auto_save dt' g' =
              Exc (TypeError "Object of type Vec3 is not JSON serializable")
                  g'' /\
            auto_save_timer g'' = Some (t + dt + dt')
  end.
Proof.
  intros Ht H60 Hp Hc Ha.
  apply Qle_bool_iff in H60.
  destruct (filter enabled cs) as [|c l] eqn:He.
  - eexists. split.
    + unfold auto_save. unfold bind at 1, get. rewrite Ht.
      erewrite bind_returns by reflexivity. rewrite H60.
      erewrite (bind_returns save_game)
        by (apply (save_game_returns _ p cs cars); assumption).
      reflexivity.
    + flat. split; reflexivity.
  - assert (Hraise : forall g0 t0 d,
               auto_save_timer g0 = Some t0 -> Qle_bool 60 (t0 + d) = true ->
               player g0 = Some p -> coin_entities g0 = Some cs ->
               ai_cars g0 = Some cars ->
               auto_save d g0 =
               Exc (TypeError "Object of type Vec3 is not JSON serializable")
                   (with_savegame (Some (Garbage "{"))
                      (with_auto_save_timer (Some (t0 + d)) g0))).
    { intros g0 t0 d Ht0 Hd Hp0 Hc0 Ha0.
      unfold auto_save. unfold bind at 1, get. rewrite Ht0.
      erewrite bind_returns by reflexivity. rewrite Hd.
      apply bind_raises.
      apply (save_game_raises _ p cs cars); try assumption.
      rewrite He. discriminate. }
    exists "{"%string. eexists.
    split; [apply (Hraise g t dt); assumption|]. flat.
    do 3 (split; [reflexivity|]).
    intros dt' Hdt'. eexists. split.
    + apply (Hraise _ (t + dt) dt'); try assumption; try reflexivity.
      apply Qle_bool_iff. apply Qle_bool_iff in H60.
      apply (Qle_trans _ (t + dt + 0)); [rewrite Qplus_0_r; exact H60|].
      apply Qplus_le_compat; [apply Qle_refl|exact Hdt'].
    + reflexivity.
Qed.

End Play.

Lemma pause_freezes_witness :
  let p := final (toggle_pause new_game) in
  game_state p = Paused /\
  for_each [1#60; 1#60] update p = Ret tt p /\
  final (toggle_pause p) = new_game.
Proof.
  apply (pause_freezes [1#60; 1#60] new_game). vm_compute. reflexivity.
Defined.

Lemma coin_pays_and_levels_up_witness :
  exists g',
    collect_coin 0 last_coin_left = Ret tt g' /\
    coin_entities g' = Some (update_nth 0 destroy (coins_of last_coin_left)) /\
    total_coins g' = total_coins last_coin_left /\
    if (total_coins last_coin_left <=? coins last_coin_left + 1)%Z then
      level g' = (level last_coin_left + 1)%Z /\ coins g' = 0%Z /\
      score g' = (score last_coin_left + 100 * level last_coin_left +
                  1000 * (level last_coin_left + 1))%Z /\
      ai_cars g' = Some (faster (opponents last_coin_left))
    else
      level g' = level last_coin_left /\
      coins g' = (coins last_coin_left + 1)%Z /\
      score g' = (score last_coin_left + 100 * level last_coin_left)%Z /\
      ai_cars g' = Some (opponents last_coin_left).
Proof.
  apply (coin_pays_and_levels_up 0 last_coin_left (coins_of last_coin_left)
           (opponents last_coin_left));
    vm_compute; reflexivity.
Defined.

Lemma auto_save_stalls_on_live_coin_witness :
  match filter enabled (coins_of minute_up) with
  | [] =>
      exists g',
        auto_save (1#60) minute_up = Ret tt g' /\
        auto_save_timer g' = Some 0 /\
        savegame g' =
          Some (Json (record_of minute_up car_at_151 (coins_of minute_up)
                                (opponents minute_up)))
  | _ :: _ =>
      exists text g',
        auto_save (1#60) minute_up =
          Exc (TypeError "Object of type Vec3 is not JSON serializable") g' /\
        auto_save_timer g' = Some ((3599#60) + (1#60)) /\
        savegame g' = Some (Garbage text) /\
        console g' = console minute_up /\
        forall dt', 0 <= dt' ->
          exists g'',
            auto_save dt' g' =
              Exc (TypeError "Object of type Vec3 is not JSON serializable")
                  g'' /\
            auto_save_timer g'' = Some ((3599#60) + (1#60) + dt')
  end.
Proof.
  apply (auto_save_stalls_on_live_coin (1#60) (3599#60) minute_up
           car_at_151 (coins_of minute_up) (opponents minute_up)).
  - reflexivity.
  - vm_compute. discriminate.
  - vm_compute. reflexivity.
  - vm_compute. reflexivity.
  - vm_compute. reflexivity.
Defined.

(** ** The leaderboard *)

Section Board.

Lemma insert_desc_perm x l : Permutation (insert_desc x l) (x :: l).
Proof.
  induction l as [|y l IH]; simpl; [reflexivity|].
  destruct (se_score x <? se_score y)%Z; [|reflexivity].
  rewrite IH. apply perm_swap.
Qed.

Lemma sort_desc_perm l : Permutation (sort_desc l) l.
Proof.
  induction l as [|x l IH]; simpl; [reflexivity|].
  rewrite insert_desc_perm. constructor. exact IH.
Qed.

Lemma insert_desc_ranked x l : ranked l -> ranked (insert_desc x l).
Proof.
  unfold ranked. intro H. induction H as [|y l Hl IH Hy]; simpl.
  - constructor; constructor.
  - destruct (se_score x <? se_score y)%Z eqn:E.
    + constructor; [exact IH|].
      apply (Permutation_Forall (Permutation_sym (insert_desc_perm x l))).
      constructor; [|exact Hy]. unfold outranks. lia.
    + constructor; [constructor; assumption|].
      constructor; [unfold outranks; lia|].
      eapply Forall_impl; [|exact Hy]. unfold outranks. intros a Ha. lia.
Qed.

Lemma sort_desc_ranked l : ranked (sort_desc l).
Proof.
  induction l as [|x l IH]; simpl; [constructor|].
  apply insert_desc_ranked, IH.
Qed.

Lemma insert_desc_first x l :
  Forall (outranks x) l -> insert_desc x l = x :: l.
Proof.
  intro H. destruct l as [|y l]; [reflexivity|]. simpl.
  inversion H as [|? ? Hy _]. unfold outranks in Hy.
  destruct (se_score x <? se_score y)%Z eqn:E; [lia|reflexivity].
Qed.

Lemma sort_desc_ranked_id l : ranked l -> sort_desc l = l.
Proof.
  unfold ranked. intro H. induction H as [|y l Hl IH Hy]; simpl;
    [reflexivity|].
  rewrite IH. apply insert_desc_first, Hy.
Qed.

Lemma ranked_firstn n l : ranked l -> ranked (firstn n l).
Proof.
  unfold ranked. intro H. revert n.
  induction H as [|y l Hl IH Hy]; intro n; destruct n; simpl;
    try constructor.
  - apply IH.
  - apply Forall_forall. intros a Ha.
    rewrite Forall_forall in Hy. apply Hy.
    rewrite <- (firstn_skipn n l). apply in_or_app. left. exact Ha.
Qed.

Lemma at_least_all s l :
  Forall (fun y => (s <= se_score y)%Z) l -> at_least s l = l /\ below s l = [].
Proof.
  unfold at_least, below. intro H. induction H as [|y l Hy Hl [IH1 IH2]];
    simpl; [auto|].
  destruct (s <=? se_score y)%Z eqn:E1; [|lia].
  destruct (se_score y <? s)%Z eqn:E2; [lia|].
  rewrite IH1, IH2. auto.
Qed.

Lemma below_all s l :
  Forall (fun y => (se_score y < s)%Z) l -> at_least s l = [] /\ below s l = l.
Proof.
  unfold at_least, below. intro H. induction H as [|y l Hy Hl [IH1 IH2]];
    simpl; [auto|].
  destruct (s <=? se_score y)%Z eqn:E1; [lia|].
  destruct (se_score y <? s)%Z eqn:E2; [|lia].
  rewrite IH1, IH2. auto.
Qed.

(** Sorting a ranked list with a new entry at its end: the entry goes
    behind the entries with at least its score. *)
Lemma sort_desc_snoc e l :
  ranked l ->
  sort_desc (l ++ [e]) =
  at_least (se_score e) l ++ e :: below (se_score e) l.
Proof.
  unfold ranked. intro H. induction H as [|y l Hl IH Hy]; [reflexivity|].
  cbn [app sort_desc fold_right]. fold (sort_desc (l ++ [e])). rewrite IH.
  destruct (se_score e <=? se_score y)%Z eqn:E.
  - unfold at_least, below. cbn [filter]. rewrite E.
    destruct (se_score y <? se_score e)%Z eqn:E2; [lia|].
    cbn [app]. apply insert_desc_first.
    apply Forall_app. split.
    + apply Forall_forall. intros a Ha. apply filter_In in Ha.
      rewrite Forall_forall in Hy. apply Hy, Ha.
    + constructor; [unfold outranks; lia|].
      apply Forall_forall. intros a Ha. apply filter_In in Ha.
      rewrite Forall_forall in Hy. apply Hy, Ha.
  - assert (Hlow : Forall (fun a => (se_score a < se_score e)%Z) l).
    { eapply Forall_impl; [|exact Hy]. unfold outranks. intros a Ha. lia. }
    destruct (below_all _ _ Hlow) as [-> ->].
    unfold at_least, below. cbn [filter]. rewrite E.
    destruct (se_score y <? se_score e)%Z eqn:E2; [|lia].
    destruct (below_all _ _ Hlow) as [H1 H2].
    unfold at_least, below in H1, H2. rewrite H1, H2.
    cbn [app insert_desc]. rewrite E2.
    rewrite (insert_desc_first y l Hy). reflexivity.
Qed.

(** X19. [add_score] leaves a board in descending order of score with at
    most ten entries, each of them an old entry or the new one, none of
    them with a lower score than an entry it dropped, and writes exactly
    this board to the file -- whatever order the board was in before. *)
Theorem add_score_keeps_top_ten (name : string) (level coins score : Z)
    (b : Leaderboard) :
  let e := mkScoreEntry name level coins score in
  let b' := add_score name level coins score b in
  ranked (scores b') /\ (List.length (scores b') <= 10)%nat /\
  leaderboard_file b' = Some (BoardJson (scores b')) /\
  exists dropped,
    Permutation (scores b' ++ dropped) (e :: scores b) /\
    Forall (fun d => Forall (fun k => outranks k d) (scores b')) dropped.
Proof.
  cbn zeta. unfold add_score, leaderboard_save. cbn [scores leaderboard_file].
  set (e := mkScoreEntry name level coins score).
  set (l := sort_desc (scores b ++ [e])).
  assert (Hl : ranked l) by apply sort_desc_ranked.
  split; [apply ranked_firstn, Hl|].
  split; [apply firstn_le_length|]. split; [reflexivity|].
  exists (skipn 10 l). split.
  - rewrite firstn_skipn. unfold l. rewrite sort_desc_perm.
    rewrite Permutation_app_comm. reflexivity.
  - clear -Hl. generalize 10%nat as n. unfold ranked in Hl.
    induction Hl as [|y l Hl IH Hy]; intro n.
    + destruct n; constructor.
    + destruct n as [|n]; cbn [firstn skipn].
      * apply Forall_forall. intros d _. constructor.
      * specialize (IH n). apply Forall_forall. intros d Hd.
        constructor.
        -- rewrite Forall_forall in Hy. apply Hy.
           rewrite <- (firstn_skipn n l). apply in_or_app. right. exact Hd.
        -- rewrite Forall_forall in IH. apply IH, Hd.
Qed.

(** X20. On a board in descending order, [add_score] puts the new entry
    behind every entry with at least its score and before the others, and
    cuts the list after the tenth place: of equal scores the older one
    ranks higher. *)
Theorem add_score_rank (name : string) (level coins score : Z)
    (b : Leaderboard) :
  ranked (scores b) ->
  scores (add_score name level coins score b) =
  firstn 10 (at_least score (scores b) ++
             mkScoreEntry name level coins score :: below score (scores b)).
Proof.
  intro H. unfold add_score, leaderboard_save. cbn [scores].
  rewrite (sort_desc_snoc _ _ H). reflexivity.
Qed.

(** X21. A full board does not take a score that only ties its last place:
    with ten entries in descending order, none of them below the new
    score, [add_score] leaves the list as it was. *)
Theorem tie_with_tenth_is_dropped (name : string) (level coins score : Z)
    (b : Leaderboard) :
  ranked (scores b) -> List.length (scores b) = 10%nat ->
  Forall (fun y => (score <= se_score y)%Z) (scores b) ->
  scores (add_score name level coins score b) = scores b.
Proof.
  intros H Hn Hall. unfold add_score, leaderboard_save. cbn [scores].
  rewrite (sort_desc_snoc _ _ H). cbn [se_score].
  destruct (at_least_all _ _ Hall) as [-> ->].
  rewrite firstn_app, Hn, Nat.sub_diag, firstn_O, app_nil_r.
  rewrite <- Hn. apply firstn_all.
Qed.

(** X22. What [add_score] has written, a new [Leaderboard()] reads back as
    the same list; and a leaderboard file that is missing or is not JSON
    gives an empty board.  [load] does not write. *)
Theorem leaderboard_round_trip (name : string) (level coins score : Z)
    (b : Leaderboard) (text : string) :
  new_leaderboard (leaderboard_file (add_score name level coins score b))
    = add_score name level coins score b /\
  scores (new_leaderboard None) = [] /\
  scores (new_leaderboard (Some (BoardGarbage text))) = [] /\
  forall file, leaderboard_file (new_leaderboard file) = file.
Proof.
  split; [|repeat split].
  unfold new_leaderboard, leaderboard_load, add_score, leaderboard_save.
  cbn [scores leaderboard_file].
  rewrite sort_desc_ranked_id; [reflexivity|].
  apply ranked_firstn, sort_desc_ranked.
Qed.

(** X23. [load] sorts what it reads: a new [Leaderboard()] holds the
    entries of the file, all of them, in descending order of score. *)
Theorem leaderboard_load_sorts (entries : list ScoreEntry) :
  let b := new_leaderboard (Some (BoardJson entries)) in
  ranked (scores b) /\ Permutation (scores b) entries.
Proof.
  cbn zeta. unfold new_leaderboard, leaderboard_load.
  cbn [scores leaderboard_file].
  split; [apply sort_desc_ranked | apply sort_desc_perm].
Qed.

End Board.

Lemma add_score_rank_witness :
  scores (add_score "Player" 1 2 200 podium) =
  firstn 10 (at_least 200 (scores podium) ++
             mkScoreEntry "Player" 1 2 200 :: below 200 (scores podium)).
Proof.
  apply (add_score_rank "Player" 1 2 200 podium).
  repeat constructor; unfold outranks; simpl; lia.
Defined.

Lemma tie_with_tenth_is_dropped_witness :
  scores (add_score "Late" 9 9 500 full_board) = scores full_board.
Proof.
  apply (tie_with_tenth_is_dropped "Late" 9 9 500 full_board).
  - repeat constructor; unfold outranks; simpl; lia.
  - reflexivity.
  - repeat constructor; simpl; lia.
Defined.

(** ** The cars *)

Section CarUpdate.

Context {prng : Random} {engine : Engine}.

Lemma lerp_in_range h m s b t :
  h <= s -> s <= m -> h <= b -> b <= m -> 0 <= t -> t <= 1 ->
  h <= lerp s b t /\ lerp s b t <= m.
Proof.
  intros H1 H2 H3 H4 H5 H6. unfold lerp.
  assert (0 <= (b - h) * t) by (apply Qmult_le_0_compat; lra).
  assert (0 <= (s - h) * (1 - t)) by (apply Qmult_le_0_compat; lra).
  assert (0 <= (m - b) * t) by (apply Qmult_le_0_compat; lra).
  assert (0 <= (m - s) * (1 - t)) by (apply Qmult_le_0_compat; lra).
  split; lra.
Qed.

(** X24. [Car.update] keeps the player's speed between full reverse,
    [-max_speed / 2], and [max_speed], whatever keys are held, for a frame
    of at most a third of a second; it leaves [max_speed] and the game
    alone. *)
Theorem player_speed_in_gear (keys : Keys) (dt : Q) (c : Car) (g : Game) :
  is_player c = true -> 0 <= max_speed c -> 0 <= dt -> dt * 3 <= 1 ->
  in_gear c ->
  exists c',
    car_update keys dt c g = Ret c' g /\
    in_gear c' /\ max_speed c' = max_speed c /\ is_player c' = true.
Proof.
  intros Hp Hm H0 H3 [Hlo Hhi].
  exists (drive keys dt c). unfold car_update. rewrite Hp.
  split; [reflexivity|].
  assert (Hh : - max_speed c / 2 <= 0).
  { assert (E : - max_speed c / 2 == - (1#2) * max_speed c) by field.
    rewrite E. lra. }
  assert (Hdt : dt <= 1) by lra.
  assert (H03 : 0 <= dt * 3) by lra.
  assert (Hgear :
    in_gear (if key_w keys || arrow_up keys then
               with_speed (lerp (speed c) (max_speed c) dt) c
             else if key_s keys || arrow_down keys then
               with_speed (lerp (speed c) (- max_speed c / 2) dt) c
             else with_speed (lerp (speed c) 0 (dt * 3)) c)).
  { destruct (key_w keys || arrow_up keys);
      [|destruct (key_s keys || arrow_down keys)];
      unfold in_gear; cbn [speed max_speed with_speed];
      apply lerp_in_range; try assumption; try lra; apply Qle_refl. }
  unfold drive, in_gear in *.
  destruct (key_w keys || arrow_up keys);
    [|destruct (key_s keys || arrow_down keys)];
    destruct (key_a keys || arrow_left keys);
    destruct (key_d keys || arrow_right keys);
    (split; [exact Hgear|split; [reflexivity|exact Hp]]).
Qed.

(** X25. [Car.update] never raises for an opponent and never touches its
    [speed] or [max_speed]: opponents drive at [0.8 * max_speed] whatever
    their speed says.  An opponent at [z >= 20] is put back to [z = -20]
    with no random draw; one before that line takes one or two draws. *)
Theorem opponent_keeps_speed (keys : Keys) (dt : Q) (c : Car) (g : Game) :
  is_player c = false ->
  exists c' g',
    car_update keys dt c g = Ret c' g' /\
    speed c' = speed c /\ max_speed c' = max_speed c /\
    is_player c' = false /\
    (20 <= car_z c ->
     g' = g /\ car_position c' = with_z (-20) (car_position c) /\
     car_rotation c' = car_rotation c) /\
    (car_z c < 20 ->
     exists k, (k = 1 \/ k = 2)%nat /\ g' = with_rng (skip k (rng g)) g).
Proof.
  intro Hp. unfold car_update. rewrite Hp. unfold drift.
  destruct (Qlt_bool (car_z c) 20) eqn:E.
  - apply Qlt_bool_true in E.
    unfold bind, random, uniform, bind, random, ret.
    destruct (Qlt_bool _ (1#10)).
    + eexists. eexists. split; [reflexivity|].
      repeat (split; [reflexivity|]). cbn [is_player with_rotation_y
        with_car_position]. split; [exact Hp|]. split.
      * intro H. exfalso. apply (Qlt_not_le _ _ E H).
      * intros _. exists 2%nat. split; [auto|].
        apply game_ext; flat; reflexivity.
    + eexists. eexists. split; [reflexivity|].
      repeat (split; [reflexivity|]). cbn [is_player with_car_position].
      split; [exact Hp|]. split.
      * intro H. exfalso. apply (Qlt_not_le _ _ E H).
      * intros _. exists 1%nat. split; [auto|].
        apply game_ext; flat; reflexivity.
  - apply Qlt_bool_false in E. eexists. eexists.
    split; [reflexivity|]. repeat (split; [reflexivity|]).
    cbn [is_player with_car_position]. split; [exact Hp|]. split.
    + intros _. repeat split.
    + intro H. exfalso. apply (Qlt_not_le _ _ H E).
Qed.

End CarUpdate.

Lemma player_speed_in_gear_witness :
  exists c',
    car_update full_throttle (1#60) (new_car (mkVec3 0 0 0) true) (init None)
      = Ret c' (init None) /\
    in_gear c' /\ max_speed c' = max_speed (new_car (mkVec3 0 0 0) true) /\
    is_player c' = true.
Proof.
  apply (player_speed_in_gear full_throttle (1#60)
           (new_car (mkVec3 0 0 0) true) (init None));
    try reflexivity; try discriminate.
  split; discriminate.
Defined.

Lemma opponent_keeps_speed_witness :
  exists c' g',
    car_update full_throttle (1#60) opponent_past_line (init None)
      = Ret c' g' /\
    speed c' = speed opponent_past_line /\
    max_speed c' = max_speed opponent_past_line /\
    is_player c' = false /\
    (20 <= car_z opponent_past_line ->
     g' = init None /\
     car_position c' = with_z (-20) (car_position opponent_past_line) /\
     car_rotation c' = car_rotation opponent_past_line) /\
    (car_z opponent_past_line < 20 ->
     exists k, (k = 1 \/ k = 2)%nat /\
               g' = with_rng (skip k (rng (init None))) (init None)).
Proof.
  apply (opponent_keeps_speed full_throttle (1#60) opponent_past_line
           (init None)).
  reflexivity.
Defined.
